(** * JupyterLab console and notebook widgets: a shallow embedding

    The development follows three source files:
    - the console history manager ([ConsoleHistory]),
    - the notebook widgets ([StaticNotebook] and [Notebook]),
    - the console panel ([ConsolePanel]).

    JavaScript values are kept as the code has them: numbers that index
    lists are integers ([Z]), a value that may be [undefined] is an
    [option], an operation that may throw a [TypeError] returns [None]
    (or an explicit outcome), and objects that are shared by reference
    live in a store keyed by their identity. *)

From stdpp Require Import base option list numbers strings gmap.

#[local] Set Warnings "-clear-no-such-hyp".

Local Open Scope string_scope.
Local Open Scope list_scope.
Local Open Scope Z_scope.

(* ===================================================================== *)
(** * Part I: definitions *)
(* ===================================================================== *)

(** ** The phosphor [Vector] operations the sources use

    [Vector.at(i)] reads the underlying array, so an index that is
    negative or past the end yields [undefined]; [Vector.back] is the last
    element, [undefined] on an empty vector. *)
Module Vector.

Definition at_ {A : Type} (v : list A) (i : Z) : option A :=
  if bool_decide (i < 0) then None else v !! Z.to_nat i.

Definition back {A : Type} (v : list A) : option A := last v.

Definition pushBack {A : Type} (v : list A) (x : A) : list A := v ++ [x].

Definition length {A : Type} (v : list A) : Z := Z.of_nat (List.length v).

End Vector.

(** ** ConsoleHistory (the console history manager) *)
Module ConsoleHistory.

(** A history reply entry: [session, line, input]. *)
Definition HistoryEntry : Type := Z * Z * string.

Definition input (e : HistoryEntry) : string := snd e.

(** [Private.initialRequest]. *)
Record IHistoryRequest := {
  output : bool;
  raw : bool;
  hist_access_type : string;
  n : Z
}.

Definition initialRequest : IHistoryRequest :=
  {| output := false; raw := true; hist_access_type := "tail"; n := 500 |}.

(** The private fields.  [_history] is [None] once the object is disposed
    (the source stores [null]); a kernel is known by its identity. *)
Record t := {
  _cursor : Z;
  _history : option (list string);
  _kernel : option nat
}.

Definition set_cursor (c : Z) (h : t) : t :=
  {| _cursor := c; _history := _history h; _kernel := _kernel h |}.

Definition set_history (l : option (list string)) (h : t) : t :=
  {| _cursor := _cursor h; _history := l; _kernel := _kernel h |}.

(** [new ConsoleHistory()] without a kernel option. *)
Definition new : t :=
  {| _cursor := 0; _history := Some []; _kernel := None |}.

Definition isDisposed (h : t) : bool :=
  match _history h with None => true | Some _ => false end.

Definition dispose (h : t) : t :=
  if isDisposed h then h else set_history None h.

(** The [kernel] setter.  The second component is the history request sent
    to the new kernel, whose reply is later handed to [onHistory]. *)
Definition set_kernel (newValue : option nat) (h : t) : t * option IHistoryRequest :=
  if decide (newValue = _kernel h) then (h, None)
  else
    let h1 := {| _cursor := _cursor h; _history := _history h; _kernel := newValue |} in
    match newValue with
    | None => (set_history (Some []) h1, None)
    | Some _ => (h1, Some initialRequest)
    end.

(** [back()]: the value the returned promise resolves to, and the new
    state.  [None] for the whole result is the [TypeError] of reading a
    disposed history. *)
Definition back (h : t) : option (option string * t) :=
  log ← _history h;
  let c := _cursor h - 1 in
  let content := Vector.at_ log c in
  Some (content, set_cursor (Z.max 0 c) h).

(** [forward()]. *)
Definition forward (h : t) : option (option string * t) :=
  log ← _history h;
  let c := _cursor h + 1 in
  let content := Vector.at_ log c in
  Some (content, set_cursor (Z.min (Vector.length log) c) h).

(** JavaScript truthiness of a string argument that may be [undefined]. *)
Definition truthy (item : option string) : bool :=
  match item with
  | None => false
  | Some s => bool_decide (s ≠ "")
  end.

(** [push(item)]: [item !== this._history.back] compares the argument with
    the last entry, which is [undefined] on an empty vector. *)
Definition push (item : option string) (h : t) : option t :=
  log ← _history h;
  let log' :=
    if truthy item && bool_decide (item ≠ Vector.back log)
    then from_option (Vector.pushBack log) log item
    else log in
  Some (set_cursor (Vector.length log') (set_history (Some log') h)).

(** The loop of [onHistory]: [last] is the loop variable of the source,
    [acc] the vector being filled. *)
Fixpoint onHistory_loop (entries : list HistoryEntry) (last : string)
    (acc : list string) : list string :=
  match entries with
  | [] => acc
  | e :: rest =>
      let current := input e in
      if bool_decide (current ≠ last)
      then onHistory_loop rest current (Vector.pushBack acc current)
      else onHistory_loop rest last acc
  end.

(** [onHistory(value)], on the [content.history] array of the reply. *)
Definition onHistory (history : list HistoryEntry) (h : t) : t :=
  let log := onHistory_loop history "" [] in
  set_cursor (Vector.length log) (set_history (Some log) h).

(** A navigation call, and a run of navigation calls. *)
Inductive Nav := Back | Forward.

Definition nav (o : Nav) (h : t) : option (option string * t) :=
  match o with Back => back h | Forward => forward h end.

Fixpoint nav_all (os : list Nav) (h : t) : option t :=
  match os with
  | [] => Some h
  | o :: rest => r ← nav o h; nav_all rest (snd r)
  end.

Fixpoint push_all (items : list (option string)) (h : t) : option t :=
  match items with
  | [] => Some h
  | i :: rest => h' ← push i h; push_all rest h'
  end.

(** The log has no two adjacent equal entries. *)
Definition no_adjacent_dup (l : list string) : Prop :=
  ∀ (i : nat) x y, l !! i = Some x → l !! S i = Some y → x ≠ y.

(** The histories that are not disposed and can be reached from a new one
    through the public methods, the kernel setter and history replies. *)
Inductive reachable : t → Prop :=
| reachable_new : reachable new
| reachable_push item h h' : reachable h → push item h = Some h' → reachable h'
| reachable_nav o h r : reachable h → nav o h = Some r → reachable (snd r)
| reachable_kernel k h : reachable h → reachable (fst (set_kernel k h))
| reachable_onHistory reply h : reachable h → reachable (onHistory reply h).

(** Contiguous duplicates collapsed, order kept: what the documentation of
    [onHistory] describes.  This follows the specification's words and is
    compared with [onHistory_loop]. *)
Fixpoint collapse_spec (l : list string) : list string :=
  match l with
  | [] => []
  | x :: rest =>
      match rest with
      | y :: _ => if bool_decide (x = y) then collapse_spec rest else x :: collapse_spec rest
      | [] => [x]
      end
  end.

(** [k] successive [back()] calls: what each resolves to, and the final
    state. *)
Fixpoint backs (k : nat) (h : t) : option (list (option string) * t) :=
  match k with
  | O => Some ([], h)
  | S k' =>
      r ← back h;
      rs ← backs k' (snd r);
      Some (fst r :: fst rs, snd rs)
  end.

(** The histories reached from a new one without taking the kernel away:
    by pushes, navigation, a change to another kernel and history
    replies. *)
Inductive navigable : t → Prop :=
| navigable_new : navigable new
| navigable_push item h h' : navigable h → push item h = Some h' → navigable h'
| navigable_nav o h r : navigable h → nav o h = Some r → navigable (snd r)
| navigable_kernel k h : navigable h → navigable (fst (set_kernel (Some k) h))
| navigable_onHistory reply h : navigable h → navigable (onHistory reply h).

(** A history reply whose input texts are the entries of [log]. *)
Definition replyOf (log : list string) : list HistoryEntry :=
  (λ s, (0, 0, s)) <$> log.

End ConsoleHistory.

(** ** Cells, editors and cell widgets

    Cell models, the editor of a cell widget and the widget classes are
    declared outside the files modelled here. *)
Module Cells.

(** The discriminant of a cell model. *)
Inductive CellType := code | markdown | raw.

#[global] Instance CellType_eq_dec : EqDecision CellType.
Proof. solve_decision. Defined.

(** A cell model: an entity of the notebook model with a discriminant and
    the lines of its source text. *)
Record ICellModel := {
  cell_id : nat;
  type : CellType;
  source : list string
}.

#[global] Instance ICellModel_eq_dec : EqDecision ICellModel.
Proof. solve_decision. Defined.

(** A cursor position, as the editor is told it: by line and column
    ([setCursor]) or by absolute offset ([setCursorPosition]). *)
Inductive Position := LineCh (line ch : Z) | Offset (position : Z).

#[global] Instance Position_eq_dec : EqDecision Position.
Proof. solve_decision. Defined.

Record Editor := {
  lines : list string;
  cursor : Position
}.





(** A cell widget object.  [cls] is its class ([CodeCellWidget],
    [MarkdownCellWidget] or [RawCellWidget]); [selected] is the attached
    property [Private.selectedProperty]. *)
Record BaseCellWidget := {
  model : ICellModel;
  cls : CellType;
  mimetype : string;
  rendered : bool;
  selected : bool;
  editor : Editor;
  isDisposed : bool
}.

Definition set_mimetype (m : string) (w : BaseCellWidget) : BaseCellWidget :=
  {| model := model w; cls := cls w; mimetype := m; rendered := rendered w;
     selected := selected w; editor := editor w; isDisposed := isDisposed w |}.

Definition set_rendered (b : bool) (w : BaseCellWidget) : BaseCellWidget :=
  {| model := model w; cls := cls w; mimetype := mimetype w; rendered := b;
     selected := selected w; editor := editor w; isDisposed := isDisposed w |}.

Definition set_selected (b : bool) (w : BaseCellWidget) : BaseCellWidget :=
  {| model := model w; cls := cls w; mimetype := mimetype w; rendered := rendered w;
     selected := b; editor := editor w; isDisposed := isDisposed w |}.


Definition dispose (w : BaseCellWidget) : BaseCellWidget :=
  {| model := model w; cls := cls w; mimetype := mimetype w; rendered := rendered w;
     selected := selected w; editor := editor w; isDisposed := true |}.

(** The widget a renderer factory builds for a cell model: the factory
    picked by [_insertCell] fixes the class, the editor shows the source
    of the cell, a markdown widget starts rendered, with the markdown
    mime type of its class, and nothing is selected. *)
Definition create (c : CellType) (cell : ICellModel) : BaseCellWidget :=
  {| model := cell; cls := c;
     mimetype := match c with markdown => "text/x-ipythongfm" | _ => "text/plain" end;
     rendered := true;
     selected := false;
     editor := {| lines := source cell; cursor := LineCh 0 0 |};
     isDisposed := false |}.

End Cells.

(** ** The phosphor [PanelLayout]

    The layout keeps the child widgets, known by identity, in a vector.
    [insertWidget] clamps the index to the bounds of the vector; a widget
    that is already a child is moved instead of inserted.  Setting the
    parent of a child to [null] removes it from the layout. *)
Module PanelLayout.

Definition indexOf (ws : list nat) (w : nat) : option nat :=
  fst <$> list_find (λ x, x = w) ws.

Definition insert_at {A : Type} (j : nat) (w : A) (ws : list A) : list A :=
  take j ws ++ w :: drop j ws.

(** [move(array, i, j)]: the element at [i] is taken out and put at [j]. *)
Definition move {A : Type} (i j : nat) (ws : list A) : list A :=
  match ws !! i with
  | Some w => insert_at j w (delete i ws)
  | None => ws
  end.

Definition insertWidget (index : Z) (w : nat) (ws : list nat) : list nat :=
  let j := Z.to_nat (Z.max 0 (Z.min index (Vector.length ws))) in
  match indexOf ws w with
  | None => insert_at j w ws
  | Some i =>
      let j := if decide (j = List.length ws) then (j - 1)%nat else j in
      if decide (i = j) then ws else move i j ws
  end.

Definition removeWidget (w : nat) (ws : list nat) : list nat :=
  match indexOf ws w with
  | Some i => delete i ws
  | None => ws
  end.

End PanelLayout.

(** ** The state of a notebook widget *)
Module NotebookState.
Import Cells.

Inductive NotebookMode := command | edit.

#[global] Instance NotebookMode_eq_dec : EqDecision NotebookMode.
Proof. solve_decision. Defined.

(** A reference to a cell widget as a JavaScript value: [null],
    [undefined] or an object, known by its identity. *)
Inductive Ref := Null | Undefined | Obj (w : nat).

#[global] Instance Ref_eq_dec : EqDecision Ref.
Proof. solve_decision. Defined.

(** The notebook model: its cell list, and the mime type its language
    metadata maps to ([renderer.getCodeMimetype(model)]). *)
Record INotebookModel := {
  model_id : nat;                     (* the identity of the model object *)
  cells : list ICellModel;
  readOnly : bool;
  codeMimetype : string
}.

Definition with_cells (l : list ICellModel) (m : INotebookModel) : INotebookModel :=
  {| model_id := model_id m; cells := l; readOnly := readOnly m;
     codeMimetype := codeMimetype m |}.

(** The argument of the [stateChanged] signal. *)
Inductive IChangedArgs :=
| ModeArgs (oldValue newValue : NotebookMode)
| ActiveCellIndexArgs (oldValue newValue : Z).

#[global] Instance IChangedArgs_eq_dec : EqDecision IChangedArgs.
Proof. solve_decision. Defined.

(** What a method does to the outside: signals emitted and messages
    sent, in order. *)
Inductive Effect :=
| UpdateRequest                     (* [this.update()] *)
| ActivateRequest                   (* [sendMessage(this, WidgetMessage.ActivateRequest)] *)
| activeCellChanged (cell : Ref)
| stateChanged (args : IChangedArgs)
| selectionChanged
| modelChanged.

#[global] Instance Effect_eq_dec : EqDecision Effect.
Proof. solve_decision. Defined.

Record t := {
  (* StaticNotebook *)
  _model : option INotebookModel;
  _mimetype : string;
  widgets : list nat;                 (* [layout.widgets] *)
  store : gmap nat BaseCellWidget;    (* the widget objects, by identity *)
  next_id : nat;                      (* identity of the next object built *)
  (* Notebook *)
  _activeCellIndex : Z;
  _activeCell : Ref;
  _mode : NotebookMode;
  _isActive : bool;
  trace : list Effect
}.

Definition with_model (m : option INotebookModel) (nb : t) : t :=
  {| _model := m; _mimetype := _mimetype nb; widgets := widgets nb; store := store nb;
     next_id := next_id nb; _activeCellIndex := _activeCellIndex nb;
     _activeCell := _activeCell nb; _mode := _mode nb; _isActive := _isActive nb;
     trace := trace nb |}.

Definition with_mimetype (m : string) (nb : t) : t :=
  {| _model := _model nb; _mimetype := m; widgets := widgets nb; store := store nb;
     next_id := next_id nb; _activeCellIndex := _activeCellIndex nb;
     _activeCell := _activeCell nb; _mode := _mode nb; _isActive := _isActive nb;
     trace := trace nb |}.

Definition with_widgets (ws : list nat) (nb : t) : t :=
  {| _model := _model nb; _mimetype := _mimetype nb; widgets := ws; store := store nb;
     next_id := next_id nb; _activeCellIndex := _activeCellIndex nb;
     _activeCell := _activeCell nb; _mode := _mode nb; _isActive := _isActive nb;
     trace := trace nb |}.

Definition with_store (st : gmap nat BaseCellWidget) (nb : t) : t :=
  {| _model := _model nb; _mimetype := _mimetype nb; widgets := widgets nb; store := st;
     next_id := next_id nb; _activeCellIndex := _activeCellIndex nb;
     _activeCell := _activeCell nb; _mode := _mode nb; _isActive := _isActive nb;
     trace := trace nb |}.

Definition with_next_id (n : nat) (nb : t) : t :=
  {| _model := _model nb; _mimetype := _mimetype nb; widgets := widgets nb; store := store nb;
     next_id := n; _activeCellIndex := _activeCellIndex nb;
     _activeCell := _activeCell nb; _mode := _mode nb; _isActive := _isActive nb;
     trace := trace nb |}.

Definition with_activeCellIndex (i : Z) (nb : t) : t :=
  {| _model := _model nb; _mimetype := _mimetype nb; widgets := widgets nb; store := store nb;
     next_id := next_id nb; _activeCellIndex := i;
     _activeCell := _activeCell nb; _mode := _mode nb; _isActive := _isActive nb;
     trace := trace nb |}.

Definition with_activeCell (r : Ref) (nb : t) : t :=
  {| _model := _model nb; _mimetype := _mimetype nb; widgets := widgets nb; store := store nb;
     next_id := next_id nb; _activeCellIndex := _activeCellIndex nb;
     _activeCell := r; _mode := _mode nb; _isActive := _isActive nb;
     trace := trace nb |}.

Definition with_mode (m : NotebookMode) (nb : t) : t :=
  {| _model := _model nb; _mimetype := _mimetype nb; widgets := widgets nb; store := store nb;
     next_id := next_id nb; _activeCellIndex := _activeCellIndex nb;
     _activeCell := _activeCell nb; _mode := m; _isActive := _isActive nb;
     trace := trace nb |}.

Definition with_isActive (b : bool) (nb : t) : t :=
  {| _model := _model nb; _mimetype := _mimetype nb; widgets := widgets nb; store := store nb;
     next_id := next_id nb; _activeCellIndex := _activeCellIndex nb;
     _activeCell := _activeCell nb; _mode := _mode nb; _isActive := b;
     trace := trace nb |}.

(** [signal.emit(...)], [sendMessage] and [this.update()] are recorded at
    the end of the trace. *)
Definition emit (e : Effect) (nb : t) : t :=
  {| _model := _model nb; _mimetype := _mimetype nb; widgets := widgets nb; store := store nb;
     next_id := next_id nb; _activeCellIndex := _activeCellIndex nb;
     _activeCell := _activeCell nb; _mode := _mode nb; _isActive := _isActive nb;
     trace := trace nb ++ [e] |}.

Definition update (nb : t) : t := emit UpdateRequest nb.

(** The effects recorded between two states. *)
Definition emitted (before after : t) : list Effect :=
  drop (List.length (trace before)) (trace after).

(** The fields as the constructors leave them. *)
Definition new : t :=
  {| _model := None; _mimetype := "text/plain"; widgets := []; store := ∅;
     next_id := 0; _activeCellIndex := -1; _activeCell := Null; _mode := command;
     _isActive := false; trace := [] |}.

(** [childAt(index)] and [childCount()]. *)
Definition childAt (index : Z) (nb : t) : Ref :=
  match Vector.at_ (widgets nb) index with
  | Some w => Obj w
  | None => Undefined
  end.

Definition childCount (nb : t) : Z := Vector.length (widgets nb).

(** The length of [this.model.cells], when there is a model. *)
Definition cellCount (nb : t) : option Z :=
  (λ m, Vector.length (cells m)) <$> _model nb.

(** The cell models the child widgets were built for, in layout order. *)
Definition widget_cells (nb : t) : list (option ICellModel) :=
  (λ w, model <$> store nb !! w) <$> widgets nb.

End NotebookState.

(** ** The observable cell list of the notebook model *)
Module ObservableList.
Import Cells.

(** The argument of the [changed] signal, one constructor per [type]. *)
Inductive IListChangedArgs :=
| Add (newIndex : Z) (newValue : ICellModel)
| Move (oldIndex newIndex : Z) (value : ICellModel)
| Remove (oldIndex : Z) (oldValue : ICellModel)
| Replace (oldIndex newIndex : Z) (oldValue newValue : list ICellModel)
| Set_ (oldIndex newIndex : Z) (oldValue newValue : ICellModel).

(** Modelled from the spec: the observable list ([common/observablelist])
    whose change an event reports.  Add inserts one entry at the new
    index; move relocates the entry at the old index to the new index;
    remove deletes the entry at the old index; replace deletes a
    contiguous run and inserts a new run at the same start index; set
    replaces the entry at a single index. *)
Definition apply (args : IListChangedArgs) (l : list ICellModel) : list ICellModel :=
  match args with
  | Add newIndex newValue => PanelLayout.insert_at (Z.to_nat newIndex) newValue l
  | Move oldIndex newIndex _ => PanelLayout.move (Z.to_nat oldIndex) (Z.to_nat newIndex) l
  | Remove oldIndex _ => delete (Z.to_nat oldIndex) l
  | Replace oldIndex _ oldValue newValue =>
      take (Z.to_nat oldIndex) l ++ newValue
        ++ drop (Z.to_nat oldIndex + List.length oldValue) l
  | Set_ _ newIndex _ newValue => <[Z.to_nat newIndex := newValue]> l
  end.

(** Modelled from the spec: the events the observable list can emit on a
    list [l]: indices are within the list and the old values are the
    entries that were there. *)
Definition valid (args : IListChangedArgs) (l : list ICellModel) : Prop :=
  match args with
  | Add newIndex _ => 0 ≤ newIndex ≤ Vector.length l
  | Move oldIndex newIndex value =>
      0 ≤ newIndex < Vector.length l ∧ Vector.at_ l oldIndex = Some value
  | Remove oldIndex oldValue => Vector.at_ l oldIndex = Some oldValue
  | Replace oldIndex newIndex oldValue newValue =>
      0 ≤ oldIndex ≤ Vector.length l ∧ newIndex = oldIndex
      ∧ take (List.length oldValue) (drop (Z.to_nat oldIndex) l) = oldValue
  | Set_ oldIndex newIndex oldValue _ =>
      newIndex = oldIndex ∧ Vector.at_ l oldIndex = Some oldValue
  end.

Definition is_move (args : IListChangedArgs) : bool :=
  match args with Move _ _ _ => true | _ => false end.

(** A run of events other than moves, each valid on the list the
    previous ones leave. *)
Fixpoint valid_run (events : list IListChangedArgs) (l : list ICellModel) : Prop :=
  match events with
  | [] => True
  | e :: rest => valid e l ∧ is_move e = false ∧ valid_run rest (apply e l)
  end.

End ObservableList.

(** ** StaticNotebook *)
Module StaticNotebook.
Import Cells NotebookState ObservableList.

(** The protected methods a subclass overrides. *)
Record Hooks := {
  onModelChanged : option INotebookModel → option INotebookModel → t → t;
  onCellInserted : Z → nat → t → t;
  onCellMoved : Z → Z → t → t;
  onCellRemoved : nat → t → t
}.

(** The default implementations are no-ops. *)
Definition base : Hooks :=
  {| onModelChanged := λ _ _ nb, nb;
     onCellInserted := λ _ _ nb, nb;
     onCellMoved := λ _ _ nb, nb;
     onCellRemoved := λ _ nb, nb |}.

Section Methods.
Variable H : Hooks.

(** [_updateCell(index)]; the renderer's [updateCell] is a no-op. *)
Definition _updateCell (index : Z) (nb : t) : t :=
  match Vector.at_ (widgets nb) index with
  | Some w =>
      match store nb !! w with
      | Some child =>
          if decide (cls child = code)
          then with_store (<[w := set_mimetype (_mimetype nb) child]> (store nb)) nb
          else nb
      | None => nb
      end
  | None => nb
  end.

(** [_insertCell(index, cell)]. *)
Definition _insertCell (index : Z) (cell : ICellModel) (nb : t) : t :=
  let widget :=
    match type cell with
    | code => create code cell
    | markdown => create markdown cell
    | _ => create raw cell
    end in
  let w := next_id nb in
  let nb := with_next_id (S w) (with_store (<[w := widget]> (store nb)) nb) in
  let nb := with_widgets (PanelLayout.insertWidget index w (widgets nb)) nb in
  let nb := _updateCell index nb in
  onCellInserted H index w nb.

(** [_moveCell(fromIndex, toIndex)]; [None] is the [TypeError] of handing
    [undefined] to the layout. *)
Definition _moveCell (fromIndex toIndex : Z) (nb : t) : option t :=
  w ← Vector.at_ (widgets nb) fromIndex;
  let nb := with_widgets (PanelLayout.insertWidget toIndex w (widgets nb)) nb in
  Some (onCellMoved H fromIndex toIndex nb).

(** [_removeCell(index)]; [None] is the [TypeError] of [widget.parent] on
    [undefined]. *)
Definition _removeCell (index : Z) (nb : t) : option t :=
  w ← Vector.at_ (widgets nb) index;
  let nb := with_widgets (PanelLayout.removeWidget w (widgets nb)) nb in
  let nb := onCellRemoved H w nb in
  Some (with_store (alter dispose w (store nb)) nb).

(** [for (let i = 0; i < oldValues.length; i++) this._removeCell(index)]. *)
Fixpoint removeCells (count : nat) (index : Z) (nb : t) : option t :=
  match count with
  | O => Some nb
  | S k => nb' ← _removeCell index nb; removeCells k index nb'
  end.

(** [for (let i = newValues.length; i > 0; i--)
      this._insertCell(index, newValues[i - 1])]. *)
Definition insertCells (index : Z) (newValues : list ICellModel) (nb : t) : t :=
  foldl (λ nb cell, _insertCell index cell nb) nb (reverse newValues).

(** [_onCellsChanged(sender, args)]. *)
Definition _onCellsChanged (args : IListChangedArgs) (nb : t) : option t :=
  match args with
  | Add newIndex newValue => Some (_insertCell newIndex newValue nb)
  | Move oldIndex newIndex _ => _moveCell newIndex oldIndex nb
  | Remove oldIndex _ => _removeCell oldIndex nb
  | Replace oldIndex newIndex oldValues newValues =>
      nb' ← removeCells (List.length oldValues) oldIndex nb;
      Some (insertCells newIndex newValues nb')
  | Set_ _ newIndex _ newValue =>
      nb' ← _removeCell newIndex nb;
      Some (_insertCell newIndex newValue nb')
  end.

(** [for (let i = 0; i < layout.widgets.length; i++) this._removeCell(0)]:
    the bound is read again at every turn. *)
Fixpoint removeAll_loop (fuel : nat) (i : Z) (nb : t) : option t :=
  match fuel with
  | O => Some nb
  | S k =>
      if bool_decide (i < childCount nb)
      then nb' ← _removeCell 0 nb; removeAll_loop k (i + 1) nb'
      else Some nb
  end.

(** [for (let i = 0; i < cells.length; i++)
      this._insertCell(i, cells.get(i))]. *)
Fixpoint insertAll_loop (i : Z) (l : list ICellModel) (nb : t) : t :=
  match l with
  | [] => nb
  | cell :: rest => insertAll_loop (i + 1) rest (_insertCell i cell nb)
  end.

(** [_updateCells()]: the layout does not change during the loop. *)
Definition _updateCells (nb : t) : t :=
  foldl (λ nb i, _updateCell (Z.of_nat i) nb) nb (seq 0 (List.length (widgets nb))).

(** [onMetadataChanged(model, args)], by [args.name]; the mime type is
    the one the renderer computes for [model]. *)
Definition onMetadataChanged (model : INotebookModel) (name : string) (nb : t) : t :=
  if decide (name = "language_info")
  then _updateCells (with_mimetype (codeMimetype model) nb)
  else nb.

(** [_onModelChanged(oldValue, newValue)]. *)
Definition _onModelChanged (oldValue newValue : option INotebookModel) (nb : t) : option t :=
  nb ← match oldValue with
       | Some _ => removeAll_loop (List.length (widgets nb)) 0 nb
       | None => Some nb
       end;
  match newValue with
  | None => Some (with_mimetype "text/plain" nb)
  | Some m => Some (insertAll_loop 0 (cells m) (with_mimetype (codeMimetype m) nb))
  end.

(** The [model] setter; models are compared by identity. *)
Definition set_model (newValue : option INotebookModel) (nb : t) : option t :=
  if decide (model_id <$> _model nb = model_id <$> newValue) then Some nb
  else
    let oldValue := _model nb in
    nb ← _onModelChanged oldValue newValue (with_model newValue nb);
    Some (emit modelChanged (onModelChanged H oldValue newValue nb)).

(** The model changes its cell list and then signals the change to the
    connected notebook. *)
Definition deliver (args : IListChangedArgs) (nb : t) : option t :=
  match _model nb with
  | Some m =>
      _onCellsChanged args
        (with_model (Some (with_cells (ObservableList.apply args (cells m)) m)) nb)
  | None => Some nb
  end.

Fixpoint deliver_all (events : list IListChangedArgs) (nb : t) : option t :=
  match events with
  | [] => Some nb
  | e :: rest => nb' ← deliver e nb; deliver_all rest nb'
  end.

End Methods.

(** The part of the state that the methods of the base class read and
    write: the model, the code mime type, the layout and the widget
    objects. *)
Definition layout_of (nb : t) :=
  (_model nb, _mimetype nb, widgets nb, store nb, next_id nb).

Definition same_layout (nb1 nb2 : t) : Prop := layout_of nb1 = layout_of nb2.

(** Overriding methods that leave that part alone. *)
Definition layout_preserving (H : Hooks) : Prop :=
  (∀ o n nb, same_layout (onModelChanged H o n nb) nb)
  ∧ (∀ i w nb, same_layout (onCellInserted H i w nb) nb)
  ∧ (∀ f t nb, same_layout (onCellMoved H f t nb) nb)
  ∧ (∀ w nb, same_layout (onCellRemoved H w nb) nb).

(** The child widgets render the cells of the model, in the same order. *)
Definition in_sync (nb : t) : Prop :=
  ∃ m, _model nb = Some m ∧ widget_cells nb = Some <$> cells m.

(** The child widgets are distinct objects built by this notebook. *)
Definition well_formed (nb : t) : Prop :=
  NoDup (widgets nb)
  ∧ Forall (λ w, (w < next_id nb)%nat ∧ is_Some (store nb !! w)) (widgets nb).

End StaticNotebook.

(** ** Notebook *)
Module Notebook.
Import Cells NotebookState ObservableList.

(** The [activeCellIndex] getter. *)
Definition get_activeCellIndex (nb : t) : Z :=
  match _model nb with
  | None => -1
  | Some m => if decide (Vector.length (cells m) = 0) then -1 else _activeCellIndex nb
  end.

(** The index the [activeCellIndex] setter resolves its argument to. *)
Definition resolve (newValue : Z) (nb : t) : Z :=
  match _model nb with
  | None => -1
  | Some m =>
      if decide (Vector.length (cells m) = 0) then -1
      else Z.min (Z.max newValue 0) (Vector.length (cells m) - 1)
  end.

(** The [activeCellIndex] setter. *)
Definition set_activeCellIndex (newValue : Z) (nb : t) : t :=
  let nb := update nb in
  let oldValue := _activeCellIndex nb in
  let newValue := resolve newValue nb in
  let nb := with_activeCellIndex newValue nb in
  let cell := childAt newValue nb in
  let nb :=
    if decide (cell ≠ _activeCell nb)
    then emit (activeCellChanged cell) (with_activeCell cell nb)
    else nb in
  if decide (newValue = oldValue) then nb
  else emit (stateChanged (ActiveCellIndexArgs oldValue newValue)) nb.

(** [Private.selectedProperty.get(widget)]; the property defaults to
    [false]. *)
Definition get_selected (w : nat) (nb : t) : bool :=
  match store nb !! w with
  | Some o => selected o
  | None => false
  end.

(** [select(widget)]. *)
Definition select (w : nat) (nb : t) : t :=
  if get_selected w nb then nb
  else update (emit selectionChanged (with_store (alter (set_selected true) w (store nb)) nb)).

(** [deselect(widget)]. *)
Definition deselect (w : nat) (nb : t) : t :=
  if negb (get_selected w nb) then nb
  else update (emit selectionChanged (with_store (alter (set_selected false) w (store nb)) nb)).

(** [isSelected(widget)]. *)
Definition isSelected (w : nat) (nb : t) : bool :=
  if decide (Obj w = _activeCell nb) then true else get_selected w nb.

(** [onActivateRequest(msg)]. *)
Definition onActivateRequest (nb : t) : t := update (with_isActive true nb).

(** [sendMessage(this, WidgetMessage.ActivateRequest)]: the message is
    processed at once by [onActivateRequest]. *)
Definition sendActivateRequest (nb : t) : t := onActivateRequest (emit ActivateRequest nb).

(** [activeCell instanceof MarkdownCellWidget]. *)
Definition isMarkdown (a : nat) (nb : t) : bool :=
  match store nb !! a with
  | Some o => bool_decide (cls o = markdown)
  | None => false
  end.

(** The [mode] setter. *)
Definition set_mode (newValue : NotebookMode) (nb : t) : t :=
  let nb := update nb in
  if decide (newValue = _mode nb) then nb
  else
    let oldValue := _mode nb in
    let nb := emit (stateChanged (ModeArgs oldValue newValue)) (with_mode newValue nb) in
    match _activeCell nb with
    | Obj a =>
        match newValue with
        | edit =>
            let nb := foldl (λ nb w, deselect w nb) nb (widgets nb) in
            let nb :=
              if isMarkdown a nb
              then with_store (alter (set_rendered false) a (store nb)) nb
              else nb in
            if _isActive nb then nb else sendActivateRequest nb
        | command => nb
        end
    | _ => nb
    end.

(** What a run of [deselect] calls may change: selection flags are only
    cleared, and no activate request is recorded. *)
Definition only_deselects (nb nb' : t) : Prop :=
  widgets nb' = widgets nb ∧ _mode nb' = _mode nb ∧ _isActive nb' = _isActive nb
  ∧ _activeCell nb' = _activeCell nb
  ∧ (∀ w, get_selected w nb = false → get_selected w nb' = false)
  ∧ (∀ a, isMarkdown a nb' = isMarkdown a nb)
  ∧ ∃ l, trace nb' = trace nb ++ l ∧ ActivateRequest ∉ l.

(** [onDeactivateRequest(msg)]. *)
Definition onDeactivateRequest (nb : t) : t := set_mode command (with_isActive false nb).

(** The overriding [onCellInserted], [onCellMoved], [onCellRemoved] and
    [onModelChanged]. *)
Definition onCellInserted (index : Z) (cell : nat) (nb : t) : t :=
  set_activeCellIndex (get_activeCellIndex nb) nb.

Definition onCellMoved (fromIndex toIndex : Z) (nb : t) : t :=
  if decide (fromIndex = get_activeCellIndex nb) then set_activeCellIndex toIndex nb else nb.

Definition onCellRemoved (cell : nat) (nb : t) : t :=
  let nb := set_activeCellIndex (get_activeCellIndex nb) nb in
  if isSelected cell nb then emit selectionChanged nb else nb.

Definition onModelChanged (oldValue newValue : option INotebookModel) (nb : t) : t :=
  set_activeCellIndex 0 nb.

Definition hooks : StaticNotebook.Hooks :=
  {| StaticNotebook.onModelChanged := onModelChanged;
     StaticNotebook.onCellInserted := onCellInserted;
     StaticNotebook.onCellMoved := onCellMoved;
     StaticNotebook.onCellRemoved := onCellRemoved |}.

Definition set_model := StaticNotebook.set_model hooks.
Definition deliver := StaticNotebook.deliver hooks.
Definition deliver_all := StaticNotebook.deliver_all hooks.




(** Every child widget is a live object, the layout has one widget per
    cell of the model, and the stored index points at a cell when the
    model has cells. *)
Definition consistent (nb : t) : Prop :=
  (∀ w, w ∈ widgets nb → is_Some (store nb !! w))
  ∧ ∀ m, _model nb = Some m →
      List.length (widgets nb) = List.length (cells m)
      ∧ (cells m ≠ [] → 0 ≤ _activeCellIndex nb < Vector.length (cells m)).

(** The stored index is one the setter resolves to itself, and the
    stored active cell is the child at that index. *)
Definition active_ok (nb : t) : Prop :=
  _activeCellIndex nb = resolve (_activeCellIndex nb) nb
  ∧ _activeCell nb = childAt (_activeCellIndex nb) nb.


(** A DOM element, by what the event handlers ask of it: whether it is
    [this.node], whether its class list has [NB_CELL_CLASS], the widget
    whose [node] it is, the widget whose [editor.node] it is, and its
    [localName]. *)
Record HTMLElement := {
  is_this_node : bool;
  has_cell_class : bool;
  widget_of : option nat;
  editor_of : option nat;
  localName : string
}.

(** A DOM event: its [type], and its [target] followed by the chain of
    [parentElement]s above it (no element at all for a null target). *)
Record Event := {
  event_type : string;
  target : list HTMLElement
}.

(** [_findCell(node)]: the walk up the chain stops at [this.node] and at
    the first element with the cell class. *)
Fixpoint _findCell (node : list HTMLElement) (nb : t) : Z :=
  match node with
  | [] => -1
  | n :: parentElement =>
      if is_this_node n then -1
      else if has_cell_class n then
        match list_find (λ w, widget_of n = Some w) (widgets nb) with
        | Some (i, _) => Z.of_nat i
        | None => -1
        end
      else _findCell parentElement nb
  end.

(** [widget.editor.node.contains(target)]: the editor node is the target
    or one of the elements above it. *)
Definition editor_contains (widget : nat) (target : list HTMLElement) : bool :=
  existsb (λ n, bool_decide (editor_of n = Some widget)) target.

(** [_evtMouseDown(event)]; [None] is the [TypeError] of reading
    [editor] on [undefined]. *)
Definition _evtMouseDown (event : Event) (nb : t) : option t :=
  let nb := if _isActive nb then nb else sendActivateRequest nb in
  let i := _findCell (target event) nb in
  if decide (i ≠ -1) then
    match childAt i nb with
    | Obj widget =>
        let nb :=
          if editor_contains widget (target event) then nb else set_mode command nb in
        Some (set_activeCellIndex i nb)
    | _ => None
    end
  else Some nb.

(** [_evtFocus(event)]. *)
Definition _evtFocus (event : Event) (nb : t) : option t :=
  let nb := if _isActive nb then nb else sendActivateRequest nb in
  let i := _findCell (target event) nb in
  if decide (i ≠ -1) then
    match childAt i nb with
    | Obj widget =>
        let nb :=
          if editor_contains widget (target event)
          then set_mode edit nb
          else set_mode command nb in
        Some (set_activeCellIndex i nb)
    | _ => None
    end
  else Some (set_mode command nb).

(** What a double click does outside the notebook object: the call of
    [widget.activate()] and the toggling of [UNCONFINED_CLASS] on the
    target. *)
Inductive DomEffect := activate (widget : nat) | toggleUnconfined.

(** [_evtDblClick(event)]; [None] is the [TypeError] of reading [type]
    on a cell the model does not have, or of writing [rendered] on
    [undefined]. *)
Definition _evtDblClick (event : Event) (nb : t) : option (t * list DomEffect) :=
  let nb := if _isActive nb then nb else sendActivateRequest nb in
  match _model nb with
  | None => Some (nb, [])
  | Some model =>
      if readOnly model then Some (nb, [])
      else
        let i := _findCell (target event) nb in
        if decide (i = -1) then Some (nb, [])
        else
          cell ← Vector.at_ (cells model) i;
          if decide (type cell = markdown) then
            widget ← Vector.at_ (widgets nb) i;
            Some (with_store (alter (set_rendered false) widget (store nb)) nb,
                  [activate widget])
          else
            element ← head (target event);
            if decide (localName element = "img")
            then Some (nb, [toggleUnconfined])
            else Some (nb, [])
  end.

(** [handleEvent(event)]. *)
Definition handleEvent (event : Event) (nb : t) : option (t * list DomEffect) :=
  match _model nb with
  | None => Some (nb, [])
  | Some model =>
      if readOnly model then Some (nb, [])
      else if decide (event_type event = "mousedown")
      then (λ nb, (nb, [])) <$> _evtMouseDown event nb
      else if decide (event_type event = "dblclick")
      then _evtDblClick event nb
      else if decide (event_type event = "focus")
      then (λ nb, (nb, [])) <$> _evtFocus event nb
      else Some (nb, [])
  end.

End Notebook.

(** ** ConsolePanel *)
Module ConsolePanel.

(** How a promise settles. *)
Inductive Promise (A : Type) := Fulfilled (a : A) | Rejected.
Arguments Fulfilled {A} a.
Arguments Rejected {A}.

(** A dialog button. *)
Record IButtonItem := { text : string }.

(** What the collaborators answer during one close request: the kernel of
    the session (if any) with the outcome of [getKernelSpec()] (the
    display name of the spec), the outcome of [showDialog] (the button
    the user picks, possibly none) and the outcome of
    [session.shutdown()]. *)
Record IKernel := { getKernelSpec : Promise string }.

Record ISession := {
  kernel : option IKernel;
  shutdown : Promise unit
}.

Record World := {
  session : ISession;
  showDialog : Promise (option IButtonItem)
}.

(** What the panel asks of its collaborators, in order. *)
Inductive Action :=
| KernelSpecRequested
| DialogShown (title body : string)
| ShutdownRequested.

(** The panel: [hasConsole] is [false] once [_console] is [null];
    [attached] is cleared by the inherited [onCloseRequest]. *)
Record t := {
  hasConsole : bool;
  isDisposed : bool;
  attached : bool;
  actions : list Action
}.

Definition new : t :=
  {| hasConsole := true; isDisposed := false; attached := true; actions := [] |}.

Definition record (a : Action) (p : t) : t :=
  {| hasConsole := hasConsole p; isDisposed := isDisposed p; attached := attached p;
     actions := actions p ++ [a] |}.

(** [dispose()]; the inherited [dispose()] also detaches the widget. *)
Definition dispose (p : t) : t :=
  if isDisposed p then p
  else {| hasConsole := false; isDisposed := true; attached := false;
          actions := actions p |}.

(** The inherited [onCloseRequest(msg)] detaches the widget. *)
Definition super_onCloseRequest (p : t) : t :=
  {| hasConsole := hasConsole p; isDisposed := isDisposed p; attached := false;
     actions := actions p |}.

(** A computation on the panel that ends in a settled promise, and
    [promise.then(callback)]: the callback runs on fulfilment only, and a
    rejection passes through. *)
Definition Async (A : Type) : Type := t → Promise A * t.

Definition settle {A : Type} (r : Promise A) : Async A := λ p, (r, p).

Definition then_ {A B : Type} (m : Async A) (f : A → Async B) : Async B :=
  λ p, match m p with
       | (Fulfilled a, p') => f a p'
       | (Rejected, p') => (Rejected, p')
       end.

Notation "m '.then' x '=>' k" := (then_ m (λ x, k))
  (at level 61, x binder, k at next level, left associativity).

(** How [onCloseRequest] returns: normally, with the promise chain it
    started, or by throwing. *)
Inductive Completion := Returned (chain : Promise unit) | Threw.

(** [value && value.text === 'OK']. *)
Definition confirmed (value : option IButtonItem) : bool :=
  match value with
  | Some b => bool_decide (text b = "OK")
  | None => false
  end.

(** [onCloseRequest(msg)].  Reading [this.content.session] on a panel
    without console throws, and so does [session.kernel.getKernelSpec()]
    on a session without kernel. *)
Definition onCloseRequest (w : World) (p : t) : Completion * t :=
  if negb (hasConsole p) then (Threw, p)
  else
    let session := session w in
    match kernel session with
    | None =>
        (* [this.dispose()], then [session.kernel.getKernelSpec()] on no kernel *)
        (Threw, dispose p)
    | Some k =>
        let chain :=
          (((λ p, (getKernelSpec k, record KernelSpecRequested p))
            .then name =>
              (λ p, (showDialog w,
                     record (DialogShown "Shut down kernel?"
                               ("Shut down " +:+ name +:+ "?")) p)))
            .then value =>
              (if confirmed value
               then (λ p, (shutdown session, record ShutdownRequested p))
               else settle (Fulfilled ())))
            .then _ => (λ p, (Fulfilled (), dispose (super_onCloseRequest p))) in
        let (r, p') := chain p in
        (Returned r, p')
    end.

End ConsolePanel.

(** ** Concrete inputs used by the examples *)
Module Examples.
Import Cells NotebookState ObservableList.

Definition cellA : ICellModel := {| cell_id := 10; type := code; source := ["a = 1"] |}.
Definition cellB : ICellModel := {| cell_id := 11; type := markdown; source := ["# b"] |}.
Definition cellC : ICellModel := {| cell_id := 12; type := raw; source := ["c"] |}.
Definition emptyModel : INotebookModel :=
  {| model_id := 1; cells := []; readOnly := false; codeMimetype := "text/x-python" |}.

(** A static notebook given an empty model, to which three cells are
    then added. *)
Definition empty : option t :=
  StaticNotebook.set_model StaticNotebook.base (Some emptyModel) new.

Definition three : option t :=
  nb ← empty;
  StaticNotebook.deliver_all StaticNotebook.base
    [Add 0 cellA; Add 1 cellB; Add 2 cellC] nb.

(** An interactive notebook given an empty model, to which two cells are
    then added. *)
Definition two : option t :=
  nb ← Notebook.set_model (Some emptyModel) new;
  Notebook.deliver_all [Add 0 cellA; Add 1 cellB] nb.

(** A kernel whose spec can be fetched, one whose spec cannot, and the
    collaborators of a close request: the kernel, the button the user
    picks and the outcome of the shutdown. *)
Definition python : ConsolePanel.IKernel :=
  {| ConsolePanel.getKernelSpec := ConsolePanel.Fulfilled "Python 3" |}.

Definition broken : ConsolePanel.IKernel :=
  {| ConsolePanel.getKernelSpec := ConsolePanel.Rejected |}.

Definition world (k : option ConsolePanel.IKernel) (answer : string)
    (sd : ConsolePanel.Promise unit) : ConsolePanel.World :=
  {| ConsolePanel.session := {| ConsolePanel.kernel := k; ConsolePanel.shutdown := sd |};
     ConsolePanel.showDialog :=
       ConsolePanel.Fulfilled (Some {| ConsolePanel.text := answer |}) |}.

End Examples.

(* ===================================================================== *)
(** * Part II: theorems *)
(* ===================================================================== *)

Module ConsoleHistoryFacts.
Import ConsoleHistory.

Example back_forward_run :
  (r ← push (Some "a") new; r ← push (Some "b") r; r1 ← back r; r2 ← back (snd r1);
   r3 ← back (snd r2); r4 ← forward (snd r3); r5 ← forward (snd r4);
   Some [fst r1; fst r2; fst r3; fst r4; fst r5])
  = Some [Some "b"; Some "a"; None; Some "b"; None].
Proof. reflexivity. Qed.

(** *** The vector primitives *)

Lemma at_negative {A} (v : list A) i : i < 0 → Vector.at_ v i = None.
Proof. intros Hi. unfold Vector.at_. by rewrite bool_decide_eq_true_2. Qed.

Lemma at_past_end {A} (v : list A) i : Vector.length v ≤ i → Vector.at_ v i = None.
Proof.
  unfold Vector.at_, Vector.length. intros Hi.
  case_bool_decide; [done|]. apply lookup_ge_None_2. lia.
Qed.

Lemma at_in_range {A} (v : list A) i :
  0 ≤ i < Vector.length v → is_Some (Vector.at_ v i).
Proof.
  unfold Vector.at_, Vector.length. intros Hi.
  rewrite bool_decide_eq_false_2 by lia. apply lookup_lt_is_Some_2. lia.
Qed.

Lemma at_last {A} (v : list A) : Vector.at_ v (Vector.length v - 1) = Vector.back v.
Proof.
  unfold Vector.at_, Vector.length, Vector.back. destruct v as [|x v].
  - reflexivity.
  - rewrite bool_decide_eq_false_2 by (simpl; lia).
    rewrite last_lookup. f_equal. simpl. lia.
Qed.

Lemma back_pushBack {A} (v : list A) x : Vector.back (Vector.pushBack v x) = Some x.
Proof. apply last_snoc. Qed.

(** *** Navigation *)

Lemma nav_total h log o :
  _history h = Some log →
  ∃ r, nav o h = Some r ∧ _history (snd r) = Some log
       ∧ (0 ≤ _cursor h ≤ Vector.length log → 0 ≤ _cursor (snd r) ≤ Vector.length log).
Proof.
  intros Hlog. destruct o; unfold nav, back, forward; rewrite Hlog; simpl;
    eexists; (split; [reflexivity|]); simpl; (split; [done|]); lia.
Qed.

Lemma nav_all_in_range os : ∀ h log,
  _history h = Some log → 0 ≤ _cursor h ≤ Vector.length log →
  ∃ h', nav_all os h = Some h' ∧ _history h' = Some log
        ∧ 0 ≤ _cursor h' ≤ Vector.length log.
Proof.
  induction os as [|o os IH]; intros h log Hlog Hc.
  - exists h. by simpl.
  - destruct (nav_total h log o Hlog) as (r & Hr & Hlog' & Hc').
    simpl. rewrite Hr. simpl. apply IH; auto.
Qed.

(** Replacing the kernel by none empties the log and leaves the cursor
    where it was, here past the end of the new log. *)
Example kernel_reset_keeps_cursor :
  let h := onHistory [(0, 1, "a"); (0, 2, "b")] (fst (set_kernel (Some 7%nat) new)) in
  let h' := fst (set_kernel None h) in
  _cursor h = 2 ∧ _history h' = Some [] ∧ _cursor h' = 2.
Proof. by split_and!. Qed.

(** *** Pushing *)

Lemma push_total item h log :
  _history h = Some log →
  ∃ h' log', push item h = Some h' ∧ _history h' = Some log'
    ∧ _cursor h' = Vector.length log'
    ∧ (log' = if truthy item && bool_decide (item ≠ Vector.back log)
              then from_option (Vector.pushBack log) log item else log).
Proof.
  intros Hlog. unfold push. rewrite Hlog. simpl.
  eexists _, _. split; [reflexivity|]. by simpl.
Qed.

Lemma no_adjacent_dup_snoc l x :
  no_adjacent_dup l → Vector.back l ≠ Some x → no_adjacent_dup (l ++ [x]).
Proof.
  intros Hl Hx i a b Ha Hb.
  destruct (decide (S i < List.length l)%nat) as [Hlt|Hge].
  - rewrite lookup_app_l in Ha by lia. rewrite lookup_app_l in Hb by lia. eauto.
  - assert (i < List.length l)%nat as Hi.
    { apply lookup_lt_Some in Hb. rewrite length_app in Hb. simpl in Hb. lia. }
    assert (S i = List.length l) as HS by lia.
    rewrite lookup_app_l in Ha by lia.
    rewrite HS, list_lookup_middle in Hb by done. injection Hb as <-.
    intros ->. apply Hx. unfold Vector.back. rewrite last_lookup, <- HS. exact Ha.
Qed.

Lemma push_keeps_no_adjacent_dup item h log h' :
  _history h = Some log → no_adjacent_dup log → push item h = Some h' →
  ∃ log', _history h' = Some log' ∧ no_adjacent_dup log'.
Proof.
  intros Hlog Hnd Hp.
  destruct (push_total item h log Hlog) as (h2 & log' & Hp' & Hh & _ & Hl').
  rewrite Hp in Hp'. injection Hp' as <-. exists log'. split; [done|].
  subst log'. destruct (truthy item) eqn:Ht; simpl; [|done].
  case_bool_decide as Hne; [|done].
  destruct item as [s|]; [|done]. simpl. by apply no_adjacent_dup_snoc.
Qed.

Lemma push_all_keeps_no_adjacent_dup items : ∀ h log,
  _history h = Some log → no_adjacent_dup log →
  ∃ h' log', push_all items h = Some h' ∧ _history h' = Some log'
             ∧ no_adjacent_dup log'.
Proof.
  induction items as [|i items IH]; intros h log Hlog Hnd.
  - exists h, log. by simpl.
  - destruct (push_total i h log Hlog) as (h1 & l1 & Hp & Hh1 & _ & _).
    destruct (push_keeps_no_adjacent_dup i h log h1 Hlog Hnd Hp) as (l2 & Hh2 & Hnd2).
    simpl. rewrite Hp. simpl. by apply (IH h1 l2).
Qed.

(** C3 (as the code has it): on a history that is not disposed,
    [back()] resolves to the entry at the decremented cursor and stores
    the cursor clamped at [0] only; [forward()] resolves to the entry at
    the incremented cursor and stores it clamped at the log length only.
    Stepping past either bound resolves to [undefined], no call raises,
    and from a cursor within [0, length] any run of [back()]/[forward()]
    calls keeps it there. *)
Theorem history_back_forward (h : t) (log : list string) :
  _history h = Some log →
  let c := _cursor h in
  let len := Vector.length log in
  (∃ hb, back h = Some (Vector.at_ log (c - 1), hb)
         ∧ _history hb = Some log ∧ _cursor hb = Z.max 0 (c - 1))
  ∧ (∃ hf, forward h = Some (Vector.at_ log (c + 1), hf)
           ∧ _history hf = Some log ∧ _cursor hf = Z.min len (c + 1))
  ∧ (c ≤ 0 → Vector.at_ log (c - 1) = None)
  ∧ (len ≤ c + 1 → Vector.at_ log (c + 1) = None)
  ∧ (0 < c ≤ len →
       Vector.at_ log (c - 1) = log !! Z.to_nat (c - 1)
       ∧ is_Some (Vector.at_ log (c - 1)))
  ∧ (0 ≤ c ∧ c + 1 < len →
       Vector.at_ log (c + 1) = log !! Z.to_nat (c + 1)
       ∧ is_Some (Vector.at_ log (c + 1)))
  ∧ (0 ≤ c ≤ len →
       ∀ os, ∃ h', nav_all os h = Some h' ∧ _history h' = Some log
                   ∧ 0 ≤ _cursor h' ≤ len).
Proof.
  intros Hlog c len. subst c len.
  split; [|split; [|split; [|split; [|split; [|split]]]]].
  - unfold back. rewrite Hlog. simpl. eexists. split; [reflexivity|]. by simpl.
  - unfold forward. rewrite Hlog. simpl. eexists. split; [reflexivity|]. by simpl.
  - intros Hc. apply at_negative. lia.
  - intros Hc. by apply at_past_end.
  - intros Hc. split; [|apply at_in_range; lia].
    unfold Vector.at_. by rewrite bool_decide_eq_false_2 by lia.
  - intros Hc. split; [|apply at_in_range; lia].
    unfold Vector.at_. by rewrite bool_decide_eq_false_2 by lia.
  - intros Hc os. by apply nav_all_in_range.
Qed.

Lemma history_back_forward_witness :
  let h := {| _cursor := 1; _history := Some ["a"; "b"]; _kernel := None |} in
  (fst <$> back h) = Some (Some "a")
  ∧ (fst <$> forward h) = Some None
  ∧ ∃ h', nav_all [Back; Back; Forward; Forward; Forward] h = Some h'
          ∧ 0 ≤ _cursor h' ≤ 2.
Proof.
  pose proof (history_back_forward
    {| _cursor := 1; _history := Some ["a"; "b"]; _kernel := None |}
    ["a"; "b"] eq_refl) as (_ & _ & _ & _ & _ & _ & Hrun).
  split; [reflexivity|]. split; [reflexivity|].
  destruct (Hrun ltac:(vm_compute; split; discriminate)
              [Back; Back; Forward; Forward; Forward]) as (h' & Hr & _ & Hc).
  exists h'. split; [exact Hr|exact Hc].
Defined.

(** A cursor past the log is not brought back into [0, length] by
    [back()]: after a reply of two entries the kernel is set to [null],
    which empties the log and keeps the cursor at [2]; [back()] then
    leaves the cursor at [1], past the empty log, and [forward()] after
    it resolves to [undefined] with the cursor at [0]. *)
Lemma history_back_past_emptied_log :
  let h := fst (set_kernel None
                  (onHistory [(0, 1, "a"); (0, 2, "b")] (fst (set_kernel (Some 7%nat) new)))) in
  isDisposed h = false ∧ _history h = Some [] ∧ _cursor h = 2
  ∧ (r ← back h; Some (fst r, _history (snd r), _cursor (snd r))) = Some (None, Some [], 1)
  ∧ (r ← back h; Some (bool_decide (0 ≤ _cursor (snd r) ≤ Z.of_nat (List.length (@nil string)))))
    = Some false
  ∧ (r ← forward h; Some (fst r, _cursor (snd r))) = Some (None, 0).
Proof. by split_and!. Qed.

(** C4: on a history that is not disposed, a push of a falsy item
    ([undefined] or the empty string) or of the current last entry leaves
    the log unchanged; any other push appends the item, so that the log
    becomes [log ++ [s]], and sets the cursor to the new log length; and
    a log without adjacent equal entries has none after any sequence of
    pushes. *)
Theorem history_push_no_adjacent_dup (h : t) (log : list string) :
  _history h = Some log →
  (∀ item, truthy item = false ∨ item = last log →
     ∃ h', push item h = Some h' ∧ _history h' = Some log
           ∧ _cursor h' = Z.of_nat (List.length log))
  ∧ (∀ s, s ≠ "" → last log ≠ Some s →
       ∃ h', push (Some s) h = Some h' ∧ _history h' = Some (log ++ [s])
             ∧ _cursor h' = Z.of_nat (List.length log) + 1)
  ∧ (no_adjacent_dup log →
       ∀ items, ∃ h' log', push_all items h = Some h' ∧ _history h' = Some log'
                           ∧ no_adjacent_dup log').
Proof.
  intros Hlog. split; [|split].
  - intros item Hi.
    destruct (push_total item h log Hlog) as (h' & log' & Hp & Hh & Hc & Hl).
    assert (log' = log) as ->.
    { rewrite Hl. destruct Hi as [->| ->]; [done|].
      rewrite bool_decide_eq_false_2 by auto. by rewrite andb_false_r. }
    exists h'. split; [done|]. split; [done|]. exact Hc.
  - intros s Hs Hb.
    destruct (push_total (Some s) h log Hlog) as (h' & log' & Hp & Hh & Hc & Hl).
    exists h'. split; [done|]. simpl in Hl.
    rewrite bool_decide_eq_true_2 in Hl by done.
    rewrite bool_decide_eq_true_2 in Hl by (unfold Vector.back; congruence).
    simpl in Hl. subst log'. split; [exact Hh|].
    rewrite Hc. unfold Vector.length, Vector.pushBack. rewrite length_app. simpl. lia.
  - intros Hnd items. by apply (push_all_keeps_no_adjacent_dup items h log).
Qed.

Lemma history_push_no_adjacent_dup_witness :
  let h := {| _cursor := 0; _history := Some ["a"]; _kernel := None |} in
  (∃ h', push (Some "b") h = Some h' ∧ _history h' = Some ["a"; "b"] ∧ _cursor h' = 2)
  ∧ (∃ h', push (Some "a") h = Some h' ∧ _history h' = Some ["a"] ∧ _cursor h' = 1)
  ∧ (∃ h', push None h = Some h' ∧ _history h' = Some ["a"] ∧ _cursor h' = 1)
  ∧ ∃ h' log', push_all [Some "a"; Some "a"; None; Some ""; Some "b"; Some "a"] h = Some h'
               ∧ _history h' = Some log' ∧ no_adjacent_dup log'.
Proof.
  destruct (history_push_no_adjacent_dup
              {| _cursor := 0; _history := Some ["a"]; _kernel := None |} ["a"] eq_refl)
    as (Hsame & Happ & Hall).
  split; [|split; [|split]].
  - apply (Happ "b"); discriminate.
  - apply (Hsame (Some "a")). by right.
  - apply (Hsame None). by left.
  - apply Hall. intros i x y Hx Hy. destruct i; [discriminate Hy|discriminate Hx].
Defined.

Example push_all_run :
  _history <$> push_all [Some "a"; Some "a"; None; Some ""; Some "b"; Some "a"] new
  = Some (Some ["a"; "b"; "a"]).
Proof. reflexivity. Qed.

(** C5 (as the code has it): on a history that is not disposed, for every
    non-empty string [x], the first [back()] after [push(x)] resolves to
    [x]. *)
Theorem history_push_then_back (h : t) (log : list string) (x : string) :
  _history h = Some log → x ≠ "" →
  ∃ h' h'', push (Some x) h = Some h' ∧ back h' = Some (Some x, h'').
Proof.
  intros Hlog Hx.
  destruct (push_total (Some x) h log Hlog) as (h' & log' & Hp & Hh & Hc & Hl).
  exists h'. unfold back. rewrite Hh, Hc. simpl. eexists. split; [done|].
  rewrite at_last. do 2 f_equal. subst log'. simpl.
  rewrite bool_decide_eq_true_2 by done. simpl.
  case_bool_decide as Hb; simpl.
  - apply back_pushBack.
  - destruct (decide (Some x = Vector.back log)); [done|contradiction].
Qed.

Lemma history_push_then_back_witness :
  ∃ h' h'', push (Some "x") new = Some h' ∧ back h' = Some (Some "x", h'').
Proof. apply (history_push_then_back new [] "x"); [reflexivity|discriminate]. Defined.

(** C5 as stated fails at the empty string: pushed on a new history it is
    ignored, and the following [back()] resolves to [undefined]. *)
Lemma history_push_empty_then_back :
  isDisposed new = false
  ∧ (h' ← push (Some "") new; r ← back h'; Some (fst r)) = Some None
  ∧ (h' ← push (Some "") new; r ← back h'; Some (fst r)) ≠ Some (Some "").
Proof. split; [reflexivity|]. split; [reflexivity|discriminate]. Qed.

(** C10: on a history that is not disposed, every push, ignored or not,
    leaves the cursor at the log length, and a [back()] issued right after
    it resolves to the last entry of the log, [undefined] when the log is
    empty. *)
Theorem history_push_resets_cursor (h : t) (log : list string) (item : option string) :
  _history h = Some log →
  ∃ h' log' h'',
    push item h = Some h' ∧ _history h' = Some log'
    ∧ _cursor h' = Vector.length log'
    ∧ (truthy item = false ∨ item = Vector.back log → log' = log)
    ∧ back h' = Some (last log', h'')
    ∧ (log' = [] → last log' = None).
Proof.
  intros Hlog.
  destruct (push_total item h log Hlog) as (h' & log' & Hp & Hh & Hc & Hl).
  exists h', log'. unfold back. rewrite Hh, Hc. simpl. eexists.
  split; [done|]. split; [done|]. split; [done|]. split; [|split].
  - intros [Hi|Hi]; subst log'; [by rewrite Hi|].
    rewrite bool_decide_eq_false_2 by auto. by rewrite andb_false_r.
  - by rewrite at_last.
  - by intros ->.
Qed.

Lemma history_push_resets_cursor_witness :
  ∃ h' log' h'',
    push (Some "b") {| _cursor := 0; _history := Some ["a"; "b"]; _kernel := None |} = Some h'
    ∧ _history h' = Some log'
    ∧ _cursor h' = Vector.length log'
    ∧ (truthy (Some "b") = false ∨ Some "b" = Vector.back ["a"; "b"] → log' = ["a"; "b"])
    ∧ back h' = Some (last log', h'')
    ∧ (log' = [] → last log' = None).
Proof.
  apply (history_push_resets_cursor
           {| _cursor := 0; _history := Some ["a"; "b"]; _kernel := None |}
           ["a"; "b"] (Some "b")).
  reflexivity.
Defined.

(** *** The history reply *)

Lemma collapse_spec_head x l : collapse_spec (x :: l) = x :: tail (collapse_spec (x :: l)).
Proof.
  revert x. induction l as [|y l IH]; intros x; [reflexivity|].
  change (collapse_spec (x :: y :: l))
    with (if bool_decide (x = y) then collapse_spec (y :: l) else x :: collapse_spec (y :: l)).
  case_bool_decide as Hxy; [|reflexivity].
  subst y. apply IH.
Qed.

(** The loop appends to [acc] the collapsed inputs, read as a continuation
    of a run of [last]. *)
Lemma onHistory_loop_collapse entries : ∀ last acc,
  onHistory_loop entries last acc
  = (acc ++ tail (collapse_spec (last :: map input entries)))%list.
Proof.
  induction entries as [|e rest IH]; intros last acc.
  - simpl. by rewrite app_nil_r.
  - cbn [onHistory_loop map].
    change (collapse_spec (last :: input e :: map input rest))
      with (if bool_decide (last = input e)
            then collapse_spec (input e :: map input rest)
            else last :: collapse_spec (input e :: map input rest)).
    case_bool_decide as Hne; case_bool_decide as Heq; try (exfalso; congruence).
    + rewrite IH. unfold Vector.pushBack. rewrite <- app_assoc.
      cbn [tail app]. by rewrite <- collapse_spec_head.
    + rewrite IH. by rewrite Heq.
Qed.

(** A reply that is empty or whose first input text is not the empty
    string is stored with exactly its contiguous duplicates collapsed, and
    the cursor is set to the new log length. *)
Lemma onHistory_collapse (history : list HistoryEntry) (h : t) :
  head (map input history) ≠ Some "" →
  _history (onHistory history h) = Some (collapse_spec (map input history))
  ∧ _cursor (onHistory history h) = Vector.length (collapse_spec (map input history)).
Proof.
  intros Hhd.
  assert (onHistory_loop history "" [] = collapse_spec (map input history)) as Heq.
  { rewrite onHistory_loop_collapse. simpl app.
    destruct history as [|e rest]; [reflexivity|].
    cbn [map]. cbn [map head] in Hhd.
    change (collapse_spec ("" :: input e :: map input rest))
      with (if bool_decide ("" = input e)
            then collapse_spec (input e :: map input rest)
            else "" :: collapse_spec (input e :: map input rest)).
    rewrite bool_decide_eq_false_2; [reflexivity|]. congruence. }
  unfold onHistory. rewrite Heq. by simpl.
Qed.

(** The stored log never has two adjacent equal entries. *)
Lemma onHistory_loop_no_adjacent_dup entries : ∀ last acc,
  no_adjacent_dup acc → (acc = [] ∨ Vector.back acc = Some last) →
  no_adjacent_dup (onHistory_loop entries last acc).
Proof.
  induction entries as [|e rest IH]; intros last acc Hnd Hlast; [done|].
  cbn [onHistory_loop]. case_bool_decide as Hne.
  - apply IH.
    + apply no_adjacent_dup_snoc; [done|].
      destruct Hlast as [->|Hl]; [done|]. rewrite Hl. congruence.
    + right. apply back_pushBack.
  - by apply IH.
Qed.

(** Every reachable history has a log, without adjacent equal entries. *)
Lemma reachable_no_adjacent_dup (h : t) :
  reachable h → ∃ log, _history h = Some log ∧ no_adjacent_dup log.
Proof.
  induction 1 as [|item h h' _ (log & Hlog & Hnd) Hp
                  |o h r _ (log & Hlog & Hnd) Hn
                  |k h _ (log & Hlog & Hnd)
                  |reply h _ _].
  - exists []. split; [done|]. intros i x y Hx. by rewrite lookup_nil in Hx.
  - by apply (push_keeps_no_adjacent_dup item h log).
  - destruct (nav_total h log o Hlog) as (r' & Hr & Hlog' & _).
    rewrite Hn in Hr. injection Hr as <-. by exists log.
  - unfold set_kernel. case_decide; [by exists log|].
    destruct k; cbn [fst set_history _history]; [by exists log|].
    exists []. split; [done|]. intros i x y Hx. by rewrite lookup_nil in Hx.
  - eexists. split; [reflexivity|].
    apply onHistory_loop_no_adjacent_dup; [|by left].
    intros i x y Hx. by rewrite lookup_nil in Hx.
Qed.

Example onHistory_example :
  _history (onHistory [(0, 1, "a"); (0, 2, "a"); (0, 3, "b"); (0, 4, "b");
                       (0, 5, "b"); (0, 6, "c")] new) = Some ["a"; "b"; "c"]
  ∧ _cursor (onHistory [(0, 1, "a"); (0, 2, "a"); (0, 3, "b"); (0, 4, "b");
                        (0, 5, "b"); (0, 6, "c")] new) = 3.
Proof. split; reflexivity. Qed.

(** C6 at a reply whose first input text is the empty string: the entry
    is not a duplicate of anything, yet the stored log omits it, because
    the loop starts with [last = ''].  Collapsing contiguous duplicates
    keeps it. *)
Theorem onHistory_drops_leading_empty :
  _history (onHistory [(0, 1, ""); (0, 2, "a")] new) = Some ["a"]
  ∧ collapse_spec (map input [(0, 1, ""); (0, 2, "a")]) = [""; "a"]
  ∧ _history (onHistory [(0, 1, ""); (0, 2, "a")] new)
    ≠ Some (collapse_spec (map input [(0, 1, ""); (0, 2, "a")])).
Proof. split; [reflexivity|]. split; [reflexivity|discriminate]. Qed.

(** *** What a history reply stores *)

Lemma no_adjacent_dup_cons_inv x l :
  no_adjacent_dup (x :: l) → no_adjacent_dup l ∧ head l ≠ Some x.
Proof.
  intros Hnd. split.
  - intros i a b Ha Hb. apply (Hnd (S i) a b); done.
  - destruct l as [|y l]; [done|]. simpl. intros [= ->].
    by apply (Hnd 0%nat x x).
Qed.

Lemma no_adjacent_dup_cons x l :
  no_adjacent_dup l → head l ≠ Some x → no_adjacent_dup (x :: l).
Proof.
  intros Hnd Hx [|i] a b Ha Hb.
  - simpl in Ha, Hb. injection Ha as <-. destruct l as [|y l]; [done|].
    simpl in Hb. injection Hb as <-. simpl in Hx. congruence.
  - by apply (Hnd i a b).
Qed.

Lemma collapse_spec_cons x y l :
  collapse_spec (x :: y :: l)
  = if bool_decide (x = y) then collapse_spec (y :: l) else x :: collapse_spec (y :: l).
Proof. reflexivity. Qed.

Lemma collapse_spec_no_adjacent_dup l : no_adjacent_dup (collapse_spec l).
Proof.
  induction l as [|x l IH]; [intros i a b Ha; discriminate Ha|].
  destruct l as [|y l].
  - intros [|i] a b Ha Hb; discriminate Hb.
  - rewrite collapse_spec_cons. case_bool_decide as Hxy; [done|].
    apply no_adjacent_dup_cons; [done|]. rewrite collapse_spec_head. simpl. congruence.
Qed.

Lemma collapse_spec_sublist l : collapse_spec l `sublist_of` l.
Proof.
  induction l as [|x l IH]; [constructor|].
  destruct l as [|y l]; [reflexivity|].
  rewrite collapse_spec_cons. case_bool_decide.
  - by apply sublist_cons.
  - by apply sublist_skip.
Qed.

Lemma collapse_spec_tail_sublist x l : tail (collapse_spec (x :: l)) `sublist_of` l.
Proof.
  revert x. induction l as [|y l IH]; intros x; [reflexivity|].
  rewrite collapse_spec_cons. case_bool_decide.
  - apply sublist_cons, IH.
  - apply collapse_spec_sublist.
Qed.

Lemma collapse_spec_fixed l : no_adjacent_dup l → collapse_spec l = l.
Proof.
  induction l as [|x l IH]; [done|]. intros [Hnd Hx]%no_adjacent_dup_cons_inv.
  destruct l as [|y l]; [done|].
  rewrite collapse_spec_cons. rewrite bool_decide_eq_false_2.
  - f_equal. by apply IH.
  - simpl in Hx. congruence.
Qed.

(** Whatever the reply, the stored log keeps the order of the input
    texts (it is a sublist of them), has no two adjacent equal entries
    and does not start with the empty string, and the cursor is at its
    length. *)
Theorem onHistory_log_shape (reply : list HistoryEntry) (h : t) :
  ∃ log, _history (onHistory reply h) = Some log
    ∧ _cursor (onHistory reply h) = Vector.length log
    ∧ _kernel (onHistory reply h) = _kernel h
    ∧ log `sublist_of` (input <$> reply)
    ∧ no_adjacent_dup log
    ∧ head log ≠ Some "".
Proof.
  eexists. split; [reflexivity|]. split; [reflexivity|]. split; [reflexivity|].
  rewrite onHistory_loop_collapse. cbn [app].
  pose proof (collapse_spec_no_adjacent_dup ("" :: map input reply)) as Hnd.
  rewrite collapse_spec_head in Hnd. apply no_adjacent_dup_cons_inv in Hnd as [Hnd Hhd].
  split; [apply collapse_spec_tail_sublist|]. by split.
Qed.

(** Round trip: a reply made of a stored log stores that same log. *)
Theorem onHistory_stored_log_again (reply : list HistoryEntry) (h h' : t) (log : list string) :
  _history (onHistory reply h) = Some log →
  _history (onHistory (replyOf log) h') = Some log
  ∧ _cursor (onHistory (replyOf log) h') = Vector.length log.
Proof.
  intros Hlog.
  destruct (onHistory_log_shape reply h) as (log' & Hl & _ & _ & _ & Hnd & Hhd).
  rewrite Hlog in Hl. injection Hl as <-.
  assert (map input (replyOf log) = log) as Hin.
  { unfold replyOf. rewrite <- list_fmap_compose. apply list_fmap_id. }
  destruct (onHistory_collapse (replyOf log) h') as [H1 H2]; [by rewrite Hin|].
  rewrite Hin, collapse_spec_fixed in H1, H2 by done. by split.
Qed.

Lemma onHistory_stored_log_again_witness :
  _history (onHistory (replyOf ["b"; "a"]) new) = Some ["b"; "a"]
  ∧ _cursor (onHistory (replyOf ["b"; "a"]) new) = 2.
Proof.
  apply (onHistory_stored_log_again
           [(0, 1, ""); (0, 2, "b"); (0, 3, "b"); (0, 4, "a")] new new ["b"; "a"]).
  reflexivity.
Defined.

(** *** Navigation through the log *)

(** Without the kernel being taken away, the cursor always lies within
    [0, length] and the log has no two adjacent equal entries. *)
Theorem navigable_cursor_in_range (h : t) :
  navigable h →
  ∃ log, _history h = Some log ∧ 0 ≤ _cursor h ≤ Vector.length log
         ∧ no_adjacent_dup log.
Proof.
  induction 1 as [|item h h' _ (log & Hlog & Hc & Hnd) Hp
                  |o h r _ (log & Hlog & Hc & Hnd) Hn
                  |k h _ (log & Hlog & Hc & Hnd)
                  |reply h _ _].
  - exists []. split; [done|]. split; [done|]. intros i x y Hx. by rewrite lookup_nil in Hx.
  - destruct (push_total item h log Hlog) as (h2 & log' & Hp' & Hh & Hcur & _).
    rewrite Hp in Hp'. injection Hp' as <-.
    destruct (push_keeps_no_adjacent_dup item h log h' Hlog Hnd Hp) as (l2 & Hl2 & Hnd2).
    exists log'. split; [done|]. split; [unfold Vector.length in *; lia|].
    rewrite Hh in Hl2. by injection Hl2 as ->.
  - destruct (nav_total h log o Hlog) as (r' & Hr & Hlog' & Hc').
    rewrite Hn in Hr. injection Hr as <-. exists log. auto.
  - unfold set_kernel. case_decide; cbn [fst _history _cursor]; by exists log.
  - destruct (onHistory_log_shape reply h) as (log & Hl & Hc & _ & _ & Hnd & _).
    exists log. split; [done|]. split; [unfold Vector.length in *; lia|done].
Qed.

Lemma navigable_cursor_in_range_witness :
  ∃ log, _history (onHistory [(0, 1, "a"); (0, 2, "b")] (fst (set_kernel (Some 7%nat) new)))
         = Some log
         ∧ 0 ≤ _cursor (onHistory [(0, 1, "a"); (0, 2, "b")] (fst (set_kernel (Some 7%nat) new)))
             ≤ Vector.length log
         ∧ no_adjacent_dup log.
Proof.
  apply navigable_cursor_in_range.
  apply navigable_onHistory, navigable_kernel, navigable_new.
Defined.

(** Walking back: from a cursor [c] within the log, [k] calls of [back()]
    resolve to the [c] entries before the cursor, newest first, and then
    to [undefined]; the cursor ends at [c - k], or at [0]. *)
Theorem backs_walk_log_in_reverse (k : nat) : ∀ (h : t) (log : list string),
  _history h = Some log → 0 ≤ _cursor h ≤ Vector.length log →
  ∃ h', backs k h = Some
          ((Some <$> take k (reverse (take (Z.to_nat (_cursor h)) log)))
             ++ replicate (k - Z.to_nat (_cursor h)) None, h')
        ∧ _history h' = Some log
        ∧ _cursor h' = Z.max 0 (_cursor h - Z.of_nat k).
Proof.
  induction k as [|k IH]; intros h log Hlog Hc.
  - exists h. cbn [backs take fmap list_fmap replicate app Nat.sub].
    split; [done|]. split; [done|]. lia.
  - cbn [backs]. unfold back at 1. rewrite Hlog. cbn [mbind option_bind fst snd].
    set (h1 := set_cursor _ h).
    destruct (IH h1 log Hlog) as (h' & Hr & Hlog' & Hc').
    { subst h1. cbn [_cursor set_cursor]. unfold Vector.length in *. lia. }
    rewrite Hr. cbn [mbind option_bind fst snd]. exists h'.
    split; [|split; [done|subst h1; cbn [_cursor set_cursor] in Hc'; lia]].
    do 2 f_equal. subst h1. cbn [_cursor set_cursor].
    destruct (decide (_cursor h = 0)) as [H0|Hpos].
    + rewrite at_negative by lia. rewrite H0.
      change (Z.to_nat (0 `max` (0 - 1))) with 0%nat. change (Z.to_nat 0) with 0%nat.
      rewrite take_0. change (reverse (@nil string)) with (@nil string).
      rewrite !take_nil, !Nat.sub_0_r. reflexivity.
    + unfold Vector.at_, Vector.length in *. rewrite bool_decide_eq_false_2 by lia.
      destruct (log !! Z.to_nat (_cursor h - 1)) as [x|] eqn:Hx;
        [|apply lookup_ge_None in Hx; lia].
      replace (Z.to_nat (_cursor h)) with (S (Z.to_nat (_cursor h - 1))) by lia.
      rewrite (take_S_r log _ x Hx), reverse_snoc. cbn [take fmap list_fmap app].
      replace (Z.to_nat (Z.max 0 (_cursor h - 1))) with (Z.to_nat (_cursor h - 1)) by lia.
      reflexivity.
Qed.

Lemma backs_walk_log_in_reverse_witness :
  (fst <$> (h ← push_all [Some "a"; Some "b"; Some "c"] new; backs 4 h))
  = Some [Some "c"; Some "b"; Some "a"; None].
Proof.
  destruct (backs_walk_log_in_reverse 4
              {| _cursor := 3; _history := Some ["a"; "b"; "c"]; _kernel := None |}
              ["a"; "b"; "c"] eq_refl ltac:(vm_compute; split; discriminate))
    as (h' & Hr & _).
  change (push_all [Some "a"; Some "b"; Some "c"] new)
    with (Some {| _cursor := 3; _history := Some ["a"; "b"; "c"]; _kernel := None |}).
  cbn [mbind option_bind]. rewrite Hr. reflexivity.
Defined.

(** [forward()] after [back()] restores a cursor that was above [0], and
    [back()] after [forward()] restores a cursor that was below the
    length and resolves to the entry at that cursor. *)
Theorem back_forward_round_trip (h : t) (log : list string) :
  _history h = Some log → 0 ≤ _cursor h ≤ Vector.length log →
  (0 < _cursor h →
     ∃ r r', back h = Some r ∧ forward (snd r) = Some r'
             ∧ snd r' = h ∧ fst r' = Vector.at_ log (_cursor h))
  ∧ (_cursor h < Vector.length log →
     ∃ r r' x, forward h = Some r ∧ back (snd r) = Some r'
               ∧ snd r' = h ∧ fst r' = Some x ∧ log !! Z.to_nat (_cursor h) = Some x).
Proof.
  intros Hlog Hc. destruct h as [c l k]. cbn [_history _cursor] in *. subst l. split.
  - intros Hpos. unfold back, forward, set_cursor. cbn [_history _cursor _kernel mbind option_bind].
    eexists _, _. split; [reflexivity|]. cbn [snd fst _history _cursor _kernel mbind option_bind].
    split; [reflexivity|]. cbn [snd fst]. split; [|f_equal; lia].
    f_equal. lia.
  - intros Hlt. unfold back, forward, set_cursor. cbn [_history _cursor _kernel mbind option_bind].
    destruct (at_in_range log c) as [x Hx]; [lia|].
    eexists _, _, x. split; [reflexivity|]. cbn [snd fst _history _cursor _kernel mbind option_bind].
    split; [reflexivity|]. cbn [snd fst].
    replace (Z.min (Vector.length log) (c + 1) - 1) with c by lia.
    split; [f_equal; lia|]. split; [done|].
    unfold Vector.at_ in Hx. by rewrite bool_decide_eq_false_2 in Hx by lia.
Qed.

Lemma back_forward_round_trip_witness :
  let h := {| _cursor := 1; _history := Some ["a"; "b"]; _kernel := None |} in
  (∃ r r', back h = Some r ∧ forward (snd r) = Some r' ∧ snd r' = h)
  ∧ (∃ r r', forward h = Some r ∧ back (snd r) = Some r' ∧ snd r' = h ∧ fst r' = Some "b").
Proof.
  destruct (back_forward_round_trip
              {| _cursor := 1; _history := Some ["a"; "b"]; _kernel := None |}
              ["a"; "b"] eq_refl ltac:(vm_compute; split; discriminate)) as [Hb Hf].
  split.
  - destruct (Hb ltac:(reflexivity)) as (r & r' & H1 & H2 & H3 & _). by exists r, r'.
  - destruct (Hf ltac:(reflexivity)) as (r & r' & x & H1 & H2 & H3 & H4 & H5).
    exists r, r'. split_and!; try done. rewrite H4. vm_compute in H5. congruence.
Defined.

(** *** Disposal and the kernel *)

(** After [dispose()] the history reports itself disposed, a second
    [dispose()] changes nothing, and [back()], [forward()] and [push()]
    all throw; a history reply handled afterwards installs a new log, so
    the history no longer reports itself disposed. *)
Theorem dispose_then_use (h : t) :
  isDisposed (dispose h) = true
  ∧ dispose (dispose h) = dispose h
  ∧ back (dispose h) = None ∧ forward (dispose h) = None
  ∧ (∀ item, push item (dispose h) = None)
  ∧ (∀ reply, isDisposed (onHistory reply (dispose h)) = false)
  ∧ _cursor (dispose h) = _cursor h ∧ _kernel (dispose h) = _kernel h.
Proof.
  unfold dispose, isDisposed. destruct h as [c [l|] k]; cbn; by split_and!.
Qed.

(** Setting the kernel it already has sends no request and changes
    nothing; setting another kernel sends exactly one tail request for
    500 raw entries without output and keeps log and cursor until the
    reply; setting it again right after sends nothing more. *)
Theorem set_kernel_requests (h : t) (k : nat) :
  set_kernel (_kernel h) h = (h, None)
  ∧ (_kernel h ≠ Some k →
       snd (set_kernel (Some k) h)
       = Some {| output := false; raw := true; hist_access_type := "tail"; n := 500 |}
       ∧ _history (fst (set_kernel (Some k) h)) = _history h
       ∧ _cursor (fst (set_kernel (Some k) h)) = _cursor h)
  ∧ _kernel (fst (set_kernel (Some k) h)) = Some k
  ∧ set_kernel (Some k) (fst (set_kernel (Some k) h)) = (fst (set_kernel (Some k) h), None).
Proof.
  unfold set_kernel. split; [by rewrite decide_True|].
  destruct (decide (Some k = _kernel h)) as [Heq|Hne].
  - split; [congruence|]. cbn [fst]. split; [done|]. by rewrite decide_True.
  - split; [by intros _|]. cbn [fst _kernel]. split; [done|]. by rewrite decide_True.
Qed.

Lemma set_kernel_requests_witness :
  snd (set_kernel (Some 7%nat) new)
  = Some {| output := false; raw := true; hist_access_type := "tail"; n := 500 |}
  ∧ _history (fst (set_kernel (Some 7%nat) new)) = Some []
  ∧ _cursor (fst (set_kernel (Some 7%nat) new)) = 0.
Proof.
  destruct (set_kernel_requests new 7) as (_ & H & _).
  apply H. discriminate.
Defined.

End ConsoleHistoryFacts.

Module StaticNotebookFacts.
Import Cells NotebookState ObservableList StaticNotebook Examples.

(** C1 at a move over more than one position: the handler calls
    [_moveCell(args.newIndex, args.oldIndex)], so the widget at the new
    index is moved to the old index.  After the cell at index 0 moves to
    index 2 the model reads [b; c; a], the widgets render [c; a; b], and
    the widget that was at index 0 sits at index 1. *)
Theorem onCellsChanged_move_swaps_indices :
  (nb ← three; Some (widgets nb, widget_cells nb, cells <$> _model nb))
  = Some ([0; 1; 2]%nat, [Some cellA; Some cellB; Some cellC], Some [cellA; cellB; cellC])
  ∧ ObservableList.valid (Move 0 2 cellA) [cellA; cellB; cellC]
  ∧ (nb ← three; nb' ← deliver base (Move 0 2 cellA) nb;
     Some (widgets nb', widget_cells nb', cells <$> _model nb'))
    = Some ([2; 0; 1]%nat, [Some cellC; Some cellA; Some cellB], Some [cellB; cellC; cellA]).
Proof. vm_compute. by split_and!. Qed.

(** *** List facts *)

Lemma insert_at_fmap {A B} (f : A → B) (j : nat) (x : A) (l : list A) :
  f <$> PanelLayout.insert_at j x l = PanelLayout.insert_at j (f x) (f <$> l).
Proof.
  unfold PanelLayout.insert_at. by rewrite fmap_app, fmap_cons, fmap_take, fmap_drop.
Qed.

Lemma delete_fmap {A B} (f : A → B) (i : nat) (l : list A) :
  f <$> delete i l = delete i (f <$> l).
Proof.
  revert i. induction l as [|a l IH]; intros [|i]; simpl; try done. by rewrite <- IH.
Qed.

Lemma insert_at_delete {A} (i : nat) (x : A) (l : list A) :
  (i < List.length l)%nat → PanelLayout.insert_at i x (delete i l) = <[i := x]> l.
Proof.
  unfold PanelLayout.insert_at. revert i.
  induction l as [|a l IH]; intros [|i] Hi; simpl in *; try lia; [done|].
  f_equal. apply IH. lia.
Qed.

Lemma indexOf_fresh (ws : list nat) (w : nat) :
  w ∉ ws → PanelLayout.indexOf ws w = None.
Proof.
  intros Hw. unfold PanelLayout.indexOf.
  destruct (list_find _ ws) as [[i x]|] eqn:Hf; [|done].
  apply list_find_Some in Hf as (Hl & -> & _).
  exfalso. apply Hw. by eapply list_elem_of_lookup_2.
Qed.

Lemma indexOf_lookup (ws : list nat) (i w : nat) :
  NoDup ws → ws !! i = Some w → PanelLayout.indexOf ws w = Some i.
Proof.
  intros Hnd Hl. unfold PanelLayout.indexOf.
  destruct (list_find _ ws) as [[j x]|] eqn:Hf.
  - apply list_find_Some in Hf as (Hj & -> & _). simpl. f_equal.
    by eapply NoDup_lookup.
  - apply list_find_None in Hf. exfalso.
    eapply Forall_lookup_1 in Hf; [|exact Hl]. by apply Hf.
Qed.

(** *** Inserting and removing one widget *)

Lemma insert_at_Permutation {A} (j : nat) (x : A) (l : list A) :
  PanelLayout.insert_at j x l ≡ₚ x :: l.
Proof.
  unfold PanelLayout.insert_at. rewrite <- Permutation_middle.
  by rewrite take_drop.
Qed.

Lemma insertWidget_fresh (index : Z) (w : nat) (ws : list nat) :
  w ∉ ws → 0 ≤ index ≤ Vector.length ws →
  PanelLayout.insertWidget index w ws = PanelLayout.insert_at (Z.to_nat index) w ws.
Proof.
  intros Hw Hi. unfold PanelLayout.insertWidget. rewrite indexOf_fresh by done.
  f_equal. lia.
Qed.

Lemma removeWidget_lookup (i w : nat) (ws : list nat) :
  NoDup ws → ws !! i = Some w → PanelLayout.removeWidget w ws = delete i ws.
Proof.
  intros Hnd Hl. unfold PanelLayout.removeWidget. by rewrite (indexOf_lookup ws i w).
Qed.

(** [_updateCell] touches the mime type of one widget only. *)
Lemma updateCell_spec (index : Z) (nb : t) :
  widgets (_updateCell index nb) = widgets nb
  ∧ next_id (_updateCell index nb) = next_id nb
  ∧ _model (_updateCell index nb) = _model nb
  ∧ ∀ y, model <$> store (_updateCell index nb) !! y = model <$> store nb !! y.
Proof.
  unfold _updateCell.
  destruct (Vector.at_ (widgets nb) index) as [w|]; [|done].
  destruct (store nb !! w) as [child|] eqn:Hw; [|done].
  case_decide; [|done]. split_and!; try done.
  intros y. cbn [store with_store]. destruct (decide (w = y)) as [->|Hne].
  - by rewrite lookup_insert_eq, Hw.
  - by rewrite lookup_insert_ne.
Qed.

Lemma widget_cells_ext (nb nb' : t) :
  widgets nb' = widgets nb →
  (∀ y, y ∈ widgets nb → model <$> store nb' !! y = model <$> store nb !! y) →
  widget_cells nb' = widget_cells nb.
Proof.
  intros Hw Hst. unfold widget_cells. rewrite Hw.
  apply Forall_fmap_ext, Forall_forall. exact Hst.
Qed.

Lemma insertCell_base (index : Z) (cell : ICellModel) (nb : t) :
  well_formed nb → 0 ≤ index ≤ childCount nb →
  let nb' := _insertCell base index cell nb in
  well_formed nb'
  ∧ _model nb' = _model nb
  ∧ widgets nb' = PanelLayout.insert_at (Z.to_nat index) (next_id nb) (widgets nb)
  ∧ widget_cells nb'
    = PanelLayout.insert_at (Z.to_nat index) (Some cell) (widget_cells nb).
Proof.
  intros [Hnd Hall] Hi nb'. subst nb'. unfold _insertCell. cbn [onCellInserted base].
  set (widget := match type cell with
                 | code => create code cell
                 | markdown => create markdown cell
                 | raw => create raw cell
                 end).
  assert (model widget = cell) as Hmodel by (subst widget; by destruct (type cell)).
  set (w := next_id nb).
  assert (w ∉ widgets nb) as Hfresh.
  { intros Hin. rewrite Forall_forall in Hall. destruct (Hall w Hin) as [Hlt _].
    subst w. lia. }
  set (nb2 := with_widgets _ _).
  destruct (updateCell_spec index nb2) as (Hw & Hn & Hm & Hst).
  assert (widgets nb2 = PanelLayout.insert_at (Z.to_nat index) w (widgets nb)) as Hw2.
  { subst nb2. cbn [widgets with_widgets with_next_id with_store].
    by apply insertWidget_fresh. }
  split_and!.
  - split.
    + rewrite Hw, Hw2, insert_at_Permutation. by apply NoDup_cons.
    + rewrite Hw, Hw2, insert_at_Permutation, Hn. apply Forall_cons. split.
      * split; [subst nb2 w; cbn; lia|].
        apply fmap_is_Some with (f := model). rewrite Hst.
        subst nb2. cbn [store with_widgets with_next_id with_store].
        by rewrite lookup_insert_eq.
      * eapply Forall_impl; [exact Hall|]. intros y [Hlt Hy]. split.
        { subst nb2. cbn. lia. }
        apply fmap_is_Some with (f := model). rewrite Hst.
        subst nb2. cbn [store with_widgets with_next_id with_store].
        rewrite lookup_insert_ne by (subst w; lia). by apply fmap_is_Some.
  - by rewrite Hm.
  - by rewrite Hw.
  - unfold widget_cells. rewrite Hw, Hw2, insert_at_fmap. f_equal.
    + rewrite Hst. subst nb2. cbn [store with_widgets with_next_id with_store].
      by rewrite lookup_insert_eq, <- Hmodel.
    + apply Forall_fmap_ext, Forall_forall. intros y Hy. rewrite Hst.
      subst nb2. cbn [store with_widgets with_next_id with_store].
      rewrite lookup_insert_ne; [done|]. intros <-. by apply Hfresh.
Qed.

Lemma removeCell_base (index : Z) (nb : t) :
  well_formed nb → 0 ≤ index < childCount nb →
  ∃ nb', _removeCell base index nb = Some nb'
    ∧ well_formed nb'
    ∧ _model nb' = _model nb
    ∧ widgets nb' = delete (Z.to_nat index) (widgets nb)
    ∧ widget_cells nb' = delete (Z.to_nat index) (widget_cells nb).
Proof.
  intros [Hnd Hall] Hi. unfold _removeCell, childCount, Vector.length in *.
  unfold Vector.at_. rewrite bool_decide_eq_false_2 by lia.
  destruct (widgets nb !! Z.to_nat index) as [w|] eqn:Hw;
    [|apply lookup_ge_None in Hw; lia].
  cbn [mbind option_bind onCellRemoved base]. eexists. split; [reflexivity|].
  cbn [widgets store next_id _model with_store with_widgets].
  rewrite (removeWidget_lookup (Z.to_nat index) w) by done.
  assert (∀ y, model <$> alter dispose w (store nb) !! y = model <$> store nb !! y) as Hst.
  { intros y. rewrite lookup_alter. case_decide; [|done].
    subst. by destruct (store nb !! y). }
  split_and!; try done.
  - split; cbn [widgets store next_id with_store with_widgets].
    + eapply sublist_NoDup; [exact Hnd|apply sublist_delete].
    + apply Forall_delete. eapply Forall_impl; [exact Hall|].
      intros y [Hlt Hy]. split; [done|].
      apply fmap_is_Some with (f := model). rewrite Hst. by apply fmap_is_Some.
  - unfold widget_cells. cbn [widgets store with_store with_widgets].
    rewrite <- delete_fmap. apply Forall_fmap_ext, Forall_forall. intros y _. apply Hst.
Qed.

(** *** The loops of a replace event *)

Lemma take_drop_delete {A} (i k : nat) (l : list A) :
  (i < List.length l)%nat →
  take i (delete i l) ++ drop (i + k) (delete i l) = take i l ++ drop (i + S k) l.
Proof.
  intros Hi. rewrite delete_take_drop.
  rewrite take_app_le by (rewrite length_take; lia).
  rewrite take_take, Nat.min_id.
  rewrite drop_app_ge by (rewrite length_take; lia).
  rewrite length_take, drop_drop. do 2 f_equal. lia.
Qed.

Lemma widget_cells_length (nb : t) :
  List.length (widget_cells nb) = List.length (widgets nb).
Proof. unfold widget_cells. by rewrite length_fmap. Qed.

Lemma removeCells_base (count : nat) : ∀ (index : Z) (nb : t),
  well_formed nb → 0 ≤ index → index + Z.of_nat count ≤ childCount nb →
  ∃ nb', removeCells base count index nb = Some nb'
    ∧ well_formed nb'
    ∧ _model nb' = _model nb
    ∧ childCount nb' = childCount nb - Z.of_nat count
    ∧ widget_cells nb'
      = take (Z.to_nat index) (widget_cells nb)
        ++ drop (Z.to_nat index + count) (widget_cells nb).
Proof.
  induction count as [|k IH]; intros index nb Hwf H0 Hle.
  - exists nb. cbn [removeCells]. split_and!; try done; [lia|].
    by rewrite Nat.add_0_r, take_drop.
  - destruct (removeCell_base index nb Hwf) as (nb1 & Hr & Hwf1 & Hm1 & Hw1 & Hc1); [lia|].
    assert (childCount nb1 = childCount nb - 1) as Hcount.
    { unfold childCount, Vector.length in *. rewrite Hw1, length_delete; [lia|].
      apply lookup_lt_is_Some_2. lia. }
    destruct (IH index nb1 Hwf1 H0) as (nb' & Hr' & Hwf' & Hm' & Hn' & Hc'); [lia|].
    exists nb'. cbn [removeCells]. rewrite Hr. cbn [mbind option_bind].
    split_and!; try done; [congruence|lia|].
    rewrite Hc', Hc1. apply take_drop_delete.
    rewrite widget_cells_length. unfold childCount, Vector.length in Hle. lia.
Qed.

Lemma insertCells_rev_base (rs : list ICellModel) : ∀ (index : Z) (nb : t),
  well_formed nb → 0 ≤ index ≤ childCount nb →
  let nb' := foldl (λ nb cell, _insertCell base index cell nb) nb rs in
  well_formed nb'
  ∧ _model nb' = _model nb
  ∧ widget_cells nb'
    = take (Z.to_nat index) (widget_cells nb) ++ (Some <$> reverse rs)
      ++ drop (Z.to_nat index) (widget_cells nb).
Proof.
  induction rs as [|r rs IH]; intros index nb Hwf Hi; cbn [foldl].
  - split_and!; try done. change (Some <$> reverse []) with (@nil (option ICellModel)).
    cbn [app]. by rewrite take_drop.
  - destruct (insertCell_base index r nb Hwf Hi) as (Hwf1 & Hm1 & Hw1 & Hc1).
    set (nb1 := _insertCell base index r nb) in *.
    assert (Z.to_nat index ≤ List.length (widget_cells nb))%nat as Hlen.
    { rewrite widget_cells_length. unfold childCount, Vector.length in Hi. lia. }
    destruct (IH index nb1 Hwf1) as (Hwf' & Hm' & Hc').
    { unfold childCount, Vector.length in *. rewrite Hw1.
      unfold PanelLayout.insert_at. rewrite length_app, length_take. simpl.
      rewrite length_drop. lia. }
    split_and!; try done; [congruence|].
    rewrite Hc', Hc1. unfold PanelLayout.insert_at.
    rewrite take_app_le by (rewrite length_take; lia).
    rewrite take_take, Nat.min_id.
    rewrite drop_app_ge by (rewrite length_take; lia).
    rewrite length_take, Nat.min_l, Nat.sub_diag by lia. cbn [drop].
    rewrite reverse_cons, fmap_app, <- !app_assoc. reflexivity.
Qed.

(** *** Events other than moves keep the widgets in the order of the model *)

Lemma at_Some_range {A} (l : list A) (i : Z) (x : A) :
  Vector.at_ l i = Some x → 0 ≤ i < Vector.length l.
Proof.
  unfold Vector.at_, Vector.length. case_bool_decide; [done|].
  intros Hl%lookup_lt_Some. lia.
Qed.

(** On a notebook whose widgets render the cells of its model in order,
    a valid add, remove, replace or set event is handled without error
    and leaves the widgets rendering the changed cell list in order. *)
Theorem deliver_keeps_order (args : IListChangedArgs) (nb : t) (m : INotebookModel) :
  well_formed nb → _model nb = Some m → widget_cells nb = Some <$> cells m →
  ObservableList.valid args (cells m) → is_move args = false →
  ∃ nb', deliver base args nb = Some nb'
    ∧ well_formed nb'
    ∧ _model nb' = Some (with_cells (ObservableList.apply args (cells m)) m)
    ∧ widget_cells nb' = Some <$> ObservableList.apply args (cells m).
Proof.
  intros Hwf Hm Hsync Hvalid Hmove. unfold deliver. rewrite Hm.
  set (m' := with_cells _ m). set (nb0 := with_model (Some m') nb).
  assert (well_formed nb0) as Hwf0 by exact Hwf.
  assert (widget_cells nb0 = Some <$> cells m) as Hsync0 by exact Hsync.
  assert (_model nb0 = Some m') as Hm0 by reflexivity.
  assert (childCount nb0 = Vector.length (cells m)) as Hcount.
  { unfold childCount, Vector.length. f_equal.
    rewrite <- (widget_cells_length nb0), Hsync0. by rewrite length_fmap. }
  destruct args as [i c|o n v|i v|o n ovs nvs|o n ov nv]; [|done|..];
    cbn [_onCellsChanged ObservableList.valid ObservableList.apply] in *.
  - destruct (insertCell_base i c nb0 Hwf0) as (Hwf' & Hm' & _ & Hc'); [lia|].
    eexists. split; [reflexivity|]. split_and!; try done.
    by rewrite Hc', Hsync0, insert_at_fmap.
  - apply at_Some_range in Hvalid.
    destruct (removeCell_base i nb0 Hwf0) as (nb' & Hr & Hwf' & Hm' & _ & Hc'); [lia|].
    exists nb'. split_and!; try done. by rewrite Hc', Hsync0, delete_fmap.
  - destruct Hvalid as (Ho & -> & Hold).
    assert (List.length ovs ≤ List.length (cells m) - Z.to_nat o)%nat as Hk.
    { rewrite <- Hold, length_take, length_drop. lia. }
    destruct (removeCells_base (List.length ovs) o nb0 Hwf0) as (nb1 & Hr & Hwf1 & Hm1 & Hn1 & Hc1);
      [lia| unfold Vector.length in *; lia |].
    rewrite Hr. cbn [mbind option_bind]. eexists. split; [reflexivity|].
    destruct (insertCells_rev_base (reverse nvs) o nb1 Hwf1) as (Hwf' & Hm' & Hc').
    { unfold Vector.length in *. lia. }
    unfold insertCells. split_and!; try done; [by rewrite Hm', Hm1|].
    rewrite Hc', reverse_involutive, Hc1, Hsync0.
    assert (Z.to_nat o ≤ List.length (Some <$> cells m))%nat as Hlen.
    { rewrite length_fmap. unfold Vector.length in Ho. lia. }
    rewrite take_app_le by (rewrite length_take; lia).
    rewrite take_take, Nat.min_id.
    rewrite drop_app_ge by (rewrite length_take; lia).
    rewrite length_take, Nat.min_l, Nat.sub_diag by lia. cbn [drop].
    by rewrite !fmap_app, fmap_take, fmap_drop.
  - destruct Hvalid as (-> & Hat). apply at_Some_range in Hat.
    destruct (removeCell_base o nb0 Hwf0) as (nb1 & Hr & Hwf1 & Hm1 & Hw1 & Hc1); [lia|].
    rewrite Hr. cbn [mbind option_bind]. eexists. split; [reflexivity|].
    destruct (insertCell_base o nv nb1 Hwf1) as (Hwf' & Hm' & _ & Hc').
    { unfold childCount, Vector.length in *. rewrite Hw1, length_delete; [lia|].
      apply lookup_lt_is_Some_2. lia. }
    split_and!; try done; [by rewrite Hm', Hm1|].
    rewrite Hc', Hc1, Hsync0, insert_at_delete.
    + by rewrite list_fmap_insert.
    + rewrite length_fmap. unfold Vector.length in Hat. lia.
Qed.

(** *** Moves *)

Lemma move_fmap {A B} (f : A → B) (i j : nat) (l : list A) :
  f <$> PanelLayout.move i j l = PanelLayout.move i j (f <$> l).
Proof.
  unfold PanelLayout.move. rewrite list_lookup_fmap.
  destruct (l !! i); simpl; [|done]. by rewrite insert_at_fmap, delete_fmap.
Qed.

Lemma move_cons {A} (i j : nat) (x : A) (l : list A) :
  PanelLayout.move (S i) (S j) (x :: l) = x :: PanelLayout.move i j l.
Proof. unfold PanelLayout.move. simpl. by destruct (l !! i). Qed.

(** Over one position, moving forth and moving back give the same list. *)
Lemma move_adjacent {A} (o : nat) (l : list A) :
  (S o < List.length l)%nat → PanelLayout.move (S o) o l = PanelLayout.move o (S o) l.
Proof.
  revert o. induction l as [|x l IH]; intros o Hlen; [simpl in Hlen; lia|].
  destruct o as [|o].
  - destruct l as [|y l]; [simpl in Hlen; lia|]. reflexivity.
  - rewrite !move_cons. f_equal. apply IH. simpl in Hlen. lia.
Qed.

Lemma move_same {A} (o : nat) (l : list A) : PanelLayout.move o o l = l.
Proof.
  unfold PanelLayout.move. destruct (l !! o) as [x|] eqn:Hx; [|done].
  rewrite insert_at_delete by (by eapply lookup_lt_Some). by apply list_insert_id.
Qed.

(** A move over at most one position keeps the widgets in the order of
    the model: the swapped arguments then describe the same exchange. *)
Theorem deliver_adjacent_move_keeps_order (o n : Z) (v : ICellModel)
    (nb : t) (m : INotebookModel) :
  well_formed nb → _model nb = Some m → widget_cells nb = Some <$> cells m →
  ObservableList.valid (Move o n v) (cells m) → -1 ≤ n - o ≤ 1 →
  ∃ nb', deliver base (Move o n v) nb = Some nb'
    ∧ well_formed nb'
    ∧ widget_cells nb' = Some <$> ObservableList.apply (Move o n v) (cells m).
Proof.
  intros [Hnd Hall] Hm Hsync [Hn Ho%at_Some_range] Hadj.
  assert (List.length (widgets nb) = List.length (cells m)) as Hlen.
  { by rewrite <- widget_cells_length, Hsync, length_fmap. }
  unfold Vector.length in *.
  unfold deliver. rewrite Hm. cbn [_onCellsChanged ObservableList.apply].
  unfold _moveCell. cbn [widgets with_model]. unfold Vector.at_.
  rewrite bool_decide_eq_false_2 by lia.
  destruct (widgets nb !! Z.to_nat n) as [w|] eqn:Hw;
    [|apply lookup_ge_None in Hw; lia].
  cbn [mbind option_bind onCellMoved base]. eexists. split; [reflexivity|].
  assert (PanelLayout.insertWidget o w (widgets nb)
          = PanelLayout.move (Z.to_nat o) (Z.to_nat n) (widgets nb)) as Hins.
  { unfold PanelLayout.insertWidget, Vector.length.
    rewrite (indexOf_lookup _ (Z.to_nat n) w) by done.
    replace (Z.to_nat (Z.max 0 (Z.min o (Z.of_nat (List.length (widgets nb))))))
      with (Z.to_nat o) by lia.
    destruct (decide (Z.to_nat o = List.length (widgets nb))) as [Habs|_]; [lia|].
    destruct (decide (Z.to_nat n = Z.to_nat o)) as [Heq|Hne].
    - rewrite Heq. by rewrite move_same.
    - destruct (decide (n - o = 1)) as [H1|H1].
      + replace (Z.to_nat n) with (S (Z.to_nat o)) by lia. apply move_adjacent. lia.
      + replace (Z.to_nat o) with (S (Z.to_nat n)) by lia.
        symmetry. apply move_adjacent. lia. }
  cbn [widgets with_widgets]. rewrite Hins. split.
  - assert (PanelLayout.move (Z.to_nat o) (Z.to_nat n) (widgets nb) ≡ₚ widgets nb) as Hperm.
    { unfold PanelLayout.move.
      destruct (widgets nb !! Z.to_nat o) as [x|] eqn:Hx; [|done].
      rewrite insert_at_Permutation. symmetry. by apply delete_Permutation. }
    split; cbn [widgets with_widgets store next_id with_model]; by rewrite Hperm.
  - unfold widget_cells in *. cbn [widgets with_widgets store with_model].
    by rewrite move_fmap, Hsync, move_fmap.
Qed.

(** After every event of a valid run without moves, hence at the end of
    the run, the widgets render the cells of the model in model order. *)
Theorem deliver_all_keeps_order (events : list IListChangedArgs) : ∀ (nb : t) (m : INotebookModel),
  well_formed nb → _model nb = Some m → widget_cells nb = Some <$> cells m →
  valid_run events (cells m) →
  ∃ nb', deliver_all base events nb = Some nb' ∧ well_formed nb' ∧ in_sync nb'.
Proof.
  induction events as [|e rest IH]; intros nb m Hwf Hm Hsync Hrun.
  - exists nb. split; [done|]. split; [done|]. by exists m.
  - destruct Hrun as (Hv & Hmv & Hrest).
    destruct (deliver_keeps_order e nb m Hwf Hm Hsync Hv Hmv) as (nb1 & Hd & Hwf1 & Hm1 & Hs1).
    cbn [deliver_all]. rewrite Hd. cbn [mbind option_bind].
    by apply (IH nb1 (with_cells (ObservableList.apply e (cells m)) m)).
Qed.

Example deliver_all_run :
  ∃ nb nb', empty = Some nb
    ∧ deliver_all base
        [Add 0 cellA; Add 1 cellB; Set_ 1 1 cellB cellC;
         Replace 0 0 [cellA] [cellB; cellB]; Remove 2 cellC] nb = Some nb'
    ∧ in_sync nb'
    ∧ widget_cells nb' = [Some cellB; Some cellB].
Proof.
  exists (default new empty).
  destruct (deliver_all_keeps_order
              [Add 0 cellA; Add 1 cellB; Set_ 1 1 cellB cellC;
               Replace 0 0 [cellA] [cellB; cellB]; Remove 2 cellC]
              (default new empty) emptyModel) as (nb' & Hr & _ & Hs).
  - split; [apply NoDup_nil_2|apply Forall_nil_2].
  - reflexivity.
  - reflexivity.
  - vm_compute. split_and!; (done || discriminate).
  - exists nb'. split; [reflexivity|]. split; [exact Hr|]. split; [exact Hs|].
    set (run := deliver_all base _ _) in *.
    assert (run = Some (default new run)) as Hrun by (vm_compute; reflexivity).
    assert (nb' = default new run) as -> by congruence.
    vm_compute. reflexivity.
Qed.

(** *** Subclasses *)

Lemma same_layout_trans (a b c : t) : same_layout a b → same_layout b c → same_layout a c.
Proof. unfold same_layout. congruence. Qed.

Lemma same_layout_fields (a b : t) :
  same_layout a b →
  _model a = _model b ∧ _mimetype a = _mimetype b ∧ widgets a = widgets b
  ∧ store a = store b ∧ next_id a = next_id b.
Proof. unfold same_layout, layout_of. intros [= -> -> -> -> ->]. done. Qed.

Lemma same_layout_transfer (a b : t) :
  same_layout a b →
  (well_formed b → well_formed a) ∧ widget_cells a = widget_cells b
  ∧ _model a = _model b ∧ childCount a = childCount b.
Proof.
  intros (Hm & _ & Hw & Hs & Hn)%same_layout_fields.
  unfold well_formed, widget_cells, childCount. by rewrite Hm, Hw, Hs, Hn.
Qed.

Lemma updateCell_same_layout (i : Z) (a b : t) :
  same_layout a b → same_layout (_updateCell i a) (_updateCell i b).
Proof.
  intros (Hm & Hmt & Hw & Hs & Hn)%same_layout_fields. unfold _updateCell.
  rewrite Hw, Hs, Hmt. destruct (Vector.at_ (widgets b) i) as [w|]; [|by unfold same_layout, layout_of; rewrite Hm, Hmt, Hw, Hs, Hn].
  destruct (store b !! w) as [child|]; [|by unfold same_layout, layout_of; rewrite Hm, Hmt, Hw, Hs, Hn].
  case_decide; unfold same_layout, layout_of; cbn [_model _mimetype widgets store next_id with_store];
    by rewrite ?Hm, ?Hmt, ?Hw, ?Hs, ?Hn.
Qed.

Section Subclass.
Variable H : Hooks.
Hypothesis HH : layout_preserving H.

Lemma insertCell_same_layout (i : Z) (c : ICellModel) (a b : t) :
  same_layout a b → same_layout (_insertCell H i c a) (_insertCell base i c b).
Proof.
  intros (Hm & Hmt & Hw & Hs & Hn)%same_layout_fields.
  destruct HH as (_ & Hins & _). unfold _insertCell.
  eapply same_layout_trans; [apply Hins|]. cbn [onCellInserted base].
  apply updateCell_same_layout. unfold same_layout, layout_of.
  cbn [_model _mimetype widgets store next_id with_store with_widgets with_next_id].
  by rewrite Hm, Hmt, Hw, Hs, Hn.
Qed.

Lemma removeCell_same_layout (i : Z) (a b : t) :
  same_layout a b →
  option_Forall2 same_layout (_removeCell H i a) (_removeCell base i b).
Proof.
  intros (Hm & Hmt & Hw & Hs & Hn)%same_layout_fields.
  destruct HH as (_ & _ & _ & Hrem). unfold _removeCell. rewrite Hw.
  destruct (Vector.at_ (widgets b) i) as [w|]; cbn [mbind option_bind]; [|constructor].
  constructor. cbn [onCellRemoved base].
  match goal with |- context [onCellRemoved H w ?x] =>
    destruct (same_layout_fields _ _ (Hrem w x)) as (Hm' & Hmt' & Hw' & Hs' & Hn') end.
  unfold same_layout, layout_of.
  cbn [_model _mimetype widgets store next_id with_store with_widgets] in *.
  by rewrite Hm', Hmt', Hw', Hs', Hn', Hm, Hmt, Hs, Hn.
Qed.

Lemma moveCell_same_layout (f g : Z) (a b : t) :
  same_layout a b →
  option_Forall2 same_layout (_moveCell H f g a) (_moveCell base f g b).
Proof.
  intros (Hm & Hmt & Hw & Hs & Hn)%same_layout_fields.
  destruct HH as (_ & _ & Hmov & _). unfold _moveCell. rewrite Hw.
  destruct (Vector.at_ (widgets b) f) as [w|]; cbn [mbind option_bind]; [|constructor].
  constructor. cbn [onCellMoved base].
  eapply same_layout_trans; [apply Hmov|]. unfold same_layout, layout_of.
  cbn [_model _mimetype widgets store next_id with_widgets].
  by rewrite Hm, Hmt, Hs, Hn.
Qed.

Lemma removeCells_same_layout (k : nat) (i : Z) : ∀ a b,
  same_layout a b →
  option_Forall2 same_layout (removeCells H k i a) (removeCells base k i b).
Proof.
  induction k as [|k IH]; intros a b Hab; cbn [removeCells]; [by constructor|].
  destruct (removeCell_same_layout i a b Hab) as [a' b' Hab'|];
    cbn [mbind option_bind]; [by apply IH|constructor].
Qed.

Lemma insertCells_same_layout (i : Z) (vs : list ICellModel) : ∀ a b,
  same_layout a b → same_layout (insertCells H i vs a) (insertCells base i vs b).
Proof.
  unfold insertCells. induction (reverse vs) as [|v l IH]; intros a b Hab; cbn [foldl]; [done|].
  apply IH. by apply insertCell_same_layout.
Qed.

Lemma deliver_same_layout (args : IListChangedArgs) (a b : t) :
  same_layout a b →
  option_Forall2 same_layout (deliver H args a) (deliver base args b).
Proof.
  intros Hab. pose proof (same_layout_fields _ _ Hab) as (Hm & Hmt & Hw & Hs & Hn).
  unfold deliver. rewrite Hm. destruct (_model b) as [m|]; [|by constructor].
  set (m' := with_cells _ m).
  assert (same_layout (with_model (Some m') a) (with_model (Some m') b)) as Hab'.
  { unfold same_layout, layout_of. cbn [_model _mimetype widgets store next_id with_model].
    by rewrite Hmt, Hw, Hs, Hn. }
  destruct args as [i c|o n v|i v|o n ovs nvs|o n ov nv]; cbn [_onCellsChanged].
  - constructor. by apply insertCell_same_layout.
  - by apply moveCell_same_layout.
  - by apply removeCell_same_layout.
  - destruct (removeCells_same_layout (List.length ovs) o _ _ Hab') as [a' b' Hr|];
      cbn [mbind option_bind]; constructor. by apply insertCells_same_layout.
  - destruct (removeCell_same_layout n _ _ Hab') as [a' b' Hr|];
      cbn [mbind option_bind]; constructor. by apply insertCell_same_layout.
Qed.

End Subclass.

(** Whatever a subclass does in its overriding methods, as long as these
    leave the model, the layout and the widget objects alone, a run of
    events (moves and failing events included) does to them exactly what
    it does in the base class: both runs fail together or end with the
    same model, layout and widget objects. *)
Theorem subclass_deliver_all_same_layout (H : Hooks) (events : list IListChangedArgs) :
  layout_preserving H → ∀ (a b : t),
  same_layout a b →
  option_Forall2 same_layout (deliver_all H events a) (deliver_all base events b).
Proof.
  intros HH. induction events as [|e rest IH]; intros a b Hab; cbn [deliver_all].
  - by constructor.
  - destruct (deliver_same_layout H HH e a b Hab) as [a' b' Hab'|];
      cbn [mbind option_bind]; [by apply IH|constructor].
Qed.

(** *** Metadata changes *)

Lemma set_mimetype_twice (mt : string) (o : BaseCellWidget) :
  set_mimetype mt (set_mimetype mt o) = set_mimetype mt o.
Proof. by destruct o. Qed.

Lemma updateCells_prefix (nb : t) (k : nat) :
  (k ≤ List.length (widgets nb))%nat →
  let upd := λ o, if decide (cls o = code) then set_mimetype (_mimetype nb) o else o in
  let nb' := foldl (λ nb i, _updateCell (Z.of_nat i) nb) nb (seq 0 k) in
  layout_of nb' = (_model nb, _mimetype nb, widgets nb, store nb', next_id nb)
  ∧ _activeCellIndex nb' = _activeCellIndex nb ∧ _activeCell nb' = _activeCell nb
  ∧ _mode nb' = _mode nb ∧ _isActive nb' = _isActive nb ∧ trace nb' = trace nb
  ∧ (∀ w, w ∈ take k (widgets nb) → store nb' !! w = upd <$> store nb !! w)
  ∧ (∀ w, w ∉ take k (widgets nb) → store nb' !! w = store nb !! w).
Proof.
  intros Hk upd. induction k as [|k IH].
  - cbn [seq foldl]. split_and!; try done. intros w Hw. rewrite take_0 in Hw.
    by apply elem_of_nil in Hw.
  - rewrite seq_S, foldl_app. cbn [foldl Nat.add].
    destruct IH as (Hl & Hi & Hc & Hm & Ha & Ht & Hin & Hout); [lia|].
    set (nbk := foldl _ nb (seq 0 k)) in *.
    injection Hl as Hmod Hmt Hw Hnx.
    destruct (widgets nb !! k) as [wk|] eqn:Hwk; [|apply lookup_ge_None in Hwk; lia].
    rewrite (take_S_r _ _ wk) by done.
    unfold _updateCell, Vector.at_. rewrite bool_decide_eq_false_2 by lia.
    rewrite Nat2Z.id, Hw, Hwk.
    assert (∀ w, w ≠ wk → w ∈ take k (widgets nb) ++ [wk] ↔ w ∈ take k (widgets nb)) as Hmem.
    { intros w Hne. rewrite elem_of_app, list_elem_of_singleton. tauto. }
    assert (store nbk !! wk = upd <$> store nb !! wk ∨ store nbk !! wk = store nb !! wk) as Hk'.
    { destruct (decide (wk ∈ take k (widgets nb))); [left; by apply Hin|right; by apply Hout]. }
    destruct (store nbk !! wk) as [child|] eqn:Hchild.
    + assert (∃ o, store nb !! wk = Some o ∧ cls child = cls o
                   ∧ (cls o = code → set_mimetype (_mimetype nb) child = upd o)
                   ∧ (cls o ≠ code → child = upd o)) as (o & Ho & Hcls & Hcode & Hncode).
      { destruct Hk' as [Hk'|Hk']; destruct (store nb !! wk) as [o|] eqn:Ho; try done;
          injection Hk' as ->; exists o; subst upd; cbn beta.
        - case_decide as Hd; split_and!; try done;
            try (by destruct o); intros _; apply set_mimetype_twice.
        - split_and!; try done; intros Hd;
            [by rewrite decide_True|by rewrite decide_False]. }
      case_decide as Hd.
      * unfold layout_of. cbn [_model _mimetype widgets store next_id with_store
          _activeCellIndex _activeCell _mode _isActive trace].
        rewrite Hmod, Hmt, Hw, Hnx. split_and!; try done.
        -- intros w Hin'. destruct (decide (w = wk)) as [->|Hne].
           ++ rewrite lookup_insert_eq, Ho. simpl. f_equal. apply Hcode. congruence.
           ++ rewrite lookup_insert_ne by done. apply Hin. by apply Hmem.
        -- intros w Hnin'. destruct (decide (w = wk)) as [->|Hne].
           ++ exfalso. apply Hnin'. rewrite elem_of_app, list_elem_of_singleton. by right.
           ++ rewrite lookup_insert_ne by done. apply Hout. by rewrite <- Hmem.
      * unfold layout_of. rewrite Hmod, Hmt, Hw, Hnx. split_and!; try done.
        -- intros w Hin'. destruct (decide (w = wk)) as [->|Hne].
           ++ rewrite Hchild, Ho. simpl. f_equal. apply Hncode. congruence.
           ++ apply Hin. by apply Hmem.
        -- intros w Hnin'. destruct (decide (w = wk)) as [->|Hne].
           ++ exfalso. apply Hnin'. rewrite elem_of_app, list_elem_of_singleton. by right.
           ++ apply Hout. by rewrite <- Hmem.
    + assert (store nb !! wk = None) as Ho.
      { destruct Hk' as [Hk'|Hk']; [|done]. by destruct (store nb !! wk). }
      unfold layout_of. rewrite Hmod, Hmt, Hw, Hnx. split_and!; try done.
      * intros w Hin'. destruct (decide (w = wk)) as [->|Hne].
        -- by rewrite Hchild, Ho.
        -- apply Hin. by apply Hmem.
      * intros w Hnin'. destruct (decide (w = wk)) as [->|Hne].
        -- by rewrite Hchild, Ho.
        -- apply Hout. by rewrite <- Hmem.
Qed.

(** A metadata change under any other name than [language_info] changes
    nothing.  A change of [language_info] stores the mime type of the
    model and gives it to every code widget of the layout, whatever it
    had; no other field of a widget, no widget outside the layout and
    nothing else of the notebook changes. *)
Theorem onMetadataChanged_updates_code_cells (model : INotebookModel) (name : string) (nb : t) :
  let nb' := onMetadataChanged model name nb in
  (name ≠ "language_info" → nb' = nb)
  ∧ (name = "language_info" →
       _mimetype nb' = codeMimetype model
       ∧ widgets nb' = widgets nb ∧ _model nb' = _model nb ∧ next_id nb' = next_id nb
       ∧ _activeCell nb' = _activeCell nb ∧ _activeCellIndex nb' = _activeCellIndex nb
       ∧ _mode nb' = _mode nb ∧ trace nb' = trace nb
       ∧ (∀ w o, w ∈ widgets nb → store nb !! w = Some o →
            store nb' !! w
            = Some (if decide (cls o = code) then set_mimetype (codeMimetype model) o else o))
       ∧ (∀ w, w ∉ widgets nb → store nb' !! w = store nb !! w)).
Proof.
  intros nb'. subst nb'. unfold onMetadataChanged. split.
  - intros Hne. by rewrite decide_False.
  - intros ->. rewrite decide_True by done. unfold _updateCells.
    cbn [widgets with_mimetype].
    destruct (updateCells_prefix (with_mimetype (codeMimetype model) nb)
                (List.length (widgets nb)))
      as (Hl & Hi & Hc & Hm & _ & Ht & Hin & Hout); [done|].
    cbn [widgets with_mimetype _model _mimetype next_id store _activeCellIndex
         _activeCell _mode trace] in *.
    rewrite firstn_all in Hin, Hout. injection Hl as Hmod Hmt Hw Hnx.
    split_and!; try done.
    intros w o Hw' Ho. by rewrite (Hin w Hw'), Ho.
Qed.

Lemma onMetadataChanged_updates_code_cells_witness :
  let julia := {| model_id := 1; cells := []; readOnly := false;
                  codeMimetype := "text/x-julia" |} in
  ∃ nb, three = Some nb
    ∧ mimetype <$> store nb !! 0%nat = Some "text/x-python"
    ∧ onMetadataChanged julia "kernelspec" nb = nb
    ∧ mimetype <$> store (onMetadataChanged julia "language_info" nb) !! 0%nat
      = Some "text/x-julia".
Proof.
  intros julia. exists (default new three).
  assert (0%nat ∈ widgets (default new three)) as Hmem
    by (vm_compute; apply list_elem_of_here).
  assert (∃ o, store (default new three) !! 0%nat = Some o ∧ cls o = code) as (o & Ho & Hc)
    by (vm_compute; eexists; split; reflexivity).
  split; [vm_compute; reflexivity|]. split; [vm_compute; reflexivity|].
  generalize dependent (default new three). intros nb Hmem Ho.
  destruct (onMetadataChanged_updates_code_cells julia "kernelspec" nb) as [Hsame _].
  destruct (onMetadataChanged_updates_code_cells julia "language_info" nb) as [_ Hli].
  destruct (Hli eq_refl) as (_ & _ & _ & _ & _ & _ & _ & _ & Hin & _).
  split; [apply Hsame; discriminate|].
  rewrite (Hin _ o Hmem Ho), decide_True by done. by destruct o.
Defined.

(** *** Replacing the model *)

Lemma delete_0_drop {A} (l : list A) : delete 0%nat l = drop 1 l.
Proof. by destruct l. Qed.

(** The loop that removes the old widgets re-reads the length of the
    layout while its counter grows, so it stops half way. *)
Lemma removeAll_loop_base (fuel : nat) : ∀ (i : Z) (nb : t),
  well_formed nb → 0 ≤ i → (Z.to_nat (childCount nb - i) ≤ fuel)%nat →
  ∃ nb', removeAll_loop base fuel i nb = Some nb'
    ∧ well_formed nb'
    ∧ _model nb' = _model nb
    ∧ widgets nb' = drop (Z.to_nat ((childCount nb - i + 1) / 2)) (widgets nb)
    ∧ widget_cells nb' = drop (Z.to_nat ((childCount nb - i + 1) / 2)) (widget_cells nb).
Proof.
  induction fuel as [|fuel IH]; intros i nb Hwf Hi Hfuel; cbn [removeAll_loop].
  - exists nb. replace (Z.to_nat ((childCount nb - i + 1) / 2)) with 0%nat.
    + by rewrite !drop_0.
    + assert ((childCount nb - i + 1) / 2 < 1) by (apply Z.div_lt_upper_bound; lia). lia.
  - case_bool_decide as Hlt.
    + destruct (removeCell_base 0 nb Hwf) as (nb1 & Hr & Hwf1 & Hm1 & Hw1 & Hc1); [lia|].
      assert (childCount nb1 = childCount nb - 1) as Hcount.
      { unfold childCount, Vector.length in *. rewrite Hw1. change (Z.to_nat 0) with 0%nat.
        rewrite delete_0_drop, length_drop. lia. }
      destruct (IH (i + 1) nb1 Hwf1) as (nb' & Hr' & Hwf' & Hm' & Hw' & Hc'); [lia|lia|].
      rewrite Hr. cbn [mbind option_bind]. exists nb'.
      split; [done|]. split; [done|]. split; [congruence|].
      assert (Z.to_nat ((childCount nb - i + 1) / 2)
              = (1 + Z.to_nat ((childCount nb1 - (i + 1) + 1) / 2))%nat) as Hdiv.
      { rewrite Hcount.
        replace (childCount nb - i + 1) with ((childCount nb - 1 - (i + 1) + 1) + 1 * 2) by lia.
        rewrite Z.div_add by lia.
        assert (0 ≤ (childCount nb - 1 - (i + 1) + 1) / 2) by (apply Z.div_pos; lia). lia. }
      rewrite Hdiv, Hw', Hc', Hw1, Hc1. change (Z.to_nat 0) with 0%nat.
      rewrite !delete_0_drop, !drop_drop. done.
    + exists nb.
      replace (Z.to_nat ((childCount nb - i + 1) / 2)) with 0%nat.
      * by rewrite !drop_0.
      * assert ((childCount nb - i + 1) / 2 < 1) by (apply Z.div_lt_upper_bound; lia). lia.
Qed.

Lemma insertAll_loop_base (l : list ICellModel) : ∀ (i : Z) (nb : t),
  well_formed nb → 0 ≤ i ≤ childCount nb →
  let nb' := insertAll_loop base i l nb in
  well_formed nb'
  ∧ _model nb' = _model nb
  ∧ _mimetype nb' = _mimetype nb
  ∧ widget_cells nb'
    = take (Z.to_nat i) (widget_cells nb) ++ (Some <$> l)
      ++ drop (Z.to_nat i) (widget_cells nb).
Proof.
  induction l as [|c l IH]; intros i nb Hwf Hi; cbn [insertAll_loop].
  - split_and!; try done. cbn [fmap list_fmap app]. by rewrite take_drop.
  - destruct (insertCell_base i c nb Hwf Hi) as (Hwf1 & Hm1 & Hw1 & Hc1).
    set (nb1 := _insertCell base i c nb) in *.
    assert (_mimetype nb1 = _mimetype nb) as Hmt1.
    { subst nb1. unfold _insertCell, _updateCell. cbn [onCellInserted base].
      repeat case_match; reflexivity. }
    assert (Z.to_nat i ≤ List.length (widget_cells nb))%nat as Hlen.
    { rewrite widget_cells_length. unfold childCount, Vector.length in Hi. lia. }
    destruct (IH (i + 1) nb1 Hwf1) as (Hwf' & Hm' & Hmt' & Hc').
    { unfold childCount, Vector.length in *. rewrite Hw1.
      unfold PanelLayout.insert_at. rewrite length_app, length_take. simpl.
      rewrite length_drop. lia. }
    split_and!; try done; [congruence|congruence|].
    rewrite Hc', Hc1. unfold PanelLayout.insert_at.
    replace (Z.to_nat (i + 1)) with (S (Z.to_nat i)) by lia.
    rewrite (cons_middle (Some c)), !app_assoc.
    rewrite take_app_length' by (rewrite length_app, length_take; simpl; lia).
    rewrite drop_app_length' by (rewrite length_app, length_take; simpl; lia).
    by rewrite <- !app_assoc.
Qed.

Section SubclassModel.
Variable H : Hooks.
Hypothesis HH : layout_preserving H.

Lemma removeAll_loop_same_layout (fuel : nat) : ∀ (i : Z) (a b : t),
  same_layout a b →
  option_Forall2 same_layout (removeAll_loop H fuel i a) (removeAll_loop base fuel i b).
Proof.
  induction fuel as [|fuel IH]; intros i a b Hab; cbn [removeAll_loop]; [by constructor|].
  destruct (same_layout_transfer a b Hab) as (_ & _ & _ & ->).
  case_bool_decide; [|by constructor].
  destruct (removeCell_same_layout H HH 0 a b Hab) as [a' b' Hab'|];
    cbn [mbind option_bind]; [by apply IH|constructor].
Qed.

Lemma insertAll_loop_same_layout (l : list ICellModel) : ∀ (i : Z) (a b : t),
  same_layout a b → same_layout (insertAll_loop H i l a) (insertAll_loop base i l b).
Proof.
  induction l as [|c l IH]; intros i a b Hab; cbn [insertAll_loop]; [done|].
  apply IH. by apply insertCell_same_layout.
Qed.

Lemma set_model_same_layout (v : option INotebookModel) (a b : t) :
  same_layout a b →
  option_Forall2 same_layout (set_model H v a) (set_model base v b).
Proof.
  intros Hab. pose proof (same_layout_fields _ _ Hab) as (Hm & Hmt & Hw & Hs & Hn).
  destruct HH as (Hmod & _). unfold set_model. rewrite Hm.
  case_decide; [by constructor|]. unfold _onModelChanged.
  assert (same_layout (with_model v a) (with_model v b)) as Hab'.
  { unfold same_layout, layout_of. cbn [_model _mimetype widgets store next_id with_model].
    by rewrite Hmt, Hw, Hs, Hn. }
  cbn [widgets with_model]. rewrite Hw.
  assert (option_Forall2 same_layout
            (match _model b with
             | Some _ => removeAll_loop H (List.length (widgets b)) 0 (with_model v a)
             | None => Some (with_model v a)
             end)
            (match _model b with
             | Some _ => removeAll_loop base (List.length (widgets b)) 0 (with_model v b)
             | None => Some (with_model v b)
             end)) as Hrem.
  { destruct (_model b); [by apply removeAll_loop_same_layout|by constructor]. }
  destruct Hrem as [a1 b1 Hab1|]; cbn [mbind option_bind]; [|constructor].
  pose proof (same_layout_fields _ _ Hab1) as (Hm1 & Hmt1 & Hw1 & Hs1 & Hn1).
  destruct v as [m|]; cbn [mbind option_bind]; constructor; cbn [onModelChanged base].
  - eapply same_layout_trans; [|apply insertAll_loop_same_layout].
    + unfold same_layout, layout_of. cbn [_model _mimetype widgets store next_id emit].
      apply (Hmod (_model b) (Some m)).
    + unfold same_layout, layout_of.
      cbn [_model _mimetype widgets store next_id with_mimetype].
      by rewrite Hm1, Hw1, Hs1, Hn1.
  - eapply same_layout_trans.
    + unfold same_layout, layout_of. cbn [_model _mimetype widgets store next_id emit].
      apply (Hmod (_model b) None).
    + unfold same_layout, layout_of.
      cbn [_model _mimetype widgets store next_id with_mimetype emit].
      by rewrite Hm1, Hw1, Hs1, Hn1.
Qed.

End SubclassModel.

Lemma set_model_base (m : INotebookModel) (nb : t) :
  well_formed nb → model_id <$> _model nb ≠ Some (model_id m) →
  ∃ nbb, set_model base (Some m) nb = Some nbb
    ∧ well_formed nbb ∧ _model nbb = Some m ∧ _mimetype nbb = codeMimetype m
    ∧ widget_cells nbb
      = (Some <$> cells m)
        ++ drop (match _model nb with
                 | Some _ => Z.to_nat ((childCount nb + 1) / 2)
                 | None => 0%nat
                 end) (widget_cells nb).
Proof.
  intros Hwf Hid.
  unfold set_model. rewrite decide_False by done. unfold _onModelChanged.
  assert (∃ nb1,
            match _model nb with
            | Some _ => removeAll_loop base (List.length (widgets (with_model (Some m) nb)))
                          0 (with_model (Some m) nb)
            | None => Some (with_model (Some m) nb)
            end = Some nb1
            ∧ well_formed nb1 ∧ _model nb1 = Some m
            ∧ widget_cells nb1
              = drop (match _model nb with
                      | Some _ => Z.to_nat ((childCount nb + 1) / 2)
                      | None => 0%nat
                      end) (widget_cells nb)) as (nb1 & -> & Hwf1 & Hm1 & Hc1).
  { destruct (_model nb) as [old|].
    - destruct (removeAll_loop_base (List.length (widgets nb)) 0 (with_model (Some m) nb))
        as (nb1 & Hr & Hwf1 & Hm1 & _ & Hc1); [done|done| |].
      { unfold childCount, Vector.length. cbn [widgets with_model]. lia. }
      exists nb1. split; [exact Hr|]. split; [done|]. split; [done|].
      rewrite Hc1. unfold childCount. cbn [widgets with_model].
      by rewrite Z.sub_0_r.
    - exists (with_model (Some m) nb). by rewrite drop_0. }
  cbn [mbind option_bind onModelChanged base].
  destruct (insertAll_loop_base (cells m) 0 (with_mimetype (codeMimetype m) nb1))
    as (Hwf2 & Hm2 & Hmt2 & Hc2); [done| |].
  { unfold childCount, Vector.length. cbn [widgets with_mimetype]. lia. }
  eexists. split; [reflexivity|]. split; [exact Hwf2|]. split; [by rewrite <- Hm1|].
  split; [exact Hmt2|].
  change (widget_cells (emit modelChanged ?x)) with (widget_cells x).
  rewrite Hc2. change (Z.to_nat 0) with 0%nat. rewrite take_0, drop_0. cbn [app].
  by rewrite <- Hc1.
Qed.

(** Giving a notebook (of the base class or of a subclass whose hooks
    leave the layout alone) another model succeeds and builds one widget
    per cell of the new model, in model order, at the front of the
    layout.  When there was no model, the widgets that were there stay
    behind them; when there was one, the removal loop stops half way and
    the last [k / 2] (rounded down) of the [k] old widgets stay. *)
Theorem set_model_builds_widgets (H : Hooks) (m : INotebookModel) (nb : t) :
  layout_preserving H → well_formed nb →
  model_id <$> _model nb ≠ Some (model_id m) →
  ∃ nb', set_model H (Some m) nb = Some nb'
    ∧ well_formed nb'
    ∧ _model nb' = Some m
    ∧ _mimetype nb' = codeMimetype m
    ∧ widget_cells nb'
      = (Some <$> cells m)
        ++ drop (match _model nb with
                 | Some _ => Z.to_nat ((childCount nb + 1) / 2)
                 | None => 0%nat
                 end) (widget_cells nb)
    ∧ (widgets nb = [] → in_sync nb').
Proof.
  intros HH Hwf Hid.
  destruct (set_model_base m nb Hwf Hid) as (nbb & Hb & Hwfb & Hmb & Hmtb & Hcb).
  pose proof (set_model_same_layout H HH (Some m) nb nb eq_refl) as Hrel.
  rewrite Hb in Hrel. inversion Hrel as [nb' nbb' Hsame Heq1 Heq2|]; subst.
  destruct (same_layout_transfer nb' nbb Hsame) as (Hwf' & Hc' & Hm' & _).
  pose proof (same_layout_fields _ _ Hsame) as (_ & Hmt' & _).
  exists nb'. split; [done|]. split; [by apply Hwf'|]. split; [congruence|].
  split; [congruence|]. split; [congruence|].
  intros Hnil. exists m. split; [congruence|]. rewrite Hc', Hcb.
  unfold widget_cells. rewrite Hnil. cbn [fmap list_fmap]. by rewrite drop_nil, app_nil_r.
Qed.

Lemma set_model_builds_widgets_witness :
  let m := with_cells [cellC; cellA] emptyModel in
  let m2 := {| model_id := 2; cells := [cellB]; readOnly := false; codeMimetype := "text/x-r" |} in
  ∃ nb nb', set_model base (Some m) new = Some nb ∧ in_sync nb
    ∧ set_model base (Some m2) nb = Some nb'
    ∧ widget_cells nb' = [Some cellB; Some cellA].
Proof.
  cbv zeta.
  destruct (set_model_builds_widgets base (with_cells [cellC; cellA] emptyModel) new)
    as (nb & Hr & Hwf & Hm & _ & Hc & Hs).
  { by split_and!. }
  { split; [apply NoDup_nil_2|apply Forall_nil_2]. }
  { discriminate. }
  destruct (set_model_builds_widgets base
              {| model_id := 2; cells := [cellB]; readOnly := false; codeMimetype := "text/x-r" |}
              nb) as (nb' & Hr' & _ & _ & _ & Hc' & _).
  { by split_and!. }
  { exact Hwf. }
  { rewrite Hm. discriminate. }
  exists nb, nb'. split; [exact Hr|]. split; [by apply Hs|]. split; [exact Hr'|].
  rewrite Hc', Hm, Hc.
  assert (childCount nb = 2) as ->.
  { unfold childCount, Vector.length. rewrite <- widget_cells_length, Hc. reflexivity. }
  reflexivity.
Defined.

(** *** A move between neighbours, run *)

Lemma deliver_adjacent_move_keeps_order_witness :
  ∃ nb nb', three = Some nb
    ∧ widget_cells nb = [Some cellA; Some cellB; Some cellC]
    ∧ deliver base (Move 0 1 cellA) nb = Some nb'
    ∧ widget_cells nb' = [Some cellB; Some cellA; Some cellC].
Proof.
  exists (default new three).
  destruct (deliver_adjacent_move_keeps_order 0 1 cellA (default new three)
              (with_cells [cellA; cellB; cellC] emptyModel))
    as (nb' & Hd & _ & Hs).
  - unfold well_formed. apply (bool_decide_unpack _). vm_compute. exact I.
  - vm_compute. reflexivity.
  - vm_compute. reflexivity.
  - vm_compute. split; [split; [discriminate|reflexivity]|reflexivity].
  - lia.
  - exists nb'. split; [vm_compute; reflexivity|]. split; [vm_compute; reflexivity|].
    split; [exact Hd|]. rewrite Hs. vm_compute. reflexivity.
Defined.

End StaticNotebookFacts.

Module NotebookFacts.
Import Cells NotebookState ObservableList Notebook Examples.

(** *** The [activeCellIndex] setter *)

(** The setter written out field by field. *)
Lemma set_activeCellIndex_unfold (v : Z) (nb : t) :
  set_activeCellIndex v nb =
  {| _model := _model nb; _mimetype := _mimetype nb; widgets := widgets nb;
     store := store nb; next_id := next_id nb;
     _activeCellIndex := resolve v nb;
     _activeCell := childAt (resolve v nb) nb;
     _mode := _mode nb; _isActive := _isActive nb;
     trace := trace nb ++ UpdateRequest ::
       (if decide (childAt (resolve v nb) nb ≠ _activeCell nb)
        then [activeCellChanged (childAt (resolve v nb) nb)] else [])
       ++ (if decide (resolve v nb = _activeCellIndex nb) then []
           else [stateChanged (ActiveCellIndexArgs (_activeCellIndex nb) (resolve v nb))]) |}.
Proof.
  destruct nb as [m mt ws st nx idx ac md act tr].
  unfold set_activeCellIndex, update, emit, with_activeCellIndex, with_activeCell,
    resolve, childAt. cbn [_model _mimetype widgets store next_id _activeCellIndex
    _activeCell _mode _isActive trace].
  repeat case_decide; cbn [_model _mimetype widgets store next_id _activeCellIndex
    _activeCell _mode _isActive trace]; f_equal;
    rewrite <- ?app_assoc; cbn [app]; try reflexivity; try congruence.
  all: destruct (decide _); congruence.
Qed.

Lemma emitted_app (nb nb' : t) (l : list Effect) :
  trace nb' = trace nb ++ l → emitted nb nb' = l.
Proof. intros Ht. unfold emitted. rewrite Ht. by rewrite drop_app_length. Qed.

Lemma resolve_clamped (v n : Z) (nb : t) :
  cellCount nb = Some n → 0 < n →
  resolve v nb = Z.min (Z.max v 0) (n - 1) ∧ 0 ≤ resolve v nb ≤ n - 1.
Proof.
  unfold cellCount, resolve. destruct (_model nb) as [m|]; [|done].
  simpl. intros [= <-] Hn. rewrite decide_False by lia. lia.
Qed.

Lemma resolve_none (v : Z) (nb : t) :
  cellCount nb = None ∨ cellCount nb = Some 0 → resolve v nb = -1.
Proof.
  unfold cellCount, resolve. destruct (_model nb) as [m|]; simpl.
  - intros [|[= H0]]; [done|]. by rewrite decide_True.
  - done.
Qed.

(** C7: setting [activeCellIndex] to [v] stores [v] clamped to
    [0, cellCount - 1] when the model has cells and [-1] when there is no
    model or the model is empty; [activeCellChanged] is emitted (once,
    with the resolved widget reference) exactly when that reference
    differs from the previous one, and [stateChanged] for
    [activeCellIndex] is emitted (once) exactly when the resolved index
    differs from the previous index. *)
Theorem set_activeCellIndex_clamps_and_notifies (nb : t) (v : Z) :
  let nb' := set_activeCellIndex v nb in
  let cell := childAt (_activeCellIndex nb') nb in
  (∀ n, cellCount nb = Some n → 0 < n →
     _activeCellIndex nb' = Z.min (Z.max v 0) (n - 1)
     ∧ 0 ≤ _activeCellIndex nb' ≤ n - 1)
  ∧ (cellCount nb = None ∨ cellCount nb = Some 0 → _activeCellIndex nb' = -1)
  ∧ _activeCell nb' = cell
  ∧ (∀ c, activeCellChanged c ∈ emitted nb nb' ↔ c = cell ∧ cell ≠ _activeCell nb)
  ∧ (∀ a, stateChanged a ∈ emitted nb nb' ↔
          a = ActiveCellIndexArgs (_activeCellIndex nb) (_activeCellIndex nb')
          ∧ _activeCellIndex nb' ≠ _activeCellIndex nb)
  ∧ emitted nb nb' =
      UpdateRequest ::
      (if decide (cell ≠ _activeCell nb) then [activeCellChanged cell] else [])
      ++ (if decide (_activeCellIndex nb' ≠ _activeCellIndex nb)
          then [stateChanged (ActiveCellIndexArgs (_activeCellIndex nb) (_activeCellIndex nb'))]
          else []).
Proof.
  intros nb' cell. subst nb' cell. rewrite set_activeCellIndex_unfold.
  cbn [_activeCellIndex _activeCell].
  match goal with |- context [emitted nb ?x] => set (nb' := x) end.
  assert (emitted nb nb' =
      UpdateRequest ::
      (if decide (childAt (resolve v nb) nb ≠ _activeCell nb)
       then [activeCellChanged (childAt (resolve v nb) nb)] else [])
      ++ (if decide (resolve v nb ≠ _activeCellIndex nb)
          then [stateChanged (ActiveCellIndexArgs (_activeCellIndex nb) (resolve v nb))]
          else [])) as Hem.
  { apply emitted_app. subst nb'. cbn [trace]. do 3 f_equal.
    repeat case_decide; try reflexivity; contradiction. }
  split; [intros n Hn Hpos; by apply resolve_clamped|].
  split; [apply resolve_none|].
  split; [reflexivity|].
  split; [|split; [|exact Hem]].
  - intros c. rewrite Hem.
    repeat case_decide; cbn [app]; rewrite ?elem_of_cons, ?elem_of_nil; naive_solver.
  - intros a. rewrite Hem.
    repeat case_decide; cbn [app]; rewrite ?elem_of_cons, ?elem_of_nil; naive_solver.
Qed.

Lemma set_activeCellIndex_clamps_and_notifies_witness :
  ∃ nb, two = Some nb
        ∧ _activeCellIndex (set_activeCellIndex 7 nb) = 1
        ∧ _activeCellIndex (set_activeCellIndex (-3) nb) = 0.
Proof.
  exists (default new two). split; [vm_compute; reflexivity|].
  destruct (set_activeCellIndex_clamps_and_notifies (default new two) 7)
    as (H7 & _).
  destruct (set_activeCellIndex_clamps_and_notifies (default new two) (-3))
    as (H3 & _).
  split.
  - apply (H7 2); [vm_compute; reflexivity | lia].
  - apply (H3 2); [vm_compute; reflexivity | lia].
Defined.

(** *** The [mode] setter *)

Lemma only_deselects_refl nb : only_deselects nb nb.
Proof.
  unfold only_deselects. split_and!; auto.
  exists []. split; [by rewrite app_nil_r|]. apply not_elem_of_nil.
Qed.

Lemma only_deselects_trans nb1 nb2 nb3 :
  only_deselects nb1 nb2 → only_deselects nb2 nb3 → only_deselects nb1 nb3.
Proof.
  intros (Hw & Hm & Ha & Hc & Hs & Hk & l & Ht & Hl)
         (Hw' & Hm' & Ha' & Hc' & Hs' & Hk' & l' & Ht' & Hl').
  unfold only_deselects. split_and!; try congruence; auto.
  exists (l ++ l'). split; [by rewrite Ht', Ht, app_assoc|].
  rewrite elem_of_app. tauto.
Qed.

Lemma get_selected_alter f a w nb :
  get_selected w (with_store (alter f a (store nb)) nb)
  = if decide (a = w) then
      match store nb !! w with Some o => selected (f o) | None => false end
    else get_selected w nb.
Proof.
  unfold get_selected. cbn [store with_store]. rewrite lookup_alter.
  case_decide; [subst; by destruct (store nb !! w)|done].
Qed.

Lemma isMarkdown_alter f a w nb :
  (∀ o, cls (f o) = cls o) →
  isMarkdown w (with_store (alter f a (store nb)) nb) = isMarkdown w nb.
Proof.
  intros Hf. unfold isMarkdown. cbn [store with_store]. rewrite lookup_alter.
  case_decide; [|done]. subst. destruct (store nb !! w); simpl; [by rewrite Hf|done].
Qed.

Lemma deselect_spec w nb :
  only_deselects nb (deselect w nb) ∧ get_selected w (deselect w nb) = false.
Proof.
  unfold deselect. destruct (get_selected w nb) eqn:Hsel; simpl.
  - split.
    + unfold only_deselects. split_and!; try reflexivity.
      * intros w' Hw'. unfold update, emit, get_selected. cbn [store].
        fold (get_selected w' (with_store (alter (set_selected false) w (store nb)) nb)).
        rewrite get_selected_alter. case_decide; [|done]. by destruct (store nb !! w').
      * intros a. unfold update, emit, isMarkdown. cbn [store].
        fold (isMarkdown a (with_store (alter (set_selected false) w (store nb)) nb)).
        by apply isMarkdown_alter.
      * exists [selectionChanged; UpdateRequest]. split.
        { unfold update, emit. cbn [trace with_store]. by rewrite <- app_assoc. }
        rewrite !elem_of_cons, elem_of_nil. intros [|[|[]]]; discriminate.
    + unfold update, emit, get_selected. cbn [store].
      fold (get_selected w (with_store (alter (set_selected false) w (store nb)) nb)).
      rewrite get_selected_alter, decide_True by done. by destruct (store nb !! w).
  - split; [apply only_deselects_refl|done].
Qed.

Lemma deselect_all_spec ws : ∀ nb,
  only_deselects nb (foldl (λ nb w, deselect w nb) nb ws)
  ∧ ∀ w, w ∈ ws → get_selected w (foldl (λ nb w, deselect w nb) nb ws) = false.
Proof.
  induction ws as [|w ws IH]; intros nb.
  - split; [apply only_deselects_refl|]. intros w Hw. by apply elem_of_nil in Hw.
  - cbn [foldl]. destruct (deselect_spec w nb) as [Hd Hw].
    destruct (IH (deselect w nb)) as [Hr Hall]. split.
    + by apply (only_deselects_trans _ (deselect w nb)).
    + intros w' [->|Hin]%elem_of_cons; [|by apply Hall].
      destruct Hr as (_ & _ & _ & _ & Hs & _). by apply Hs.
Qed.

Lemma set_mode_edit_unfold (nb : t) (a : nat) :
  _mode nb = command → _activeCell nb = Obj a →
  set_mode edit nb =
    let nb1 := emit (stateChanged (ModeArgs command edit)) (with_mode edit (update nb)) in
    let nb2 := foldl (λ nb w, deselect w nb) nb1 (widgets nb) in
    let nb3 := if isMarkdown a nb2
               then with_store (alter (set_rendered false) a (store nb2)) nb2
               else nb2 in
    if _isActive nb then nb3 else sendActivateRequest nb3.
Proof.
  intros Hm Ha. unfold set_mode.
  change (_mode (update nb)) with (_mode nb). rewrite Hm.
  rewrite decide_False by discriminate.
  change (_activeCell (emit _ (with_mode edit (update nb)))) with (_activeCell nb).
  rewrite Ha. cbv zeta.
  change (widgets (emit _ (with_mode edit (update nb)))) with (widgets nb).
  set (nb2 := foldl _ _ _).
  assert (_isActive nb2 = _isActive nb) as Hact.
  { destruct (deselect_all_spec (widgets nb)
      (emit (stateChanged (ModeArgs command edit)) (with_mode edit (update nb))))
      as [(_ & _ & Hact & _) _]. exact Hact. }
  destruct (isMarkdown a nb2); cbn [_isActive with_store]; by rewrite Hact.
Qed.

(** C8 (as the code has it): setting the mode to edit while the notebook
    is in command mode and has an active cell deselects every child
    widget, leaves the active cell unrendered when it is a markdown cell,
    and sends the activate request exactly when the notebook is not
    active. *)
Theorem set_mode_edit_from_command (nb : t) (a : nat) :
  _mode nb = command → _activeCell nb = Obj a →
  let nb' := set_mode edit nb in
  _mode nb' = edit
  ∧ widgets nb' = widgets nb
  ∧ (∀ w, w ∈ widgets nb' → get_selected w nb' = false)
  ∧ (isMarkdown a nb = true → rendered <$> store nb' !! a = Some false)
  ∧ (_isActive nb = false → ActivateRequest ∈ emitted nb nb' ∧ _isActive nb' = true)
  ∧ (_isActive nb = true → ActivateRequest ∉ emitted nb nb').
Proof.
  intros Hm Ha nb'. subst nb'. rewrite (set_mode_edit_unfold nb a Hm Ha). cbv zeta.
  set (nb1 := emit (stateChanged (ModeArgs command edit)) (with_mode edit (update nb))).
  destruct (deselect_all_spec (widgets nb) nb1)
    as [(Hw & Hmode & Hact & Hcell & Hsel & Hmd & l & Htr & Hl) Hall].
  set (nb2 := foldl _ nb1 (widgets nb)) in *.
  set (nb3 := if isMarkdown a nb2 then _ else nb2).
  assert (widgets nb3 = widgets nb ∧ _mode nb3 = edit ∧ trace nb3 = trace nb2
          ∧ (∀ w, get_selected w nb3 = get_selected w nb2)
          ∧ (isMarkdown a nb = true → rendered <$> store nb3 !! a = Some false))
    as (Hw3 & Hm3 & Ht3 & Hs3 & Hr3).
  { assert (isMarkdown a nb2 = isMarkdown a nb) as Hsame by apply Hmd.
    subst nb3. destruct (isMarkdown a nb2) eqn:Hmk.
    - split_and!; try done.
      + intros w. rewrite get_selected_alter. case_decide; [|done].
        subst. unfold get_selected. by destruct (store nb2 !! w).
      + intros _. cbn [store with_store]. rewrite lookup_alter, decide_True by done.
        unfold isMarkdown in Hmk. by destruct (store nb2 !! a).
    - split_and!; try done. intros Habs. congruence. }
  assert (trace nb3 = trace nb ++ [UpdateRequest; stateChanged (ModeArgs command edit)] ++ l)
    as Htr3.
  { rewrite Ht3, Htr. subst nb1. unfold update, emit. cbn [trace with_mode].
    by rewrite <- !app_assoc. }
  destruct (_isActive nb) eqn:Hactive.
  - split_and!; try done.
    + intros w Hin. rewrite Hs3. apply Hall. by rewrite <- Hw3.
    + intros _. rewrite (emitted_app nb nb3 _ Htr3).
      cbn [app]. rewrite !elem_of_cons. intros [|[|]]; [discriminate|discriminate|done].
  - unfold sendActivateRequest, onActivateRequest, update, emit.
    cbn [_mode widgets with_isActive store trace _isActive].
    split_and!; try done.
    + intros w Hin. unfold get_selected. cbn [store].
      fold (get_selected w nb3). rewrite Hs3. apply Hall. by rewrite <- Hw3.
    + intros _. split; [|done].
      unfold emitted. cbn [trace]. rewrite Htr3, <- !app_assoc, drop_app_length.
      cbn [app]. rewrite !elem_of_cons, !elem_of_app, !elem_of_cons. tauto.
Qed.

Lemma set_mode_edit_from_command_witness :
  let nb := select 0 (select 1 (set_activeCellIndex 1 (default new two))) in
  get_selected 0 nb = true ∧ get_selected 1 nb = true
  ∧ _mode (set_mode edit nb) = edit
  ∧ (∀ w, w ∈ widgets (set_mode edit nb) → get_selected w (set_mode edit nb) = false)
  ∧ rendered <$> store (set_mode edit nb) !! 1%nat = Some false.
Proof.
  pose proof (set_mode_edit_from_command
    (select 0 (select 1 (set_activeCellIndex 1 (default new two)))) 1
    ltac:(vm_compute; reflexivity) ltac:(vm_compute; reflexivity))
    as (Hm & _ & Hsel & Hr & _).
  split; [vm_compute; reflexivity|]. split; [vm_compute; reflexivity|].
  split; [exact Hm|]. split; [exact Hsel|].
  apply Hr. vm_compute. reflexivity.
Defined.

(** C8 as stated fails when the notebook is already in edit mode: the
    setter returns before the loop, and a widget selected meanwhile stays
    selected. *)
Lemma set_mode_edit_again_keeps_selection :
  let nb := select 0 (set_mode edit (default new two)) in
  two ≠ None
  ∧ _mode nb = edit
  ∧ 0%nat ∈ widgets (set_mode edit nb)
  ∧ get_selected 0 (set_mode edit nb) = true.
Proof.
  cbv zeta. split; [discriminate|]. split; [vm_compute; reflexivity|].
  split; [|vm_compute; reflexivity].
  replace (widgets _) with [0%nat; 1%nat] by (vm_compute; reflexivity).
  apply elem_of_cons. by left.
Qed.

(** The setter also returns before the loop when there is no active cell. *)
Example set_mode_edit_without_active_cell :
  let nb := default new (nb ← two; set_model None (select 1 nb)) in
  _mode nb = command ∧ _activeCell nb = Undefined ∧ widgets nb = [1%nat]
  ∧ get_selected 1 (set_mode edit nb) = true.
Proof. vm_compute. by split_and!. Qed.

(** *** Edge requests *)

Lemma get_after_set (v : Z) (nb : t) :
  get_activeCellIndex (set_activeCellIndex v nb) = resolve v nb.
Proof.
  rewrite set_activeCellIndex_unfold. unfold get_activeCellIndex, resolve.
  cbn [_model _activeCellIndex]. destruct (_model nb) as [m|]; [|done].
  by case_decide.
Qed.




(** The setter makes a notebook consistent once the layout has one live
    widget per cell. *)
Lemma set_activeCellIndex_consistent (v : Z) (nb : t) (m : INotebookModel) :
  _model nb = Some m →
  Forall (λ w, is_Some (store nb !! w)) (widgets nb) →
  List.length (widgets nb) = List.length (cells m) →
  consistent (set_activeCellIndex v nb).
Proof.
  intros Hm Hst Hlen. rewrite set_activeCellIndex_unfold. split.
  - cbn [widgets store]. by apply Forall_forall.
  - cbn [_model widgets _activeCellIndex]. intros m' Hm'.
    rewrite Hm in Hm'. injection Hm' as <-. split; [done|]. intros Hne.
    assert (0 < Vector.length (cells m)) as Hpos.
    { unfold Vector.length. destruct (cells m); [done|simpl; lia]. }
    destruct (resolve_clamped v (Vector.length (cells m)) nb) as [_ Hr]; [|done|lia].
    unfold cellCount. by rewrite Hm.
Qed.

Lemma two_consistent (v : Z) : consistent (set_activeCellIndex v (default new two)).
Proof.
  apply (set_activeCellIndex_consistent v _
           (with_cells [cellA; cellB] emptyModel)).
  - vm_compute. reflexivity.
  - apply (bool_decide_unpack _). vm_compute. exact I.
  - vm_compute. reflexivity.
Qed.



(** *** Self-assignment of the active cell index *)

Lemma resolve_idempotent (v : Z) (nb : t) : resolve (resolve v nb) nb = resolve v nb.
Proof.
  unfold resolve. destruct (_model nb) as [m|]; [|done].
  case_decide; [done|]. unfold Vector.length in *. lia.
Qed.

Lemma resolve_same_model (v : Z) (nb nb' : t) :
  _model nb' = _model nb → resolve v nb' = resolve v nb.
Proof. unfold resolve. by intros ->. Qed.

Lemma childAt_same_widgets (i : Z) (nb nb' : t) :
  widgets nb' = widgets nb → childAt i nb' = childAt i nb.
Proof. unfold childAt. by intros ->. Qed.

Lemma get_activeCellIndex_active_ok (nb : t) :
  active_ok nb → get_activeCellIndex nb = _activeCellIndex nb.
Proof.
  intros [Hi _]. unfold get_activeCellIndex. unfold resolve in Hi.
  destruct (_model nb) as [m|]; [|done]. by case_decide.
Qed.

(** The setter leaves the notebook with an index it resolves to itself
    and with the child at that index as active cell; on such a notebook
    the self-assignment [this.activeCellIndex = this.activeCellIndex]
    that the cell hooks perform only posts an update request, and so
    does setting the same value twice. *)
Theorem set_activeCellIndex_self_assignment (nb : t) (v : Z) :
  active_ok (set_activeCellIndex v nb)
  ∧ (active_ok nb → set_activeCellIndex (get_activeCellIndex nb) nb = update nb)
  ∧ set_activeCellIndex v (set_activeCellIndex v nb) = update (set_activeCellIndex v nb).
Proof.
  assert (∀ nb, active_ok nb →
            set_activeCellIndex (_activeCellIndex nb) nb = update nb) as Hself.
  { intros nb0 [Hi Hc]. rewrite set_activeCellIndex_unfold. rewrite <- Hi, <- Hc.
    rewrite decide_False by auto. rewrite decide_True by done.
    unfold update, emit. by destruct nb0. }
  assert (active_ok (set_activeCellIndex v nb)) as Hok.
  { rewrite set_activeCellIndex_unfold. split; cbn [_activeCellIndex _activeCell].
    - match goal with |- _ = resolve _ ?x =>
        rewrite (resolve_same_model (resolve v nb) nb x eq_refl) end.
      by rewrite resolve_idempotent.
    - by apply childAt_same_widgets. }
  split; [exact Hok|]. split.
  - intros Hnb. rewrite get_activeCellIndex_active_ok by done. by apply Hself.
  - destruct Hok as [Hi Hc]. rewrite set_activeCellIndex_unfold.
    assert (resolve v (set_activeCellIndex v nb) = _activeCellIndex (set_activeCellIndex v nb))
      as Hres.
    { rewrite (set_activeCellIndex_unfold v nb) at 2. cbn [_activeCellIndex].
      apply resolve_same_model. by rewrite set_activeCellIndex_unfold. }
    rewrite Hres, <- Hc. rewrite decide_False by auto. rewrite decide_True by done.
    unfold update, emit. by destruct (set_activeCellIndex v nb).
Qed.

Lemma set_activeCellIndex_self_assignment_witness :
  set_activeCellIndex (get_activeCellIndex (set_activeCellIndex 5 (default new two)))
    (set_activeCellIndex 5 (default new two))
  = update (set_activeCellIndex 5 (default new two)).
Proof.
  destruct (set_activeCellIndex_self_assignment (default new two) 5) as (Hok & _).
  destruct (set_activeCellIndex_self_assignment (set_activeCellIndex 5 (default new two)) 0)
    as (_ & Hself & _).
  exact (Hself Hok).
Defined.

(** *** Selection *)

Lemma set_selected_twice (b b' : bool) (o : BaseCellWidget) :
  set_selected b (set_selected b' o) = set_selected b o.
Proof. by destruct o. Qed.

Lemma set_selected_same (o : BaseCellWidget) : set_selected (selected o) o = o.
Proof. by destruct o. Qed.

(** Selecting a widget that is already selected, or deselecting one that
    is not, changes nothing and emits nothing; otherwise the flag of that
    widget alone flips and exactly one [selectionChanged] is emitted,
    followed by an update request; and deselecting right after
    selecting gives back the widget objects as they were. *)
Theorem select_deselect (nb : t) (w : nat) :
  is_Some (store nb !! w) →
  get_selected w (select w nb) = true
  ∧ get_selected w (deselect w nb) = false
  ∧ (get_selected w nb = true → select w nb = nb)
  ∧ (get_selected w nb = false → deselect w nb = nb)
  ∧ (get_selected w nb = false →
       emitted nb (select w nb) = [selectionChanged; UpdateRequest]
       ∧ store (deselect w (select w nb)) = store nb)
  ∧ (get_selected w nb = true →
       emitted nb (deselect w nb) = [selectionChanged; UpdateRequest]
       ∧ store (select w (deselect w nb)) = store nb)
  ∧ (∀ w', w' ≠ w →
       get_selected w' (select w nb) = get_selected w' nb
       ∧ get_selected w' (deselect w nb) = get_selected w' nb)
  ∧ widgets (select w nb) = widgets nb ∧ widgets (deselect w nb) = widgets nb.
Proof.
  intros [o Ho].
  assert (∀ b, get_selected w (update (emit selectionChanged
            (with_store (alter (set_selected b) w (store nb)) nb))) = b) as Hflip.
  { intros b. unfold update, emit, get_selected. cbn [store with_store].
    by rewrite lookup_alter, decide_True, Ho by done. }
  assert (∀ b, emitted nb (update (emit selectionChanged
            (with_store (alter (set_selected b) w (store nb)) nb)))
          = [selectionChanged; UpdateRequest]) as Hem.
  { intros b. apply emitted_app. unfold update, emit. cbn [trace with_store].
    by rewrite <- app_assoc. }
  assert (∀ b b', alter (set_selected b') w (alter (set_selected b) w (store nb))
                  = alter (set_selected b') w (store nb)) as Hback.
  { intros b b'. rewrite alter_alter_eq. apply alter_ext. intros x _. simpl.
    apply set_selected_twice. }
  assert (∀ b, selected o = b → alter (set_selected b) w (store nb) = store nb) as Hid.
  { intros b <-. apply map_eq. intros i. rewrite lookup_alter. case_decide; [|done].
    subst. rewrite Ho. simpl. by rewrite set_selected_same. }
  assert (get_selected w nb = selected o) as Hsel.
  { unfold get_selected. by rewrite Ho. }
  unfold select, deselect. rewrite Hsel.
  destruct (selected o) eqn:Hso; cbn [negb].
  - split_and!; try done.
    + intros _. split; [apply Hem|].
      rewrite (Hflip false). cbn [negb]. unfold update, emit. cbn [store with_store].
      rewrite (Hback false true). by apply Hid.
    + intros w' Hne. split; [done|].
      unfold update, emit, get_selected. cbn [store with_store].
      by rewrite lookup_alter, decide_False by done.
  - split_and!; try done.
    + intros _. split; [apply Hem|].
      rewrite (Hflip true). cbn [negb]. unfold update, emit. cbn [store with_store].
      rewrite (Hback true false). by apply Hid.
    + intros w' Hne. split; [|done].
      unfold update, emit, get_selected. cbn [store with_store].
      by rewrite lookup_alter, decide_False by done.
Qed.

Lemma select_deselect_witness :
  get_selected 1 (select 1 (default new two)) = true
  ∧ store (deselect 1 (select 1 (default new two))) = store (default new two).
Proof.
  destruct (select_deselect (default new two) 1) as (H1 & _ & _ & _ & H5 & _).
  { vm_compute. eexists. reflexivity. }
  split; [exact H1|]. apply H5. vm_compute. reflexivity.
Defined.

(** *** More on the mode *)

Lemma deselect_all_frame ws : ∀ nb,
  let nb' := foldl (λ nb w, deselect w nb) nb ws in
  _model nb' = _model nb ∧ _activeCellIndex nb' = _activeCellIndex nb
  ∧ next_id nb' = next_id nb ∧ _mimetype nb' = _mimetype nb.
Proof.
  induction ws as [|w ws IH]; intros nb; cbn [foldl]; [done|].
  destruct (IH (deselect w nb)) as (H1 & H2 & H3 & H4).
  cbv zeta. rewrite H1, H2, H3, H4. unfold deselect.
  by destruct (negb (get_selected w nb)).
Qed.

(** Whatever the state, after the setter the mode is the one asked for,
    while the model, the layout, the active cell and its index are the
    ones before; and setting the same mode once more only posts an
    update request. *)
Theorem set_mode_result (m : NotebookMode) (nb : t) :
  _mode (set_mode m nb) = m
  ∧ _model (set_mode m nb) = _model nb
  ∧ widgets (set_mode m nb) = widgets nb
  ∧ _activeCell (set_mode m nb) = _activeCell nb
  ∧ _activeCellIndex (set_mode m nb) = _activeCellIndex nb
  ∧ set_mode m (set_mode m nb) = update (set_mode m nb).
Proof.
  assert (_mode (set_mode m nb) = m
          ∧ _model (set_mode m nb) = _model nb
          ∧ widgets (set_mode m nb) = widgets nb
          ∧ _activeCell (set_mode m nb) = _activeCell nb
          ∧ _activeCellIndex (set_mode m nb) = _activeCellIndex nb) as H.
  { destruct (decide (m = _mode nb)) as [Heq|Hne].
    - unfold set_mode. change (_mode (update nb)) with (_mode nb).
      rewrite decide_True by done. by cbn.
    - destruct m.
      + unfold set_mode. change (_mode (update nb)) with (_mode nb).
        rewrite decide_False by done. cbn [_activeCell emit with_mode update].
        destruct (_activeCell nb) eqn:Ha;
          cbn [_mode _model widgets _activeCell _activeCellIndex emit with_mode update];
          by rewrite ?Ha.
      + assert (_mode nb = command) as Hc by (destruct (_mode nb); congruence).
        destruct (_activeCell nb) as [| |a] eqn:Ha.
        * unfold set_mode. change (_mode (update nb)) with (_mode nb).
          rewrite decide_False by done. cbn [_activeCell emit with_mode update].
          by rewrite Ha.
        * unfold set_mode. change (_mode (update nb)) with (_mode nb).
          rewrite decide_False by done. cbn [_activeCell emit with_mode update].
          by rewrite Ha.
        * rewrite (set_mode_edit_unfold nb a Hc Ha). cbv zeta.
          set (nb1 := emit _ (with_mode edit (update nb))).
          destruct (deselect_all_spec (widgets nb) nb1)
            as [(Hw & Hmode & _ & Hcell & _) _].
          destruct (deselect_all_frame (widgets nb) nb1) as (Hmod & Hidx & _).
          set (nb2 := foldl _ nb1 (widgets nb)) in *.
          destruct (isMarkdown a nb2), (_isActive nb);
            unfold sendActivateRequest, onActivateRequest, update, emit;
            cbn [_mode _model widgets _activeCell _activeCellIndex with_store with_isActive];
            rewrite Hw, Hmode, Hcell, Hmod, Hidx; by rewrite <- Ha. }
  destruct H as (H1 & H2 & H3 & H4 & H5). split_and!; try done.
  unfold set_mode at 1. change (_mode (update ?x)) with (_mode x).
  by rewrite decide_True.
Qed.

(** Setting command mode, and with it a deactivate request, never
    touches a widget object and never asks for activation: it records an
    update request and, when the mode was edit, one mode change.  After a
    deactivate request the notebook is inactive and in command mode. *)
Theorem set_mode_command_leaves_widgets (nb : t) :
  store (set_mode command nb) = store nb
  ∧ _isActive (set_mode command nb) = _isActive nb
  ∧ emitted nb (set_mode command nb)
    = UpdateRequest ::
      (if decide (_mode nb = edit) then [stateChanged (ModeArgs edit command)] else [])
  ∧ _isActive (onDeactivateRequest nb) = false
  ∧ _mode (onDeactivateRequest nb) = command
  ∧ store (onDeactivateRequest nb) = store nb.
Proof.
  assert (∀ nb, store (set_mode command nb) = store nb
                ∧ _isActive (set_mode command nb) = _isActive nb
                ∧ emitted nb (set_mode command nb)
                  = UpdateRequest ::
                    (if decide (_mode nb = edit)
                     then [stateChanged (ModeArgs edit command)] else [])
                ∧ _mode (set_mode command nb) = command) as H.
  { intros nb0. unfold set_mode. change (_mode (update nb0)) with (_mode nb0).
    destruct (_mode nb0) eqn:Hm.
    - rewrite decide_True by done. rewrite decide_False by discriminate.
      split_and!; [done|done| |done]. by apply emitted_app.
    - rewrite decide_False by discriminate. rewrite decide_True by done.
      cbn [_activeCell emit with_mode update].
      destruct (_activeCell nb0); (split_and!; [done|done| |done]);
        apply emitted_app; unfold update, emit, with_mode; cbn [trace];
        by rewrite <- app_assoc. }
  destruct (H nb) as (H1 & H2 & H3 & _). split_and!; try done.
  - unfold onDeactivateRequest. by destruct (H (with_isActive false nb)) as (_ & -> & _).
  - unfold onDeactivateRequest. by destruct (H (with_isActive false nb)) as (_ & _ & _ & ->).
  - unfold onDeactivateRequest. by destruct (H (with_isActive false nb)) as (-> & _).
Qed.

(** *** The cell hooks of the interactive notebook *)

Lemma set_activeCellIndex_same_layout (v : Z) (nb : t) :
  StaticNotebook.same_layout (set_activeCellIndex v nb) nb.
Proof. by rewrite set_activeCellIndex_unfold. Qed.

Lemma hooks_layout_preserving : StaticNotebook.layout_preserving hooks.
Proof.
  split_and!; cbn [hooks StaticNotebook.onModelChanged StaticNotebook.onCellInserted
                   StaticNotebook.onCellMoved StaticNotebook.onCellRemoved].
  - intros o n nb. apply set_activeCellIndex_same_layout.
  - intros i w nb. apply set_activeCellIndex_same_layout.
  - intros f g nb. unfold onCellMoved. case_decide; [|done].
    apply set_activeCellIndex_same_layout.
  - intros w nb. unfold onCellRemoved.
    destruct (isSelected w _); [|apply set_activeCellIndex_same_layout].
    eapply StaticNotebookFacts.same_layout_trans; [|apply set_activeCellIndex_same_layout].
    done.
Qed.

Lemma set_activeCellIndex_active_ok (v : Z) (nb : t) : active_ok (set_activeCellIndex v nb).
Proof.
  rewrite set_activeCellIndex_unfold. split; cbn [_activeCellIndex _activeCell].
  - match goal with |- _ = resolve _ ?x =>
      rewrite (resolve_same_model (resolve v nb) nb x eq_refl) end.
    by rewrite resolve_idempotent.
  - by apply childAt_same_widgets.
Qed.

Lemma active_ok_ext (a b : t) :
  _model a = _model b → widgets a = widgets b →
  _activeCellIndex a = _activeCellIndex b → _activeCell a = _activeCell b →
  active_ok b → active_ok a.
Proof.
  intros Hm Hw Hi Hc [H1 H2]. unfold active_ok.
  rewrite (resolve_same_model _ b a Hm), (childAt_same_widgets _ b a Hw), Hi, Hc. done.
Qed.

Lemma insertCell_active_ok (i : Z) (c : ICellModel) (nb : t) :
  active_ok (StaticNotebook._insertCell hooks i c nb).
Proof. unfold StaticNotebook._insertCell. apply set_activeCellIndex_active_ok. Qed.

Lemma removeCell_active_ok (i : Z) (nb nb' : t) :
  StaticNotebook._removeCell hooks i nb = Some nb' → active_ok nb'.
Proof.
  unfold StaticNotebook._removeCell.
  destruct (Vector.at_ (widgets nb) i) as [w|]; cbn [mbind option_bind]; [|done].
  intros [= <-]. cbn [hooks StaticNotebook.onCellRemoved]. unfold onCellRemoved.
  set (x := set_activeCellIndex _ _).
  pose proof (set_activeCellIndex_active_ok
                (get_activeCellIndex
                   (with_widgets (PanelLayout.removeWidget w (widgets nb)) nb))
                (with_widgets (PanelLayout.removeWidget w (widgets nb)) nb)) as Hok.
  fold x in Hok. destruct (isSelected w x); by eapply active_ok_ext; [..|exact Hok].
Qed.

Lemma removeCells_active_ok (k : nat) (i : Z) : ∀ (nb nb' : t),
  StaticNotebook.removeCells hooks k i nb = Some nb' →
  (k ≠ 0%nat ∨ active_ok nb) → active_ok nb'.
Proof.
  induction k as [|k IH]; intros nb nb' Hr Hor; cbn [StaticNotebook.removeCells] in Hr.
  - injection Hr as <-. by destruct Hor.
  - destruct (StaticNotebook._removeCell hooks i nb) as [nb1|] eqn:H1;
      cbn [mbind option_bind] in Hr; [|done].
    apply (IH nb1 nb' Hr). right. by eapply removeCell_active_ok.
Qed.

Lemma insertCells_active_ok (i : Z) (vs : list ICellModel) (nb : t) :
  (vs ≠ [] ∨ active_ok nb) → active_ok (StaticNotebook.insertCells hooks i vs nb).
Proof.
  unfold StaticNotebook.insertCells. intros Hor.
  assert (reverse vs ≠ [] ∨ active_ok nb) as Hor'.
  { destruct Hor as [Hne|]; [left|by right]. intros Hr. apply Hne.
    by rewrite <- (reverse_involutive vs), Hr. }
  clear Hor. revert nb Hor'. induction (reverse vs) as [|v l IH]; intros nb Hor; cbn [foldl].
  - by destruct Hor.
  - apply IH. right. apply insertCell_active_ok.
Qed.

Lemma consistent_of_invariants (nb : t) (m : INotebookModel) :
  StaticNotebook.well_formed nb → _model nb = Some m →
  widget_cells nb = Some <$> cells m → active_ok nb → consistent nb.
Proof.
  intros [_ Hall] Hm Hsync [Hidx _]. split.
  - rewrite Forall_forall in Hall. intros w Hw. by destruct (Hall w Hw).
  - intros m' Hm'. rewrite Hm in Hm'. injection Hm' as <-.
    assert (List.length (widgets nb) = List.length (cells m)) as Hlen.
    { by rewrite <- StaticNotebookFacts.widget_cells_length, Hsync, length_fmap. }
    split; [done|]. intros Hne.
    destruct (resolve_clamped (_activeCellIndex nb) (Vector.length (cells m)) nb)
      as [_ Hr]; [unfold cellCount; by rewrite Hm| |lia].
    unfold Vector.length. destruct (cells m); [done|simpl; lia].
Qed.

Lemma deliver_step (args : IListChangedArgs) (nb : t) (m : INotebookModel) :
  StaticNotebook.well_formed nb → _model nb = Some m →
  widget_cells nb = Some <$> cells m → active_ok nb →
  ObservableList.valid args (cells m) → is_move args = false →
  ∃ nb', deliver args nb = Some nb'
    ∧ StaticNotebook.well_formed nb'
    ∧ _model nb' = Some (with_cells (ObservableList.apply args (cells m)) m)
    ∧ widget_cells nb' = Some <$> ObservableList.apply args (cells m)
    ∧ active_ok nb'.
Proof.
  intros Hwf Hm Hsync Hok Hvalid Hmove.
  destruct (StaticNotebookFacts.deliver_keeps_order args nb m Hwf Hm Hsync Hvalid Hmove)
    as (nbb & Hb & Hwfb & Hmb & Hcb).
  pose proof (StaticNotebookFacts.deliver_same_layout hooks hooks_layout_preserving
                args nb nb eq_refl) as Hrel.
  rewrite Hb in Hrel. inversion Hrel as [nb' nbb' Hsame Heq1 Heq2|]; subst.
  symmetry in Heq1. fold (deliver args nb) in Heq1.
  destruct (StaticNotebookFacts.same_layout_transfer nb' nbb Hsame) as (Hwf' & Hc' & Hm' & _).
  exists nb'. split; [done|]. split; [by apply Hwf'|]. split; [congruence|].
  split; [congruence|].
  (* the active cell *)
  unfold deliver, StaticNotebook.deliver in Heq1. rewrite Hm in Heq1.
  destruct args as [i c|o n v|i v|o n ovs nvs|o n ov nv]; [|done|..];
    cbn [StaticNotebook._onCellsChanged] in Heq1.
  - injection Heq1 as <-. apply set_activeCellIndex_active_ok.
  - by eapply removeCell_active_ok.
  - destruct (StaticNotebook.removeCells hooks _ o _) as [nb1|] eqn:Hr;
      cbn [mbind option_bind] in Heq1; [|done]. injection Heq1 as <-.
    apply insertCells_active_ok.
    destruct nvs as [|v nvs]; [right|by left].
    eapply removeCells_active_ok; [exact Hr|].
    destruct ovs as [|v ovs]; [right|by left].
    cbn [ObservableList.apply List.length app]. rewrite Nat.add_0_r, take_drop.
    eapply active_ok_ext; [..|exact Hok]; try done.
    cbn [_model with_model]. rewrite Hm. by destruct m.
  - destruct (StaticNotebook._removeCell hooks n _) as [nb1|] eqn:Hr;
      cbn [mbind option_bind] in Heq1; [|done]. injection Heq1 as <-.
    apply set_activeCellIndex_active_ok.
Qed.

(** In the interactive notebook, every run of valid add, remove, replace
    and set events is handled without error and keeps the widgets in the
    order of the model, the active index within the cells of the model,
    and the active cell equal to the child at the active index; the
    notebook stays consistent, which is what an edge request relies on. *)
Theorem deliver_all_keeps_invariants (events : list IListChangedArgs) :
  ∀ (nb : t) (m : INotebookModel),
  StaticNotebook.well_formed nb → _model nb = Some m →
  widget_cells nb = Some <$> cells m → active_ok nb →
  valid_run events (cells m) →
  ∃ nb', deliver_all events nb = Some nb'
    ∧ StaticNotebook.well_formed nb' ∧ StaticNotebook.in_sync nb'
    ∧ active_ok nb' ∧ consistent nb'
    ∧ _activeCell nb' = childAt (get_activeCellIndex nb') nb'.
Proof.
  induction events as [|e rest IH]; intros nb m Hwf Hm Hsync Hok Hrun.
  - exists nb. split; [done|]. split; [done|]. split; [by exists m|]. split; [done|].
    split; [by apply (consistent_of_invariants nb m)|].
    rewrite get_activeCellIndex_active_ok by done. by destruct Hok.
  - destruct Hrun as (Hv & Hmv & Hrest).
    destruct (deliver_step e nb m Hwf Hm Hsync Hok Hv Hmv) as (nb1 & Hd & Hwf1 & Hm1 & Hs1 & Hok1).
    unfold deliver_all in *. cbn [StaticNotebook.deliver_all].
    fold (deliver e nb). rewrite Hd. cbn [mbind option_bind].
    by apply (IH nb1 (with_cells (ObservableList.apply e (cells m)) m)).
Qed.

Lemma deliver_all_keeps_invariants_witness :
  ∃ nb', deliver_all [Add 0 cellA; Add 1 cellB; Set_ 0 0 cellA cellC; Remove 0 cellC]
           (default new (set_model (Some emptyModel) new)) = Some nb'
    ∧ StaticNotebook.in_sync nb' ∧ consistent nb'.
Proof.
  destruct (deliver_all_keeps_invariants
              [Add 0 cellA; Add 1 cellB; Set_ 0 0 cellA cellC; Remove 0 cellC]
              (default new (set_model (Some emptyModel) new)) emptyModel)
    as (nb' & Hr & _ & Hs & _ & Hc & _).
  - assert (widgets (default new (set_model (Some emptyModel) new)) = []) as Hw
      by (vm_compute; reflexivity).
    unfold StaticNotebook.well_formed. rewrite Hw.
    split; [apply NoDup_nil_2|apply Forall_nil_2].
  - vm_compute. reflexivity.
  - vm_compute. reflexivity.
  - split; vm_compute; reflexivity.
  - vm_compute. split_and!; (done || discriminate).
  - exists nb'. split; [exact Hr|]. split; [exact Hs|exact Hc].
Defined.

(** *** A new model in the interactive notebook *)

(** Giving an interactive notebook without widgets another model builds
    the widgets in model order and makes the first cell the active one:
    the active index is [0], or [-1] when the model has no cell, and the
    active cell is the child at that index; the notebook is consistent. *)
Theorem set_model_activates_first_cell (m : INotebookModel) (nb : t) :
  StaticNotebook.well_formed nb → widgets nb = [] →
  model_id <$> _model nb ≠ Some (model_id m) →
  ∃ nb', set_model (Some m) nb = Some nb'
    ∧ StaticNotebook.in_sync nb' ∧ consistent nb'
    ∧ get_activeCellIndex nb' = (if decide (cells m = []) then -1 else 0)
    ∧ _activeCell nb' = childAt (get_activeCellIndex nb') nb'
    ∧ _mode nb' = _mode nb.
Proof.
  intros Hwf Hnil Hid.
  destruct (StaticNotebookFacts.set_model_base m nb Hwf Hid)
    as (nbb & Hb & Hwfb & Hmb & _ & Hcb).
  pose proof (StaticNotebookFacts.set_model_same_layout hooks hooks_layout_preserving
                (Some m) nb nb eq_refl) as Hrel.
  rewrite Hb in Hrel. inversion Hrel as [nb' nbb' Hsame Heq1 Heq2|]; subst.
  symmetry in Heq1. fold (set_model (Some m) nb) in Heq1.
  destruct (StaticNotebookFacts.same_layout_transfer nb' nbb Hsame) as (Hwf' & Hc' & Hm' & _).
  assert (widget_cells nb' = Some <$> cells m) as Hsync.
  { rewrite Hc', Hcb. unfold widget_cells. rewrite Hnil. cbn [fmap list_fmap].
    by rewrite drop_nil, app_nil_r. }
  assert (_model nb' = Some m) as Hmod by congruence.
  assert (active_ok nb' ∧ _activeCellIndex nb' = resolve 0 nb' ∧ _mode nb' = _mode nb)
    as (Hok & Hidx & Hmode).
  { unfold set_model, StaticNotebook.set_model in Heq1.
    rewrite decide_False in Heq1 by done.
    destruct (StaticNotebook._onModelChanged hooks _ _ _) as [x|] eqn:Hx;
      cbn [mbind option_bind] in Heq1; [|done].
    injection Heq1 as <-. cbn [hooks StaticNotebook.onModelChanged]. unfold onModelChanged.
    pose proof (set_activeCellIndex_active_ok 0 x) as Hok.
    split; [by eapply active_ok_ext; [..|exact Hok]|]. split.
    - cbn [_activeCellIndex emit]. rewrite set_activeCellIndex_unfold.
      cbn [_activeCellIndex]. by apply eq_sym, resolve_same_model.
    - cbn [_mode emit]. rewrite set_activeCellIndex_unfold. cbn [_mode].
      (* the base methods and the cell hooks never write the mode *)
      revert Hx. unfold StaticNotebook._onModelChanged.
      cbn [widgets with_model]. rewrite Hnil. cbn [List.length StaticNotebook.removeAll_loop].
      assert (∀ l i y, _mode (StaticNotebook.insertAll_loop hooks i l y) = _mode y) as Hins.
      { induction l as [|c l IH]; intros i y; cbn [StaticNotebook.insertAll_loop]; [done|].
        rewrite IH. unfold StaticNotebook._insertCell.
        cbn [hooks StaticNotebook.onCellInserted]. unfold onCellInserted.
        rewrite set_activeCellIndex_unfold. cbn [_mode].
        unfold StaticNotebook._updateCell. by repeat case_match. }
      destruct (_model nb); cbn [mbind option_bind]; intros [= <-]; by rewrite Hins. }
  exists nb'. split; [done|]. split; [by exists m|].
  split; [by apply (consistent_of_invariants nb' m); [apply Hwf'|..]|].
  rewrite get_activeCellIndex_active_ok by done. split; [|split; [by destruct Hok|done]].
  rewrite Hidx. unfold resolve. rewrite Hmod. unfold Vector.length.
  destruct (cells m); [by rewrite decide_True|]. rewrite decide_False by (simpl; lia).
  rewrite decide_False by done. simpl. lia.
Qed.

Lemma set_model_activates_first_cell_witness :
  ∃ nb', set_model (Some (with_cells [cellB; cellA] emptyModel)) new = Some nb'
    ∧ get_activeCellIndex nb' = 0 ∧ consistent nb'.
Proof.
  destruct (set_model_activates_first_cell (with_cells [cellB; cellA] emptyModel) new)
    as (nb' & Hr & _ & Hc & Hi & _).
  - split; [apply NoDup_nil_2|apply Forall_nil_2].
  - reflexivity.
  - discriminate.
  - exists nb'. split; [exact Hr|]. split; [exact Hi|exact Hc].
Defined.

(** *** The same events in a subclass and in the base class *)

Lemma subclass_deliver_all_same_layout_witness :
  StaticNotebook.layout_preserving hooks
  ∧ StaticNotebook.same_layout (default new (set_model (Some emptyModel) new))
      (default new empty)
  ∧ option_Forall2 StaticNotebook.same_layout
      (deliver_all [Add 0 cellA; Add 1 cellB; Move 0 1 cellA; Remove 0 cellB]
         (default new (set_model (Some emptyModel) new)))
      (StaticNotebook.deliver_all StaticNotebook.base
         [Add 0 cellA; Add 1 cellB; Move 0 1 cellA; Remove 0 cellB] (default new empty)).
Proof.
  assert (StaticNotebook.same_layout (default new (set_model (Some emptyModel) new))
            (default new empty)) as Hs by (vm_compute; reflexivity).
  split; [exact hooks_layout_preserving|]. split; [exact Hs|].
  exact (StaticNotebookFacts.subclass_deliver_all_same_layout hooks _
           hooks_layout_preserving _ _ Hs).
Defined.

(** *** DOM events *)

Lemma findCell_same_widgets (node : list HTMLElement) (nb nb' : t) :
  widgets nb' = widgets nb → _findCell node nb' = _findCell node nb.
Proof.
  intros Hw. induction node as [|n up IH]; cbn [_findCell]; [done|]. by rewrite Hw, IH.
Qed.

Lemma findCell_found (node : list HTMLElement) (nb : t) :
  _findCell node nb = -1 ∧ childAt (_findCell node nb) nb = Undefined
  ∨ ∃ (i w : nat), _findCell node nb = Z.of_nat i ∧ widgets nb !! i = Some w
      ∧ childAt (Z.of_nat i) nb = Obj w.
Proof.
  assert (childAt (-1) nb = Undefined) as Hneg.
  { unfold childAt. by rewrite ConsoleHistoryFacts.at_negative by lia. }
  induction node as [|n up IH]; cbn [_findCell]; [by left|].
  destruct (is_this_node n); [by left|].
  destruct (has_cell_class n); [|done].
  destruct (list_find _ (widgets nb)) as [[i w]|] eqn:Hf; [|by left].
  right. apply list_find_Some in Hf as (Hi & _ & _). exists i, w. split_and!; try done.
  unfold childAt, Vector.at_. rewrite bool_decide_eq_false_2 by lia.
  by rewrite Nat2Z.id, Hi.
Qed.

(** [_findCell] answers with an index other than -1 exactly when, going
    up from the target, the first element that is [this.node] or has the
    cell class is not [this.node] and is the node of a child widget; the
    index is then the first position of that widget in the layout. *)
Theorem findCell_innermost_cell (node : list HTMLElement) (nb : t) (i : Z) :
  _findCell node nb = i ∧ i ≠ -1
  ↔ ∃ (below : list HTMLElement) (n : HTMLElement) (above : list HTMLElement) (w k : nat),
      node = below ++ n :: above
      ∧ Forall (λ x, is_this_node x = false ∧ has_cell_class x = false) below
      ∧ is_this_node n = false ∧ has_cell_class n = true ∧ widget_of n = Some w
      ∧ i = Z.of_nat k ∧ widgets nb !! k = Some w
      ∧ ∀ j, (j < k)%nat → widgets nb !! j ≠ Some w.
Proof.
  induction node as [|x up IH]; cbn [_findCell].
  - split; [by intros [<- ?]|]. intros (below & n & above & _ & _ & Hnode & _).
    by destruct below.
  - split.
    + intros [Hi Hne]. destruct (is_this_node x) eqn:Hx; [congruence|].
      destruct (has_cell_class x) eqn:Hc.
      * destruct (list_find _ (widgets nb)) as [[k w]|] eqn:Hf; [|congruence].
        apply list_find_Some in Hf as (Hk & Hw & Hfirst).
        exists [], x, up, w, k. split_and!; try done.
        intros j Hj Hjw. by apply (Hfirst j w Hjw Hj).
      * destruct IH as [IH _]. destruct (IH (conj Hi Hne))
          as (below & n & above & w & k & -> & Hb & Hrest).
        exists (x :: below), n, above, w, k. split; [done|]. split; [|done].
        by constructor.
    + intros (below & n & above & w & k & Hnode & Hb & Hn & Hc & Hw & -> & Hk & Hfirst).
      destruct below as [|y below]; simpl in Hnode; injection Hnode as -> ->.
      * rewrite Hn, Hc.
        assert (list_find (λ w0, widget_of n = Some w0) (widgets nb) = Some (k, w)) as ->.
        { apply list_find_Some. split_and!; try done.
          intros j y Hj Hlt Hy. apply (Hfirst j Hlt). congruence. }
        split; [done|lia].
      * apply Forall_cons in Hb as [[Hy Hyc] Hb]. rewrite Hy, Hyc. apply IH.
        exists below, n, above, w, k. done.
Qed.

Lemma activated_frame (nb : t) :
  let nb0 := if _isActive nb then nb else sendActivateRequest nb in
  _isActive nb0 = true ∧ _model nb0 = _model nb ∧ widgets nb0 = widgets nb
  ∧ store nb0 = store nb ∧ _mode nb0 = _mode nb
  ∧ _activeCellIndex nb0 = _activeCellIndex nb ∧ _activeCell nb0 = _activeCell nb.
Proof. cbv zeta. by destruct (_isActive nb) eqn:H. Qed.

Lemma deselect_all_dom ws : ∀ nb w,
  is_Some (store (foldl (λ nb w, deselect w nb) nb ws) !! w) ↔ is_Some (store nb !! w).
Proof.
  induction ws as [|x ws IH]; intros nb w; cbn [foldl]; [done|].
  rewrite IH. unfold deselect. destruct (negb (get_selected x nb)); [done|].
  unfold update, emit. cbn [store with_store]. rewrite lookup_alter.
  case_decide; [|done]. subst. by rewrite fmap_is_Some.
Qed.

Lemma set_mode_frame (m : NotebookMode) (nb : t) :
  _mode (set_mode m nb) = m
  ∧ _model (set_mode m nb) = _model nb
  ∧ widgets (set_mode m nb) = widgets nb
  ∧ _activeCell (set_mode m nb) = _activeCell nb
  ∧ _activeCellIndex (set_mode m nb) = _activeCellIndex nb
  ∧ (_isActive nb = true → _isActive (set_mode m nb) = true)
  ∧ (∀ w, is_Some (store (set_mode m nb) !! w) ↔ is_Some (store nb !! w))
  ∧ (m = command → store (set_mode m nb) = store nb).
Proof.
  unfold set_mode. change (_mode (update nb)) with (_mode nb).
  destruct (decide (m = _mode nb)) as [Heq|Hne]; [by cbn|].
  cbn [_activeCell emit with_mode update].
  destruct (_activeCell nb) as [| |a] eqn:Ha;
    [cbn [_mode _model widgets _activeCell _activeCellIndex _isActive store emit
          with_mode update]; by rewrite ?Ha..|].
  destruct m;
    [cbn [_mode _model widgets _activeCell _activeCellIndex _isActive store emit
          with_mode update]; by rewrite ?Ha|].
  cbn [widgets emit with_mode update].
  set (nb1 := emit _ _).
  destruct (deselect_all_spec (widgets nb) nb1)
    as [(Hw & Hmode & Hact & Hcell & _) _].
  destruct (deselect_all_frame (widgets nb) nb1) as (Hmod & Hidx & _).
  pose proof (deselect_all_dom (widgets nb) nb1) as Hdom.
  set (nb2 := foldl _ nb1 (widgets nb)) in *.
  assert (∀ w, is_Some (alter (set_rendered false) a (store nb2) !! w)
               ↔ is_Some (store nb !! w)) as Hdom'.
  { intros w. rewrite lookup_alter. case_decide; subst; rewrite ?fmap_is_Some; apply Hdom. }
  destruct (isMarkdown a nb2); cbn [_isActive with_store]; rewrite Hact;
    change (_isActive nb1) with (_isActive nb); destruct (_isActive nb) eqn:Hia;
    unfold sendActivateRequest, onActivateRequest, update, emit;
    cbn [_mode _model widgets _activeCell _activeCellIndex _isActive store
         with_store with_isActive];
    rewrite ?Hw, ?Hmode, ?Hcell, ?Hmod, ?Hidx; rewrite <- ?Ha;
    (split_and!; try done; try apply Hdom; try apply Hdom');
    intros _; by rewrite Hact.
Qed.

Lemma consistent_ext (a b : t) :
  _model a = _model b → widgets a = widgets b →
  _activeCellIndex a = _activeCellIndex b →
  (∀ w, is_Some (store a !! w) ↔ is_Some (store b !! w)) →
  consistent b → consistent a.
Proof.
  intros Hm Hw Hi Hs [H1 H2]. unfold consistent. rewrite Hm, Hw, Hi. split; [|done].
  intros w Hin. apply Hs. by apply H1.
Qed.

Lemma set_mode_invariants (m : NotebookMode) (nb : t) :
  consistent nb → active_ok nb → consistent (set_mode m nb) ∧ active_ok (set_mode m nb).
Proof.
  intros Hc Ha. destruct (set_mode_frame m nb) as (_ & Hm & Hw & Hac & Hi & _ & Hd & _).
  split; [by apply (consistent_ext _ nb)|by apply (active_ok_ext _ nb)].
Qed.

(** Making the widget at a found index the active one. *)
Lemma select_found_cell (i w : nat) (nb1 nb : t) (m : INotebookModel) :
  consistent nb → _model nb = Some m → widgets nb !! i = Some w →
  _model nb1 = _model nb → widgets nb1 = widgets nb →
  (∀ w, is_Some (store nb1 !! w) ↔ is_Some (store nb !! w)) →
  let nb' := set_activeCellIndex (Z.of_nat i) nb1 in
  consistent nb' ∧ active_ok nb'
  ∧ get_activeCellIndex nb' = Z.of_nat i ∧ _activeCell nb' = Obj w
  ∧ _mode nb' = _mode nb1 ∧ _isActive nb' = _isActive nb1
  ∧ widgets nb' = widgets nb ∧ store nb' = store nb1 ∧ _model nb' = _model nb.
Proof.
  intros [Hst Hcm] Hm Hw Hm1 Hw1 Hd1 nb'. subst nb'.
  destruct (Hcm m Hm) as [Hlen _].
  assert (i < List.length (widgets nb))%nat as Hi by (by eapply lookup_lt_Some).
  assert (resolve (Z.of_nat i) nb1 = Z.of_nat i) as Hr.
  { destruct (resolve_clamped (Z.of_nat i) (Vector.length (cells m)) nb1) as [-> _].
    - unfold cellCount. by rewrite Hm1, Hm.
    - unfold Vector.length. lia.
    - unfold Vector.length. lia. }
  assert (childAt (Z.of_nat i) nb1 = Obj w) as Hch.
  { unfold childAt, Vector.at_. rewrite bool_decide_eq_false_2 by lia.
    by rewrite Nat2Z.id, Hw1, Hw. }
  split_and!.
  - apply (set_activeCellIndex_consistent _ _ m); [congruence| |congruence].
    rewrite Hw1. apply Forall_forall. intros x Hx. apply Hd1. by apply Hst.
  - apply set_activeCellIndex_active_ok.
  - by rewrite get_after_set.
  - rewrite set_activeCellIndex_unfold. cbn [_activeCell]. by rewrite Hr.
  - by rewrite set_activeCellIndex_unfold.
  - by rewrite set_activeCellIndex_unfold.
  - by rewrite set_activeCellIndex_unfold.
  - by rewrite set_activeCellIndex_unfold.
  - by rewrite set_activeCellIndex_unfold.
Qed.

(** A mouse press on a notebook with a model makes the notebook active
    and changes no widget object.  When the target lies in a cell, that
    cell becomes the active one, and the mode falls back to command
    unless the target is inside the editor of the cell; when it lies in
    no cell, mode and active cell stay as they are. *)
Theorem evtMouseDown_activates_cell (event : Event) (nb : t) (m : INotebookModel) :
  consistent nb → _model nb = Some m →
  ∃ nb', _evtMouseDown event nb = Some nb'
    ∧ _isActive nb' = true ∧ widgets nb' = widgets nb ∧ store nb' = store nb
    ∧ _model nb' = _model nb
    ∧ match childAt (_findCell (target event) nb) nb with
      | Obj w =>
          get_activeCellIndex nb' = _findCell (target event) nb
          ∧ _activeCell nb' = Obj w
          ∧ _mode nb' = (if editor_contains w (target event) then _mode nb else command)
      | _ =>
          _findCell (target event) nb = -1
          ∧ _mode nb' = _mode nb ∧ _activeCellIndex nb' = _activeCellIndex nb
          ∧ _activeCell nb' = _activeCell nb
      end.
Proof.
  intros Hc Hm. unfold _evtMouseDown.
  destruct (activated_frame nb) as (Ha0 & Hm0 & Hw0 & Hs0 & Hmd0 & Hi0 & Hc0).
  set (nb0 := if _isActive nb then nb else sendActivateRequest nb) in *.
  rewrite (findCell_same_widgets _ nb nb0 Hw0), (childAt_same_widgets _ nb nb0 Hw0).
  destruct (findCell_found (target event) nb) as [[-> ->]|(i & w & -> & Hw & ->)].
  - rewrite decide_False by (intros H; by apply H). exists nb0. done.
  - rewrite decide_True by lia.
    set (nb1 := if editor_contains w (target event) then nb0 else set_mode command nb0).
    destruct (set_mode_frame command nb0) as (Hmd & Hmo & Hwi & _ & _ & Hact & Hdom & Hst).
    assert (_model nb1 = _model nb ∧ widgets nb1 = widgets nb ∧ store nb1 = store nb
            ∧ _isActive nb1 = true
            ∧ _mode nb1 = (if editor_contains w (target event) then _mode nb else command))
      as (Hm1 & Hw1 & Hs1 & Ha1 & Hmd1).
    { subst nb1. destruct (editor_contains w (target event)); [done|].
      rewrite Hmo, Hwi, (Hst eq_refl), (Hact Ha0). done. }
    destruct (select_found_cell i w nb1 nb m Hc Hm Hw Hm1 Hw1)
      as (_ & _ & Hg & Hac & Hmode & Hia & Hwid & Hsto & Hmod).
    { intros x. by rewrite Hs1. }
    eexists. split; [reflexivity|]. rewrite Hia, Hsto, Hmode. done.
Qed.

Lemma evtMouseDown_activates_cell_witness :
  let inside := {| is_this_node := false; has_cell_class := false; widget_of := None;
                   editor_of := None; localName := "div" |} in
  let cell := {| is_this_node := false; has_cell_class := true; widget_of := Some 1%nat;
                 editor_of := None; localName := "div" |} in
  let event := {| event_type := "mousedown"; target := [inside; cell] |} in
  ∃ nb nb', two = Some nb ∧ consistent nb
    ∧ _evtMouseDown event nb = Some nb'
    ∧ _isActive nb' = true ∧ get_activeCellIndex nb' = 1 ∧ _activeCell nb' = Obj 1%nat
    ∧ _mode nb' = command.
Proof.
  intros inside cell event. exists (default new two).
  assert (consistent (default new two)) as Hc.
  { apply (consistent_ext _ (set_activeCellIndex 0 (default new two)));
      [vm_compute; reflexivity..| |apply two_consistent].
    intros w. by rewrite set_activeCellIndex_unfold. }
  destruct (evtMouseDown_activates_cell event (default new two)
              (with_cells [cellA; cellB] emptyModel) Hc)
    as (nb' & Hev & Ha & _ & _ & _ & Hcell); [vm_compute; reflexivity|].
  assert (childAt (_findCell (target event) (default new two)) (default new two)
          = Obj 1%nat) as Hch by (vm_compute; reflexivity).
  rewrite Hch in Hcell. destruct Hcell as (Hi & Hac & Hmd).
  exists nb'. split; [vm_compute; reflexivity|]. split; [exact Hc|].
  split; [exact Hev|]. split; [exact Ha|]. split; [|split; [exact Hac|exact Hmd]].
  rewrite Hi. vm_compute. reflexivity.
Defined.

(** A focus event on a notebook with a model makes the notebook active.
    The mode becomes edit exactly when the target lies in a cell and
    inside the editor of that cell, and command in every other case;
    the cell holding the target becomes the active one, and without
    such a cell the active cell stays. *)
Theorem evtFocus_sets_mode (event : Event) (nb : t) (m : INotebookModel) :
  consistent nb → _model nb = Some m →
  ∃ nb', _evtFocus event nb = Some nb'
    ∧ _isActive nb' = true ∧ widgets nb' = widgets nb ∧ _model nb' = _model nb
    ∧ match childAt (_findCell (target event) nb) nb with
      | Obj w =>
          get_activeCellIndex nb' = _findCell (target event) nb
          ∧ _activeCell nb' = Obj w
          ∧ _mode nb' = (if editor_contains w (target event) then edit else command)
      | _ =>
          _findCell (target event) nb = -1
          ∧ _mode nb' = command ∧ _activeCellIndex nb' = _activeCellIndex nb
          ∧ _activeCell nb' = _activeCell nb
      end.
Proof.
  intros Hc Hm. unfold _evtFocus.
  destruct (activated_frame nb) as (Ha0 & Hm0 & Hw0 & Hs0 & Hmd0 & Hi0 & Hc0).
  set (nb0 := if _isActive nb then nb else sendActivateRequest nb) in *.
  rewrite (findCell_same_widgets _ nb nb0 Hw0), (childAt_same_widgets _ nb nb0 Hw0).
  assert (∀ md, _mode (set_mode md nb0) = md ∧ _model (set_mode md nb0) = _model nb
                ∧ widgets (set_mode md nb0) = widgets nb
                ∧ _activeCell (set_mode md nb0) = _activeCell nb
                ∧ _activeCellIndex (set_mode md nb0) = _activeCellIndex nb
                ∧ _isActive (set_mode md nb0) = true
                ∧ ∀ x, is_Some (store (set_mode md nb0) !! x) ↔ is_Some (store nb !! x))
    as Hset.
  { intros md. destruct (set_mode_frame md nb0) as (H1 & H2 & H3 & H4 & H5 & H6 & H7 & _).
    split_and!; try congruence; [by apply H6|]. intros x. by rewrite H7, Hs0. }
  destruct (findCell_found (target event) nb) as [[-> ->]|(i & w & -> & Hw & ->)].
  - rewrite decide_False by (intros H; by apply H).
    destruct (Hset command) as (H1 & H2 & H3 & H4 & H5 & H6 & _).
    eexists. split; [reflexivity|]. done.
  - rewrite decide_True by lia.
    set (nb1 := if editor_contains w (target event)
                then set_mode edit nb0 else set_mode command nb0).
    assert (_model nb1 = _model nb ∧ widgets nb1 = widgets nb
            ∧ (∀ x, is_Some (store nb1 !! x) ↔ is_Some (store nb !! x))
            ∧ _isActive nb1 = true
            ∧ _mode nb1 = (if editor_contains w (target event) then edit else command))
      as (Hm1 & Hw1 & Hs1 & Ha1 & Hmd1).
    { subst nb1. destruct (editor_contains w (target event)).
      - by destruct (Hset edit) as (? & ? & ? & _ & _ & ? & ?).
      - by destruct (Hset command) as (? & ? & ? & _ & _ & ? & ?). }
    destruct (select_found_cell i w nb1 nb m Hc Hm Hw Hm1 Hw1 Hs1)
      as (_ & _ & Hg & Hac & Hmode & Hia & Hwid & Hsto & Hmod).
    eexists. split; [reflexivity|]. rewrite Hia, Hmode. done.
Qed.

Lemma evtFocus_sets_mode_witness :
  let editor := {| is_this_node := false; has_cell_class := false; widget_of := None;
                   editor_of := Some 0%nat; localName := "div" |} in
  let cell := {| is_this_node := false; has_cell_class := true; widget_of := Some 0%nat;
                 editor_of := None; localName := "div" |} in
  let event := {| event_type := "focus"; target := [editor; cell] |} in
  ∃ nb nb', two = Some nb ∧ consistent nb
    ∧ _evtFocus event nb = Some nb'
    ∧ _isActive nb' = true ∧ get_activeCellIndex nb' = 0 ∧ _activeCell nb' = Obj 0%nat
    ∧ _mode nb' = edit.
Proof.
  intros editor cell event. exists (default new two).
  assert (consistent (default new two)) as Hc.
  { apply (consistent_ext _ (set_activeCellIndex 0 (default new two)));
      [vm_compute; reflexivity..| |apply two_consistent].
    intros w. by rewrite set_activeCellIndex_unfold. }
  destruct (evtFocus_sets_mode event (default new two)
              (with_cells [cellA; cellB] emptyModel) Hc)
    as (nb' & Hev & Ha & _ & _ & Hcell); [vm_compute; reflexivity|].
  assert (childAt (_findCell (target event) (default new two)) (default new two)
          = Obj 0%nat) as Hch by (vm_compute; reflexivity).
  rewrite Hch in Hcell. destruct Hcell as (Hi & Hac & Hmd).
  exists nb'. split; [vm_compute; reflexivity|]. split; [exact Hc|].
  split; [exact Hev|]. split; [exact Ha|]. split; [|split; [exact Hac|exact Hmd]].
  rewrite Hi. vm_compute. reflexivity.
Defined.

Lemma activated_invariants (nb : t) :
  consistent nb → active_ok nb →
  consistent (if _isActive nb then nb else sendActivateRequest nb)
  ∧ active_ok (if _isActive nb then nb else sendActivateRequest nb).
Proof.
  intros Hc Ha. destruct (activated_frame nb) as (_ & Hm0 & Hw0 & Hs0 & _ & Hi0 & Hc0).
  split; [apply (consistent_ext _ nb)|apply (active_ok_ext _ nb)]; try done.
  intros w. by rewrite Hs0.
Qed.

Lemma evtMouseDown_invariants (event : Event) (nb : t) (m : INotebookModel) :
  consistent nb → active_ok nb → _model nb = Some m →
  ∃ nb', _evtMouseDown event nb = Some nb' ∧ consistent nb' ∧ active_ok nb'
    ∧ widgets nb' = widgets nb ∧ _model nb' = _model nb.
Proof.
  intros Hc Ha Hm. unfold _evtMouseDown.
  destruct (activated_frame nb) as (_ & Hm0 & Hw0 & Hs0 & _).
  destruct (activated_invariants nb Hc Ha) as [Hc0 Ha0].
  set (nb0 := if _isActive nb then nb else sendActivateRequest nb) in *.
  rewrite (findCell_same_widgets _ nb nb0 Hw0), (childAt_same_widgets _ nb nb0 Hw0).
  destruct (findCell_found (target event) nb) as [[-> ->]|(i & w & -> & Hw & ->)].
  - rewrite decide_False by (intros H; by apply H). by exists nb0.
  - rewrite decide_True by lia.
    set (nb1 := if editor_contains w (target event) then nb0 else set_mode command nb0).
    destruct (set_mode_frame command nb0) as (_ & Hmo & Hwi & _ & _ & _ & Hdom & _).
    assert (_model nb1 = _model nb ∧ widgets nb1 = widgets nb
            ∧ ∀ x, is_Some (store nb1 !! x) ↔ is_Some (store nb !! x))
      as (Hm1 & Hw1 & Hs1).
    { subst nb1. destruct (editor_contains w (target event)).
      - split_and!; try done. intros x. by rewrite Hs0.
      - split_and!; try congruence. intros x. by rewrite Hdom, Hs0. }
    destruct (select_found_cell i w nb1 nb m Hc Hm Hw Hm1 Hw1 Hs1)
      as (Hc' & Ha' & _ & _ & _ & _ & Hwid & _ & Hmod).
    eexists. split; [reflexivity|]. done.
Qed.

Lemma evtFocus_invariants (event : Event) (nb : t) (m : INotebookModel) :
  consistent nb → active_ok nb → _model nb = Some m →
  ∃ nb', _evtFocus event nb = Some nb' ∧ consistent nb' ∧ active_ok nb'
    ∧ widgets nb' = widgets nb ∧ _model nb' = _model nb.
Proof.
  intros Hc Ha Hm. unfold _evtFocus.
  destruct (activated_frame nb) as (_ & Hm0 & Hw0 & Hs0 & _).
  destruct (activated_invariants nb Hc Ha) as [Hc0 Ha0].
  set (nb0 := if _isActive nb then nb else sendActivateRequest nb) in *.
  rewrite (findCell_same_widgets _ nb nb0 Hw0), (childAt_same_widgets _ nb nb0 Hw0).
  assert (∀ md, _model (set_mode md nb0) = _model nb
                ∧ widgets (set_mode md nb0) = widgets nb
                ∧ ∀ x, is_Some (store (set_mode md nb0) !! x) ↔ is_Some (store nb !! x))
    as Hset.
  { intros md. destruct (set_mode_frame md nb0) as (_ & H2 & H3 & _ & _ & _ & H7 & _).
    split_and!; try congruence. intros x. by rewrite H7, Hs0. }
  destruct (findCell_found (target event) nb) as [[-> ->]|(i & w & -> & Hw & ->)].
  - rewrite decide_False by (intros H; by apply H).
    destruct (set_mode_invariants command nb0 Hc0 Ha0) as [Hc' Ha'].
    destruct (Hset command) as (H1 & H2 & _).
    eexists. split; [reflexivity|]. done.
  - rewrite decide_True by lia.
    set (nb1 := if editor_contains w (target event)
                then set_mode edit nb0 else set_mode command nb0).
    assert (_model nb1 = _model nb ∧ widgets nb1 = widgets nb
            ∧ ∀ x, is_Some (store nb1 !! x) ↔ is_Some (store nb !! x))
      as (Hm1 & Hw1 & Hs1).
    { subst nb1. destruct (editor_contains w (target event)); apply Hset. }
    destruct (select_found_cell i w nb1 nb m Hc Hm Hw Hm1 Hw1 Hs1)
      as (Hc' & Ha' & _ & _ & _ & _ & Hwid & _ & Hmod).
    eexists. split; [reflexivity|]. done.
Qed.

Lemma evtDblClick_invariants (event : Event) (nb : t) (m : INotebookModel) :
  consistent nb → active_ok nb → _model nb = Some m →
  ∃ nb' fx, _evtDblClick event nb = Some (nb', fx) ∧ consistent nb' ∧ active_ok nb'
    ∧ widgets nb' = widgets nb ∧ _model nb' = _model nb
    ∧ _mode nb' = _mode nb ∧ _activeCell nb' = _activeCell nb
    ∧ _activeCellIndex nb' = _activeCellIndex nb.
Proof.
  intros Hc Ha Hm. unfold _evtDblClick.
  destruct (activated_frame nb) as (_ & Hm0 & Hw0 & Hs0 & Hmd0 & Hi0 & Hac0).
  destruct (activated_invariants nb Hc Ha) as [Hc0 Ha0].
  set (nb0 := if _isActive nb then nb else sendActivateRequest nb) in *.
  rewrite (findCell_same_widgets _ nb nb0 Hw0), Hm0, Hm.
  destruct (readOnly m); [exists nb0, []; split_and!; try done; congruence|].
  destruct (findCell_found (target event) nb) as [[Hf _]|(i & w & Hf & Hw & _)].
  - rewrite Hf, decide_True by done. exists nb0, []; split_and!; try done; congruence.
  - rewrite Hf, decide_False by lia.
    destruct Hc as [Hst Hcm]. destruct (Hcm m Hm) as [Hlen _].
    assert (i < List.length (widgets nb))%nat as Hi by (by eapply lookup_lt_Some).
    destruct (cells m !! i) as [cell|] eqn:Hcell;
      [|apply lookup_ge_None in Hcell; lia].
    unfold Vector.at_. rewrite bool_decide_eq_false_2 by lia.
    rewrite Nat2Z.id, Hcell. cbn [mbind option_bind].
    case_decide as Hty.
    + rewrite Hw0, Hw. cbn [mbind option_bind].
      eexists _, _. split; [reflexivity|].
      split; [|split; [|split_and!; try done; cbn [_model with_store]; congruence]].
      * apply (consistent_ext _ nb0); try done. intros x. cbn [store with_store].
        rewrite lookup_alter. case_decide; subst; by rewrite ?fmap_is_Some.
      * by apply (active_ok_ext _ nb0).
    + assert (∃ element, head (target event) = Some element) as [element ->].
      { destruct (target event) as [|e up]; [|by exists e].
        cbn [_findCell] in Hf. lia. }
      cbn [mbind option_bind].
      case_decide; eexists _, _; (split; [reflexivity|]); split_and!; try done; congruence.
Qed.

(** On a consistent notebook no DOM event makes the handler throw, and
    whatever the event, the notebook stays consistent, with the same
    model and the same child widgets in the same order.  While there is
    no model or the model is read-only the handler changes nothing at
    all.  A double click alone changes neither the mode nor the active
    cell, and only a double click acts on the DOM outside the notebook
    object. *)
Theorem handleEvent_keeps_invariants (event : Event) (nb : t) :
  consistent nb → active_ok nb →
  ∃ nb' fx, handleEvent event nb = Some (nb', fx)
    ∧ consistent nb' ∧ active_ok nb'
    ∧ widgets nb' = widgets nb ∧ _model nb' = _model nb
    ∧ (fx ≠ [] → event_type event = "dblclick")
    ∧ ((∀ m, _model nb = Some m → readOnly m = true) → nb' = nb ∧ fx = [])
    ∧ (event_type event = "dblclick" →
         _mode nb' = _mode nb ∧ _activeCell nb' = _activeCell nb
         ∧ _activeCellIndex nb' = _activeCellIndex nb).
Proof.
  intros Hc Ha. unfold handleEvent.
  destruct (_model nb) as [m|] eqn:Hm; [|by exists nb, []].
  destruct (readOnly m) eqn:Hro; [by exists nb, []|].
  assert (¬ ∀ m0, Some m = Some m0 → readOnly m0 = true) as Hnot.
  { intros H. specialize (H m eq_refl). congruence. }
  case_decide as Hmd; [|case_decide as Hdc; [|case_decide as Hfo]].
  - destruct (evtMouseDown_invariants event nb m Hc Ha Hm) as (nb' & -> & Hc' & Ha' & Hw & Hmo).
    exists nb', []. cbn [fmap option_fmap option_map].
    split_and!; try done; congruence.
  - destruct (evtDblClick_invariants event nb m Hc Ha Hm)
      as (nb' & fx & -> & Hc' & Ha' & Hw & Hmo & Hmode & Hac & Hi).
    exists nb', fx. split_and!; try done; congruence.
  - destruct (evtFocus_invariants event nb m Hc Ha Hm) as (nb' & -> & Hc' & Ha' & Hw & Hmo).
    exists nb', []. cbn [fmap option_fmap option_map].
    split_and!; try done; congruence.
  - exists nb, []. split_and!; try done.
Qed.

Lemma handleEvent_keeps_invariants_witness :
  let img := {| is_this_node := false; has_cell_class := false; widget_of := None;
                editor_of := None; localName := "img" |} in
  let cell := {| is_this_node := false; has_cell_class := true; widget_of := Some 0%nat;
                 editor_of := None; localName := "div" |} in
  let event := {| event_type := "dblclick"; target := [img; cell] |} in
  ∃ nb nb', two = Some nb ∧ consistent nb ∧ active_ok nb
    ∧ handleEvent event nb = Some (nb', [toggleUnconfined])
    ∧ consistent nb' ∧ _mode nb' = _mode nb.
Proof.
  intros img cell event. exists (default new two).
  assert (consistent (default new two)) as Hc.
  { apply (consistent_ext _ (set_activeCellIndex 0 (default new two)));
      [vm_compute; reflexivity..| |apply two_consistent].
    intros w. by rewrite set_activeCellIndex_unfold. }
  assert (active_ok (default new two)) as Ha by (split; vm_compute; reflexivity).
  destruct (handleEvent_keeps_invariants event (default new two) Hc Ha)
    as (nb' & fx & Hev & Hc' & _ & _ & _ & _ & _ & Hdc).
  destruct (Hdc eq_refl) as (Hmode & _).
  assert (snd <$> handleEvent event (default new two) = Some [toggleUnconfined]) as Hfx
    by (vm_compute; reflexivity).
  rewrite Hev in Hfx. injection Hfx as ->.
  exists nb'. split; [vm_compute; reflexivity|]. split; [exact Hc|]. split; [exact Ha|].
  split; [exact Hev|]. split; [exact Hc'|exact Hmode].
Defined.

End NotebookFacts.

Module ConsolePanelFacts.
Import ConsolePanel Examples.

Example close_confirmed :
  onCloseRequest (world (Some python) "OK" (Fulfilled ())) new
  = (Returned (Fulfilled ()),
     {| hasConsole := false; isDisposed := true; attached := false;
        actions := [KernelSpecRequested;
                    DialogShown "Shut down kernel?" "Shut down Python 3?";
                    ShutdownRequested] |}).
Proof. reflexivity. Qed.

Example close_declined :
  onCloseRequest (world (Some python) "Cancel" (Fulfilled ())) new
  = (Returned (Fulfilled ()),
     {| hasConsole := false; isDisposed := true; attached := false;
        actions := [KernelSpecRequested;
                    DialogShown "Shut down kernel?" "Shut down Python 3?"] |}).
Proof. reflexivity. Qed.

(** Without a kernel the panel is disposed and the request then throws on
    [session.kernel.getKernelSpec()]. *)
Example close_without_kernel :
  onCloseRequest (world None "OK" (Fulfilled ())) new
  = (Threw, {| hasConsole := false; isDisposed := true; attached := false; actions := [] |}).
Proof. reflexivity. Qed.

(** C2 (as the code has it): on a panel that is not disposed, a close
    request without kernel disposes the panel at once; with a kernel, the
    chain ends fulfilled with the panel closed and disposed when the
    kernel-spec fetch and the dialog succeed and, after an OK answer, the
    shutdown succeeds, the shutdown being requested only after OK; and
    when the kernel-spec fetch or the shutdown fails the chain ends
    rejected and the panel is left as it was, not disposed. *)
Theorem close_request_outcomes (w : World) (p : t) :
  hasConsole p = true → isDisposed p = false →
  let r := onCloseRequest w p in
  (kernel (session w) = None → isDisposed (snd r) = true)
  ∧ (∀ k name value,
       kernel (session w) = Some k → getKernelSpec k = Fulfilled name →
       showDialog w = Fulfilled value →
       (confirmed value = true → shutdown (session w) = Fulfilled ()) →
       fst r = Returned (Fulfilled ())
       ∧ isDisposed (snd r) = true ∧ attached (snd r) = false
       ∧ (ShutdownRequested ∈ actions (snd r)
          ↔ ShutdownRequested ∈ actions p ∨ confirmed value = true))
  ∧ (∀ k, kernel (session w) = Some k →
       getKernelSpec k = Rejected
       ∨ (∃ name value, getKernelSpec k = Fulfilled name
            ∧ showDialog w = Fulfilled value ∧ confirmed value = true
            ∧ shutdown (session w) = Rejected) →
       fst r = Returned Rejected
       ∧ isDisposed (snd r) = false ∧ hasConsole (snd r) = true
       ∧ attached (snd r) = attached p).
Proof.
  intros Hc Hd r. subst r. unfold onCloseRequest. rewrite Hc. cbn [negb].
  split; [|split].
  - intros ->. cbn [snd]. unfold dispose. by rewrite Hd.
  - intros k name value -> Hspec Hdlg Hsd. unfold then_, settle, record.
    rewrite Hspec, Hdlg. cbn [fst snd].
    destruct (confirmed value) eqn:Hconf.
    + rewrite (Hsd eq_refl). cbn [fst snd]. unfold dispose, super_onCloseRequest.
      cbn [isDisposed actions attached]. rewrite Hd. cbn [isDisposed actions attached].
      split_and!; try done.
      rewrite !elem_of_app, !elem_of_cons, !elem_of_nil. split; [auto|].
      intros _. right. by left.
    + cbn [fst snd]. unfold dispose, super_onCloseRequest.
      cbn [isDisposed actions attached]. rewrite Hd. cbn [isDisposed actions attached].
      split_and!; try done.
      rewrite !elem_of_app, !elem_of_cons, !elem_of_nil. split.
      * intros [[H|[H|[]]]|[H|[]]]; [by left|discriminate H|discriminate H].
      * intros [H|H]; [by do 2 left|discriminate H].
  - intros k -> [Hspec|(name & value & Hspec & Hdlg & Hconf & Hsd)];
      unfold then_, settle, record.
    + rewrite Hspec. by cbn.
    + rewrite Hspec, Hdlg, Hconf, Hsd. by cbn.
Qed.

Lemma close_request_outcomes_witness :
  isDisposed (snd (onCloseRequest (world None "OK" (Fulfilled ())) new)) = true
  ∧ fst (onCloseRequest (world (Some python) "OK" (Fulfilled ())) new) = Returned (Fulfilled ())
  ∧ isDisposed (snd (onCloseRequest (world (Some python) "OK" Rejected) new)) = false.
Proof.
  split; [|split].
  - apply (close_request_outcomes (world None "OK" (Fulfilled ())) new eq_refl eq_refl).
    reflexivity.
  - eapply (close_request_outcomes (world (Some python) "OK" (Fulfilled ())) new
              eq_refl eq_refl); reflexivity.
  - eapply (close_request_outcomes (world (Some python) "OK" Rejected) new
              eq_refl eq_refl); [reflexivity|].
    right. exists "Python 3", (Some {| text := "OK" |}). by split_and!.
Defined.

(** C2 as stated fails when the kernel-spec fetch fails: nothing handles
    the rejection, the last step of the chain never runs and the panel is
    not disposed. *)
Lemma close_request_fetch_failure :
  getKernelSpec broken = Rejected
  ∧ fst (onCloseRequest (world (Some broken) "OK" (Fulfilled ())) new) = Returned Rejected
  ∧ isDisposed (snd (onCloseRequest (world (Some broken) "OK" (Fulfilled ())) new)) = false.
Proof. by split_and!. Qed.

(** *** More on the close sequence *)

(** A close request asks its collaborators in a fixed order and never
    out of turn: the actions it adds are a prefix of kernel-spec request,
    dialog, shutdown request; nothing is asked without console or
    kernel; the dialog is shown only after the spec was fetched; and the
    shutdown is requested exactly when the user answered OK. *)
Theorem close_request_actions (w : World) (p : t) :
  ∃ l, actions (snd (onCloseRequest w p)) = actions p ++ l
    ∧ (hasConsole p = false ∨ kernel (session w) = None → l = [])
    ∧ (∀ k, hasConsole p = true → kernel (session w) = Some k →
         match getKernelSpec k with
         | Rejected => l = [KernelSpecRequested]
         | Fulfilled name =>
             let dialog := DialogShown "Shut down kernel?" ("Shut down " +:+ name +:+ "?") in
             match showDialog w with
             | Rejected => l = [KernelSpecRequested; dialog]
             | Fulfilled value =>
                 l = if confirmed value
                     then [KernelSpecRequested; dialog; ShutdownRequested]
                     else [KernelSpecRequested; dialog]
             end
         end).
Proof.
  unfold onCloseRequest. destruct (hasConsole p) eqn:Hc; cbn [negb].
  - destruct (kernel (session w)) as [k|] eqn:Hk.
    + unfold then_, settle, record.
      destruct (getKernelSpec k) as [name|] eqn:Hspec; cbn [fst snd actions].
      * destruct (showDialog w) as [value|] eqn:Hdlg; cbn [fst snd actions].
        -- destruct (confirmed value) eqn:Hconf; cbn [fst snd actions].
           ++ destruct (shutdown (session w)); cbn [fst snd actions];
                unfold dispose, super_onCloseRequest; cbn [isDisposed actions];
                destruct (isDisposed p); cbn [actions];
                (eexists; split; [by rewrite <- !app_assoc|]);
                (split; [intros [|]; done|]);
                intros k' _ [= <-]; by rewrite ?Hspec, ?Hdlg, ?Hconf.
           ++ unfold dispose, super_onCloseRequest; cbn [isDisposed actions];
                destruct (isDisposed p); cbn [actions];
                (eexists; split; [by rewrite <- !app_assoc|]);
                (split; [intros [|]; done|]);
                intros k' _ [= <-]; by rewrite ?Hspec, ?Hdlg, ?Hconf.
        -- eexists. split; [by rewrite <- !app_assoc|].
           split; [intros [|]; done|]. intros k' _ [= <-]. by rewrite ?Hspec, ?Hdlg.
      * eexists. split; [reflexivity|].
        split; [intros [|]; done|]. intros k' _ [= <-]. by rewrite ?Hspec.
    + exists []. cbn [snd]. unfold dispose. destruct (isDisposed p); cbn [actions];
        (split; [by rewrite app_nil_r|]); (split; [done|]); intros k' _ [=].
  - exists []. cbn [snd]. split; [by rewrite app_nil_r|]. split; [done|]. intros k' [=].
Qed.

(** With a kernel attached, a panel that was not disposed ends disposed
    exactly when the chain is fulfilled, and that is exactly when the
    kernel-spec fetch and the dialog succeed and, after an OK answer, so
    does the shutdown; in every other case the panel is left as it was
    apart from the record of what was asked. *)
Theorem close_request_disposed_iff_fulfilled (w : World) (p : t) (k : IKernel) :
  hasConsole p = true → isDisposed p = false → kernel (session w) = Some k →
  let r := onCloseRequest w p in
  (isDisposed (snd r) = true ↔ fst r = Returned (Fulfilled ()))
  ∧ (fst r = Returned (Fulfilled ()) ↔
       ∃ name value, getKernelSpec k = Fulfilled name ∧ showDialog w = Fulfilled value
                     ∧ (confirmed value = true → shutdown (session w) = Fulfilled ()))
  ∧ (fst r ≠ Returned (Fulfilled ()) →
       fst r = Returned Rejected ∧ hasConsole (snd r) = true ∧ attached (snd r) = attached p).
Proof.
  intros Hc Hd Hk r. subst r. unfold onCloseRequest. rewrite Hc, Hk. cbn [negb].
  unfold then_, settle, record.
  assert (∀ (q : t) (P : Prop),
            isDisposed q = false → hasConsole q = true → attached q = attached p → ¬ P →
            (isDisposed q = true ↔ @Returned Rejected = Returned (Fulfilled ()))
            ∧ (@Returned Rejected = Returned (Fulfilled ()) ↔ P)
            ∧ (@Returned Rejected ≠ Returned (Fulfilled ()) →
                 @Returned Rejected = Returned Rejected
                 ∧ hasConsole q = true ∧ attached q = attached p)) as Hrej.
  { intros q P Hq1 Hq2 Hq3 HP. rewrite Hq1. split_and!; [split; discriminate| |done].
    split; [discriminate|]. intros HP'. by destruct HP. }
  assert (∀ (q : t) (P : Prop),
            isDisposed q = false → P →
            (isDisposed (dispose (super_onCloseRequest q)) = true
               ↔ Returned (Fulfilled ()) = Returned (Fulfilled ()))
            ∧ (Returned (Fulfilled ()) = Returned (Fulfilled ()) ↔ P)
            ∧ (Returned (Fulfilled ()) ≠ Returned (Fulfilled ()) →
                 Returned (Fulfilled ()) = Returned Rejected
                 ∧ hasConsole (dispose (super_onCloseRequest q)) = true
                 ∧ attached (dispose (super_onCloseRequest q)) = attached p)) as Hful.
  { intros q P Hq HP. unfold dispose, super_onCloseRequest. cbn [isDisposed]. rewrite Hq.
    cbn [isDisposed]. split_and!; [done|done|]. intros Habs. by destruct Habs. }
  destruct (getKernelSpec k) as [name|]; cbn [fst snd];
    [|apply Hrej; [done..|intros (?&?&H&_); discriminate H]].
  destruct (showDialog w) as [value|]; cbn [fst snd];
    [|apply Hrej; [done..|intros (?&?&_&H&_); discriminate H]].
  destruct (confirmed value) eqn:Hconf; cbn [fst snd].
  - destruct (shutdown (session w)) as [[]|]; cbn [fst snd].
    + apply Hful; [done|]. by exists name, value.
    + apply Hrej; [done..|]. intros (?&?&_&[= <-]&H). discriminate (H Hconf).
  - apply Hful; [done|]. exists name, value. split_and!; [done..|]. congruence.
Qed.

Lemma close_request_disposed_iff_fulfilled_witness :
  isDisposed (snd (onCloseRequest (world (Some python) "No" Rejected) new)) = true
  ∧ fst (onCloseRequest (world (Some python) "OK" Rejected) new) = Returned Rejected.
Proof.
  split.
  - apply (close_request_disposed_iff_fulfilled (world (Some python) "No" Rejected) new python
             eq_refl eq_refl eq_refl). reflexivity.
  - apply (close_request_disposed_iff_fulfilled (world (Some python) "OK" Rejected) new python
             eq_refl eq_refl eq_refl). discriminate.
Defined.

(** [dispose()] is idempotent, and a close request on a disposed panel
    throws on its first line and changes nothing; in particular a second
    close request after a completed one does. *)
Theorem close_request_after_dispose (w w' : World) (p : t) :
  hasConsole p = true → isDisposed p = false →
  dispose (dispose p) = dispose p
  ∧ onCloseRequest w' (dispose p) = (Threw, dispose p)
  ∧ (fst (onCloseRequest w p) = Returned (Fulfilled ()) →
       onCloseRequest w' (snd (onCloseRequest w p)) = (Threw, snd (onCloseRequest w p))).
Proof.
  intros Hc Hd. split; [|split].
  - unfold dispose. rewrite Hd. by cbn.
  - unfold onCloseRequest, dispose. rewrite Hd. by cbn.
  - intros Hful.
    assert (hasConsole (snd (onCloseRequest w p)) = false) as Hno.
    { revert Hful. unfold onCloseRequest. rewrite Hc. cbn [negb].
      destruct (kernel (session w)) as [k|]; [|done].
      unfold then_, settle, record.
      destruct (getKernelSpec k); cbn [fst snd]; [|done].
      destruct (showDialog w) as [value|]; cbn [fst snd]; [|done].
      destruct (confirmed value); cbn [fst snd].
      + destruct (shutdown (session w)); cbn [fst snd]; [|done].
        unfold dispose, super_onCloseRequest. cbn [isDisposed]. by rewrite Hd.
      + unfold dispose, super_onCloseRequest. cbn [isDisposed]. by rewrite Hd. }
    unfold onCloseRequest at 1. by rewrite Hno.
Qed.

Lemma close_request_after_dispose_witness :
  onCloseRequest (world None "OK" (Fulfilled ()))
    (snd (onCloseRequest (world (Some python) "OK" (Fulfilled ())) new))
  = (Threw, snd (onCloseRequest (world (Some python) "OK" (Fulfilled ())) new)).
Proof.
  apply (close_request_after_dispose (world (Some python) "OK" (Fulfilled ()))
           (world None "OK" (Fulfilled ())) new eq_refl eq_refl).
  reflexivity.
Defined.

End ConsolePanelFacts.
